(** * Session-scoped completion protocol of the opencode SDK wrapper

    A shallow embedding of [src/complete.ts] and of [SessionManager.close]
    from [src/session.ts].  Remote events are untyped at run time (the code
    inspects them with [typeof] and casts), so their payload is modelled as
    a JavaScript value; asynchronous collaborators (runtime creation,
    session creation, event subscription, prompt submission, the caller's
    abort signal) are modelled as a script of outcomes that [complete]
    consumes, and the calls it makes are recorded in a trace. *)

From Stdlib Require Import String Ascii List ZArith Bool Lia DecimalString.
Import ListNotations.
Local Open Scope string_scope.
Local Open Scope list_scope.

Set Implicit Arguments.
Set Warnings "-register-all".

(* ------------------------------------------------------------------ *)
(** ** JavaScript values and thrown values *)

Module Js.

(** The values a JSON-borne event can hold.  Numbers are restricted to
    integers (token counts); [JNaN] is the only non-integer number.  A
    JavaScript number holds an integer exactly up to 2^53 - 1 in
    magnitude ([Edge.isSafeInteger]): [JNum n] stands for a number of the
    program in that range, and what is stated about sums is stated
    there. *)
Inductive JsVal : Type :=
| JUndefined
| JNull
| JBool (b : bool)
| JNum (n : Z)
| JNaN
| JStr (s : string)
| JArr (items : list JsVal)
| JObj (fields : list (string * JsVal)).

(** Thrown values. *)
Inductive Exn : Type :=
| Error (msg : string)
| TypeError (msg : string)
| Foreign (name msg : string).

(** Completion of a fallible computation: a value or a throw. *)
Inductive res (A : Type) : Type :=
| Ok (a : A)
| Throw (e : Exn).
Arguments Ok {A} a.
Arguments Throw {A} e.

Definition bind {A B} (m : res A) (k : A -> res B) : res B :=
  match m with
  | Ok a => k a
  | Throw e => Throw e
  end.

(** ToBoolean. *)
Definition truthy (v : JsVal) : bool :=
  match v with
  | JUndefined | JNull | JNaN => false
  | JBool b => b
  | JNum n => negb (Z.eqb n 0)
  | JStr s => negb (String.eqb s "")
  | JArr _ | JObj _ => true
  end.

(** [v === undefined || v === null]. *)
Definition nullish (v : JsVal) : bool :=
  match v with
  | JUndefined | JNull => true
  | _ => false
  end.

(** [typeof v === "object"]; null and arrays answer "object" too. *)
Definition typeofObject (v : JsVal) : bool :=
  match v with
  | JNull | JArr _ | JObj _ => true
  | _ => false
  end.

(** [v === "lit"] for a string literal. *)
Definition strictEqStr (v : JsVal) (lit : string) : bool :=
  match v with
  | JStr s => String.eqb s lit
  | _ => false
  end.

Fixpoint field (k : string) (fs : list (string * JsVal)) : JsVal :=
  match fs with
  | [] => JUndefined
  | (k', v) :: rest => if String.eqb k k' then v else field k rest
  end.

(** Property read [v.k].  Reading from undefined or null throws a
    TypeError; a primitive or an array has none of the keys this module
    reads ("sessionID", "info", "part", "type", "text", "role",
    "tokens", "input", "output", "status"), so the read is undefined. *)
Definition getProp (v : JsVal) (k : string) : res JsVal :=
  match v with
  | JUndefined =>
      Throw (TypeError ("Cannot read properties of undefined (reading '" ++ k ++ "')"))
  | JNull =>
      Throw (TypeError ("Cannot read properties of null (reading '" ++ k ++ "')"))
  | JObj fs => Ok (field k fs)
  | _ => Ok JUndefined
  end.

(** Optional chaining [v?.k]. *)
Definition optProp (v : JsVal) (k : string) : res JsVal :=
  if nullish v then Ok JUndefined else getProp v k.

(** [v ?? d]. *)
Definition orElse (v d : JsVal) : JsVal :=
  if nullish v then d else v.

(** ToString, as used by [+] when an operand is a string or an object.
    A number is printed in full decimal digits, as JavaScript prints an
    integer below 10^21 in magnitude, the safe integers among them. *)
Fixpoint toString (v : JsVal) : string :=
  match v with
  | JUndefined => "undefined"
  | JNull => "null"
  | JBool true => "true"
  | JBool false => "false"
  | JNum n => NilZero.string_of_int (Z.to_int n)
  | JNaN => "NaN"
  | JStr s => s
  | JArr items =>
      String.concat "," (map (fun x => if nullish x then "" else toString x) items)
  | JObj _ => "[object Object]"
  end.

(** ToPrimitive: objects and arrays become their string form. *)
Definition toPrimitive (v : JsVal) : JsVal :=
  match v with
  | JArr _ | JObj _ => JStr (toString v)
  | _ => v
  end.

Definition isString (v : JsVal) : bool :=
  match v with
  | JStr _ => true
  | _ => false
  end.

(** ToNumber on a primitive that is not a string; [None] is NaN. *)
Definition toNumber (v : JsVal) : option Z :=
  match v with
  | JNull => Some 0%Z
  | JBool true => Some 1%Z
  | JBool false => Some 0%Z
  | JNum n => Some n
  | _ => None
  end.

(** The binary [+] operator.  The sum of two numbers is their integer
    sum: that is the sum JavaScript computes when the operands and the
    sum are safe integers; beyond them the program rounds. *)
Definition jsAdd (a b : JsVal) : JsVal :=
  let pa := toPrimitive a in
  let pb := toPrimitive b in
  if isString pa || isString pb then JStr (toString pa ++ toString pb)
  else match toNumber pa, toNumber pb with
       | Some x, Some y => JNum (x + y)
       | _, _ => JNaN
       end.

End Js.
Export Js.

Notation "'let*' x ':=' m 'in' k" := (bind m (fun x => k))
  (at level 10, x name, m at level 100, k at level 200).

(* ------------------------------------------------------------------ *)
(** ** Data model ([src/types.ts], [src/complete.ts]) *)

Module Types.

Inductive Content : Type :=
| TextContent (text : string)
| ImageContent (url base64 mimeType : option string).

(** [Content[] | string] *)
Inductive MessageContent : Type :=
| Plain (s : string)
| Structured (parts : list Content).

Inductive Role : Type := user | assistant | system | tool.

Record ToolCallResult : Type := {
  tc_id : string;
  tc_name : string;
  tc_arguments : string
}.

Inductive Message : Type :=
| UserMessage (content : MessageContent)
| AssistantMessage (content : MessageContent) (toolCalls : option (list ToolCallResult))
| ToolResultMessage (toolCallId : string) (content : string).

Definition role (m : Message) : Role :=
  match m with
  | UserMessage _ => user
  | AssistantMessage _ _ => assistant
  | ToolResultMessage _ _ => tool
  end.

Definition content (m : Message) : MessageContent :=
  match m with
  | UserMessage c => c
  | AssistantMessage c _ => c
  | ToolResultMessage _ c => Plain c
  end.

Record Usage : Type := {
  inputTokens : JsVal;
  outputTokens : JsVal;
  totalTokens : JsVal
}.

Inductive StopReason : Type := end_turn | tool_use | max_tokens | stop_sequence.

(** The fields of [CompleteOptions] that [complete] reads.  [abortSignal]
    holds the signal's [aborted] flag at call time when a signal is given. *)
Record CompleteOptions : Type := {
  model : option string;
  workspaceDir : string;
  messages : option (list Message);
  prompt : option string;
  systemPrompt : option string;
  timeout : option Z;
  providerConfig : option (list (string * JsVal));
  abortSignal : option bool
}.

(** [text] is whatever the last text part carried: the source casts it
    to string without checking. *)
Record CompleteResult : Type := {
  text : JsVal;
  toolCalls : option (list ToolCallResult);
  stopReason : StopReason;
  usage : Usage
}.

Inductive StreamEvent : Type :=
| text_ev (text : JsVal)
| tool_call_start (id name : string)
| tool_call_delta (id delta : string)
| tool_call_end (id name arguments : string)
| done (result : CompleteResult).

(** A remote event: a type tag and an optional properties bag
    ([JUndefined] when the bag is missing). *)
Record Event : Type := {
  type : string;
  properties : JsVal
}.

(** [{ type: "text"; text }], the only kind of prompt part built. *)
Record TextPart : Type := { part_text : string }.

End Types.
Export Types.

(* ------------------------------------------------------------------ *)
(** ** Collaborators and the call frame *)

Module Runtime.

(** Calls made on the remote runtime, in program order. *)
Inductive Action : Type :=
| CreateOpencode (timeout : Z) (port : option Z) (config : list (string * JsVal))
| SessionCreate (directory : string)
| EventSubscribe
| SessionPrompt (id : string) (parts : list TextPart)
| ServerClose.

(** [opencode.server]: its [close] either returns or throws. *)
Record Server : Type := { closeThrows : option Exn }.

(** One step of the async iteration: an event is delivered (possibly a
    null one), or the caller's abort signal fires while the loop waits. *)
Inductive StreamItem : Type :=
| Deliver (event : option Event)
| ExternalAbort.

(** The multiplexed stream: what it delivers, and whether the iteration
    then ends normally ([None]) or throws.  A stream that stays open and
    silent after its last item is the subject of [Live]. *)
Record EventStream : Type := {
  items : list StreamItem;
  failure : option Exn
}.

(** The outcomes the collaborators give to one call. *)
Record World : Type := {
  createOpencode : res Server;
  sessionCreate : res (option string);   (* session.data?.id *)
  eventSubscribe : res EventStream;
  abortDuringSetup : bool;               (* signal fires before the loop *)
  promptOutcome : option Exn;            (* promptPromise rejects with *)
  abortDuringPrompt : bool               (* signal fires while awaiting it *)
}.

(** Mutable state of one [complete] call: the trace of remote calls, the
    internal abort controller with its link to the caller's signal, and
    the local variables. *)
Record Frame : Type := {
  trace : list Action;
  linked : bool;
  aborted : bool;
  var_serverClose : option Server;
  var_responseText : JsVal;
  var_toolCalls : list ToolCallResult;
  var_usage : Usage;
  var_stopReason : StopReason
}.

Definition M (A : Type) : Type := Frame -> res A * Frame.

Definition ret {A} (a : A) : M A := fun f => (Ok a, f).

Definition throw {A} (e : Exn) : M A := fun f => (Throw e, f).

Definition lift {A} (r : res A) : M A := fun f => (r, f).

Definition bindM {A B} (m : M A) (k : A -> M B) : M B :=
  fun f =>
    match m f with
    | (Ok a, f') => k a f'
    | (Throw e, f') => (Throw e, f')
    end.

(** [try { m } catch (err) { h err }] *)
Definition tryCatch {A} (m : M A) (h : Exn -> M A) : M A :=
  fun f =>
    match m f with
    | (Ok a, f') => (Ok a, f')
    | (Throw e, f') => h e f'
    end.

(** [try { m } finally { fin }]: the completion of [m] stands unless
    [fin] itself throws. *)
Definition tryFinally {A} (m : M A) (fin : M unit) : M A :=
  fun f =>
    let (r, f') := m f in
    match fin f' with
    | (Ok _, f'') => (r, f'')
    | (Throw e, f'') => (Throw e, f'')
    end.

Definition emit (a : Action) : M unit :=
  fun f =>
    (Ok tt, {| trace := trace f ++ [a]; linked := linked f; aborted := aborted f;
               var_serverClose := var_serverClose f;
               var_responseText := var_responseText f;
               var_toolCalls := var_toolCalls f; var_usage := var_usage f;
               var_stopReason := var_stopReason f |}).

Definition setLinked : M unit :=
  fun f =>
    (Ok tt, {| trace := trace f; linked := true; aborted := aborted f;
               var_serverClose := var_serverClose f;
               var_responseText := var_responseText f;
               var_toolCalls := var_toolCalls f; var_usage := var_usage f;
               var_stopReason := var_stopReason f |}).

(** The caller aborts its signal: the one-shot listener, if one was
    registered, aborts the internal controller. *)
Definition externalAbort : M unit :=
  fun f =>
    (Ok tt, {| trace := trace f; linked := linked f;
               aborted := aborted f || linked f;
               var_serverClose := var_serverClose f;
               var_responseText := var_responseText f;
               var_toolCalls := var_toolCalls f; var_usage := var_usage f;
               var_stopReason := var_stopReason f |}).

Definition setServerClose (s : Server) : M unit :=
  fun f =>
    (Ok tt, {| trace := trace f; linked := linked f; aborted := aborted f;
               var_serverClose := Some s;
               var_responseText := var_responseText f;
               var_toolCalls := var_toolCalls f; var_usage := var_usage f;
               var_stopReason := var_stopReason f |}).

Definition setResponseText (v : JsVal) : M unit :=
  fun f =>
    (Ok tt, {| trace := trace f; linked := linked f; aborted := aborted f;
               var_serverClose := var_serverClose f;
               var_responseText := v;
               var_toolCalls := var_toolCalls f; var_usage := var_usage f;
               var_stopReason := var_stopReason f |}).

Definition setUsage (u : Usage) : M unit :=
  fun f =>
    (Ok tt, {| trace := trace f; linked := linked f; aborted := aborted f;
               var_serverClose := var_serverClose f;
               var_responseText := var_responseText f;
               var_toolCalls := var_toolCalls f; var_usage := u;
               var_stopReason := var_stopReason f |}).

Definition get : M Frame := fun f => (Ok f, f).

(** The frame at entry; the locals hold the values their declarations
    give them ([""], [[]], zero usage, ["end_turn"]). *)
Definition entry : Frame :=
  {| trace := []; linked := false; aborted := false;
     var_serverClose := None;
     var_responseText := JStr "";
     var_toolCalls := [];
     var_usage := {| inputTokens := JNum 0; outputTokens := JNum 0;
                     totalTokens := JNum 0 |};
     var_stopReason := end_turn |}.

End Runtime.
Export Runtime.

Notation "x <- m ;; k" := (bindM m (fun x => k))
  (at level 61, m at next level, right associativity).
Notation "m ;;; k" := (bindM m (fun _ => k))
  (at level 61, right associativity).

(* ------------------------------------------------------------------ *)
(** ** [src/complete.ts] *)

Module Complete.

(** [extractSessionId]: the session identifier of an event, if any. *)
Definition extractSessionId (event : Event) : res (option string) :=
  let props := properties event in
  if negb (truthy props) then Ok None
  else
    let* sessionID := getProp props "sessionID" in
    match sessionID with
    | JStr s => Ok (Some s)
    | _ =>
        let* info := getProp props "info" in
        if truthy info && typeofObject info then
          let* infoSessionID := getProp info "sessionID" in
          match infoSessionID with
          | JStr s => Ok (Some s)
          | _ => Ok None
          end
        else Ok None
    end.

(** [eventSessionId && eventSessionId !== sessionId], the test under
    which the loop skips an event. *)
Definition excluded (eventSessionId : option string) (sessionId : string) : bool :=
  match eventSessionId with
  | Some s => negb (String.eqb s "") && negb (String.eqb s sessionId)
  | None => false
  end.

(** The separator of [join("\n")]. *)
Definition newline : string := String (ascii_of_nat 10) "".

Definition isUser (m : Message) : bool :=
  match role m with
  | user => true
  | _ => false
  end.

Definition contentText (m : Message) : string :=
  match content m with
  | Plain s => s
  | Structured _ => ""
  end.

Definition nonEmpty (s : string) : bool := negb (String.eqb s "").

(** The text synthesized from [messages]: the user messages' contents
    joined by newlines, pushed only when the result is non-empty. *)
Definition messageParts (options : CompleteOptions) : list TextPart :=
  match messages options with
  | Some ms =>
      let text := String.concat newline (map contentText (filter isUser ms)) in
      if nonEmpty text then [ {| part_text := text |} ] else []
  | None => []
  end.

Definition contentParts (options : CompleteOptions) : list TextPart :=
  match prompt options with
  | Some p => if nonEmpty p then [ {| part_text := p |} ] else messageParts options
  | None => messageParts options
  end.

Definition systemParts (options : CompleteOptions) : list TextPart :=
  match systemPrompt options with
  | Some s => if nonEmpty s then [ {| part_text := "[System]: " ++ s |} ] else []
  | None => []
  end.

Definition buildParts (options : CompleteOptions) : list TextPart :=
  contentParts options ++ systemParts options.

Definition opencodeConfig (options : CompleteOptions) : list (string * JsVal) :=
  (match model options with
   | Some m => if nonEmpty m then [("model", JStr m)] else []
   | None => []
   end)
  ++
  (match providerConfig options with
   | Some p => [("provider", JObj p)]
   | None => []
   end).

Inductive Ctl : Type := Next | Break.

(** The body of the [for await] loop after the abort and null checks. *)
Definition loopBody (sessionId : string) (event : Event) : M Ctl :=
  eventSessionId <- lift (extractSessionId event) ;;
  if excluded eventSessionId sessionId then ret Next
  else if String.eqb (type event) "message.part.updated" then
    part <- lift (getProp (properties event) "part") ;;
    partType <- lift (optProp part "type") ;;
    if strictEqStr partType "text" then
      partText <- lift (getProp part "text") ;;
      setResponseText (orElse partText (JStr "")) ;;;
      ret Next
    else ret Next
  else if String.eqb (type event) "message.updated" then
    info <- lift (getProp (properties event) "info") ;;
    infoRole <- lift (optProp info "role") ;;
    if strictEqStr infoRole "assistant" then
      tokens <- lift (getProp info "tokens") ;;
      if truthy tokens then
        input <- lift (getProp tokens "input") ;;
        output <- lift (getProp tokens "output") ;;
        setUsage {| inputTokens := orElse input (JNum 0);
                    outputTokens := orElse output (JNum 0);
                    totalTokens := jsAdd (orElse input (JNum 0))
                                         (orElse output (JNum 0)) |} ;;;
        ret Next
      else ret Next
    else ret Next
  else if String.eqb (type event) "session.idle"
          || String.eqb (type event) "session.status" then
    status <- lift (getProp (properties event) "status") ;;
    if negb (truthy status) then ret Break
    else
      statusType <- lift (getProp status "type") ;;
      if strictEqStr statusType "idle" then ret Break else ret Next
  else ret Next.

(** [for await (const event of eventStream) { ... }] *)
Fixpoint forAwait (sessionId : string) (its : list StreamItem)
    (fail : option Exn) : M unit :=
  match its with
  | [] =>
      match fail with
      | Some e => throw e
      | None => ret tt
      end
  | ExternalAbort :: rest => externalAbort ;;; forAwait sessionId rest fail
  | Deliver event :: rest =>
      f <- get ;;
      if aborted f then ret tt
      else
        match event with
        | None => forAwait sessionId rest fail
        | Some ev =>
            c <- loopBody sessionId ev ;;
            match c with
            | Break => ret tt
            | Next => forAwait sessionId rest fail
            end
        end
  end.

(** [catch (err) { if (!abortController.signal.aborted) throw err; }] *)
Definition rethrowUnlessAborted (err : Exn) : M unit :=
  f <- get ;;
  if aborted f then ret tt else throw err.

(** [catch { if (!abortController.signal.aborted) throw new Error("Prompt failed"); }] *)
Definition promptFailedUnlessAborted (_ : Exn) : M unit :=
  f <- get ;;
  if aborted f then ret tt else throw (Error "Prompt failed").

(** [await promptPromise] *)
Definition awaitPrompt (w : World) : M unit :=
  (if abortDuringPrompt w then externalAbort else ret tt) ;;;
  match promptOutcome w with
  | Some e => throw e
  | None => ret tt
  end.

(** [serverClose?.()] *)
Definition closeServer : M unit :=
  f <- get ;;
  match var_serverClose f with
  | None => ret tt
  | Some server =>
      emit ServerClose ;;;
      match closeThrows server with
      | Some e => throw e
      | None => ret tt
      end
  end.

Definition result : M CompleteResult :=
  f <- get ;;
  ret {| text := var_responseText f;
         toolCalls := if Nat.ltb 0 (length (var_toolCalls f))
                      then Some (var_toolCalls f) else None;
         stopReason := var_stopReason f;
         usage := var_usage f |}.

Definition default_timeout : Z := 120000.

(** Lines 75-80: the caller's signal is checked and linked. *)
Definition linkSignal (options : CompleteOptions) : M unit :=
  match abortSignal options with
  | Some sigAborted => if sigAborted then throw (Error "Aborted") else setLinked
  | None => ret tt
  end.

(** The [try] block, lines 94-210. *)
Definition tryBlock (options : CompleteOptions) (w : World) : M CompleteResult :=
  emit (CreateOpencode (match timeout options with
                        | Some t => t
                        | None => default_timeout
                        end)
                       None
                       (opencodeConfig options)) ;;;
  opencode <- lift (createOpencode w) ;;
  setServerClose opencode ;;;
  emit (SessionCreate (workspaceDir options)) ;;;
  session <- lift (sessionCreate w) ;;
  match session with
  | None => throw (Error "Failed to create session")
  | Some sessionId =>
      let parts := buildParts options in
      emit EventSubscribe ;;;
      eventStream <- lift (eventSubscribe w) ;;
      emit (SessionPrompt sessionId parts) ;;;
      (if abortDuringSetup w then externalAbort else ret tt) ;;;
      tryCatch (forAwait sessionId (items eventStream) (failure eventStream))
               rethrowUnlessAborted ;;;
      tryCatch (awaitPrompt w) promptFailedUnlessAborted ;;;
      result
  end.

(** The [finally] block, lines 211-217. *)
Definition finallyBlock : M unit :=
  tryCatch closeServer (fun _ => ret tt).

Definition complete (options : CompleteOptions) (w : World) : M CompleteResult :=
  linkSignal options ;;;
  tryFinally (tryBlock options w) finallyBlock.

Definition toolCallEvents (tc : ToolCallResult) : list StreamEvent :=
  [ tool_call_start (tc_id tc) (tc_name tc);
    tool_call_delta (tc_id tc) (tc_arguments tc);
    tool_call_end (tc_id tc) (tc_name tc) (tc_arguments tc) ].

(** What the generator yields once [complete] has resolved. *)
Definition yields (r : CompleteResult) : list StreamEvent :=
  (if truthy (text r) then [text_ev (text r)] else [])
  ++ flat_map toolCallEvents (match toolCalls r with
                              | Some tcs => tcs
                              | None => []
                              end)
  ++ [done r].

(** [streamComplete], run to exhaustion: the events yielded, in order. *)
Definition streamComplete (options : CompleteOptions) (w : World) : M (list StreamEvent) :=
  r <- complete options w ;;
  ret (yields r).

End Complete.
Export Complete.

(* ------------------------------------------------------------------ *)
(** ** [src/session.ts]: the session manager *)

Module SessionManager.

Record SessionConfig : Type := {
  cfg_workspaceDir : string;
  cfg_model : option string;
  cfg_providerConfig : option (list (string * JsVal));
  cfg_timeout : option Z;
  cfg_portStart : option Z
}.

(** The private fields.  [client] is kept as a flag: only its presence
    is ever tested. *)
Record t : Type := {
  client : bool;
  serverClose : option Server;
  sessionId : option string;
  config : SessionConfig
}.

Definition new (cfg : SessionConfig) : t :=
  {| client := false; serverClose := None; sessionId := None; config := cfg |}.

(** [close()]: returns the completion, the new fields and the remote
    calls made. *)
Definition close (this : t) : res unit * t * list Action :=
  let calls :=
    match serverClose this with
    | Some _ => [ServerClose]
    | None => []
    end in
  (* try { this.serverClose?.() } catch { } *)
  let attempt : res unit :=
    match serverClose this with
    | Some server =>
        match closeThrows server with
        | Some e => Throw e
        | None => Ok tt
        end
    | None => Ok tt
    end in
  let swallowed : res unit :=
    match attempt with
    | Ok _ => Ok tt
    | Throw _ => Ok tt
    end in
  (swallowed,
   {| client := false; serverClose := None; sessionId := None;
      config := config this |},
   calls).

(** [init()], given the outcomes of runtime and session creation. *)
Definition init (this : t) (create : res Server) (session : res (option string))
  : res string * t * list Action :=
  if client this then (Throw (Error "SessionManager already initialized"), this, [])
  else
    let a1 := CreateOpencode (match cfg_timeout (config this) with
                              | Some x => x
                              | None => 120000%Z
                              end)
                             (Some (match cfg_portStart (config this) with
                                    | Some x => x
                                    | None => 4100%Z
                                    end))
                             ((match cfg_model (config this) with
                               | Some m => if nonEmpty m then [("model", JStr m)] else []
                               | None => []
                               end)
                              ++
                              (match cfg_providerConfig (config this) with
                               | Some p => [("provider", JObj p)]
                               | None => []
                               end)) in
    match create with
    | Throw e => (Throw e, this, [a1])
    | Ok server =>
        let this1 := {| client := true; serverClose := Some server;
                        sessionId := sessionId this; config := config this |} in
        let a2 := SessionCreate (cfg_workspaceDir (config this)) in
        match session with
        | Throw e => (Throw e, this1, [a1; a2])
        | Ok None => (Throw (Error "Failed to create session"), this1, [a1; a2])
        | Ok (Some id) =>
            (Ok id,
             {| client := true; serverClose := Some server;
                sessionId := Some id; config := config this |},
             [a1; a2])
        end
    end.

End SessionManager.

(* ------------------------------------------------------------------ *)
(** ** Vocabulary of the specification *)

Module Spec.

(** A run of [complete] from the entry frame. *)
Definition run {A} (m : M A) : res A * Frame := m entry.

Definition isOk {A} (r : res A) : bool :=
  match r with
  | Ok _ => true
  | Throw _ => false
  end.

(** The string at [properties.sessionID], if there is one. *)
Definition topLevelSessionID (event : Event) : option string :=
  match properties event with
  | JObj fs =>
      match field "sessionID" fs with
      | JStr s => Some s
      | _ => None
      end
  | _ => None
  end.

(** The string at [properties.info.sessionID], if there is one. *)
Definition nestedSessionID (event : Event) : option string :=
  match properties event with
  | JObj fs =>
      match field "info" fs with
      | JObj gs =>
          match field "sessionID" gs with
          | JStr s => Some s
          | _ => None
          end
      | _ => None
      end
  | _ => None
  end.

(** Extraction order of the specification: top level first, then the
    nested position. *)
Definition specSessionId (event : Event) : option string :=
  match topLevelSessionID event with
  | Some s => Some s
  | None => nestedSessionID event
  end.

(** The event filter: the loop handles [event] for [sessionId]. *)
Definition accepted (sessionId : string) (event : Event) : bool :=
  match extractSessionId event with
  | Ok eventSessionId => negb (excluded eventSessionId sessionId)
  | Throw _ => false
  end.

(** The filter as the specification words it: accept exactly when the
    extracted identifier equals the target or none is present. *)
Definition specAccepts (sessionId : string) (event : Event) : Prop :=
  specSessionId event = Some sessionId \/ specSessionId event = None.

(** The text a "message.part.updated" event with a text part carries
    ([""] when the part has no text field). *)
Definition textOf (event : Event) : option JsVal :=
  if String.eqb (type event) "message.part.updated" then
    match properties event with
    | JObj fs =>
        let part := field "part" fs in
        match part with
        | JObj ps =>
            if strictEqStr (field "type" ps) "text"
            then Some (orElse (field "text" ps) (JStr ""))
            else None
        | _ => None
        end
    | _ => None
    end
  else None.

Definition texts (events : list Event) : list JsVal :=
  flat_map (fun e => match textOf e with
                     | Some t => [t]
                     | None => []
                     end) events.

(** Last write wins: the text of the last text event, else [init]. *)
Definition lastText (init : JsVal) (events : list Event) : JsVal :=
  last (texts events) init.

Definition isSessionEnd (event : Event) : bool :=
  String.eqb (type event) "session.idle" || String.eqb (type event) "session.status".

(** The terminal condition for an event that has a properties bag: an
    idle or status event whose [properties.status] is absent, or is an
    object whose [type] is "idle".  [Worded.terminal] also takes in the
    event without a bag. *)
Definition specTerminal (event : Event) : bool :=
  isSessionEnd event &&
  match properties event with
  | JObj fs =>
      match field "status" fs with
      | JUndefined => true
      | JObj ss => strictEqStr (field "type" ss) "idle"
      | _ => false
      end
  | _ => false
  end.

(** The condition under which the loop body breaks. *)
Definition breaks (event : Event) : bool :=
  isSessionEnd event &&
  match getProp (properties event) "status" with
  | Ok status =>
      negb (truthy status) ||
      match getProp status "type" with
      | Ok statusType => strictEqStr statusType "idle"
      | Throw _ => false
      end
  | Throw _ => false
  end.

Definition recognized (event : Event) : bool :=
  String.eqb (type event) "message.part.updated"
  || String.eqb (type event) "message.updated"
  || isSessionEnd event.

(** A recognized event without a properties bag: reading it throws. *)
Definition malformed (event : Event) : bool :=
  recognized event && nullish (properties event).

(** The accepted events that reach the accumulator, in order: the loop
    stops looking once aborted, and after an event that breaks or throws. *)
Fixpoint processed (sessionId : string) (ab lk : bool) (its : list StreamItem)
  : list Event :=
  match its with
  | [] => []
  | ExternalAbort :: rest => processed sessionId (ab || lk) lk rest
  | Deliver event :: rest =>
      if ab then []
      else
        match event with
        | None => processed sessionId ab lk rest
        | Some ev =>
            if accepted sessionId ev then
              if breaks ev || malformed ev then [ev]
              else ev :: processed sessionId ab lk rest
            else processed sessionId ab lk rest
        end
  end.

(** A stream item the loop passes over without leaving. *)
Definition passes (sessionId : string) (it : StreamItem) : bool :=
  match it with
  | Deliver (Some ev) => negb (accepted sessionId ev) || negb (breaks ev || malformed ev)
  | Deliver None => true
  | ExternalAbort => false
  end.

Definition hasSignal (options : CompleteOptions) : bool :=
  match abortSignal options with
  | Some _ => true
  | None => false
  end.

Definition preAborted (options : CompleteOptions) : bool :=
  match abortSignal options with
  | Some b => b
  | None => false
  end.

(** The frame in which the event loop starts: the four setup calls are in
    the trace, the server's close handle is stored, and the controller is
    aborted only if the caller's signal fired during setup. *)
Definition started (options : CompleteOptions) (w : World) (server : Server)
    (sessionId : string) : Frame :=
  {| trace := [ CreateOpencode (match timeout options with
                                | Some t => t
                                | None => default_timeout
                                end) None (opencodeConfig options);
                SessionCreate (workspaceDir options);
                EventSubscribe;
                SessionPrompt sessionId (buildParts options) ];
     linked := hasSignal options;
     aborted := hasSignal options && abortDuringSetup w;
     var_serverClose := Some server;
     var_responseText := JStr "";
     var_toolCalls := [];
     var_usage := {| inputTokens := JNum 0; outputTokens := JNum 0;
                     totalTokens := JNum 0 |};
     var_stopReason := end_turn |}.

(** The result object built from a frame's locals. *)
Definition resultOf (f : Frame) : CompleteResult :=
  {| text := var_responseText f;
     toolCalls := if Nat.ltb 0 (length (var_toolCalls f))
                  then Some (var_toolCalls f) else None;
     stopReason := var_stopReason f;
     usage := var_usage f |}.

(** What the two [catch] clauses and the final [return] make of a loop
    that left the frame [f1] with completion [lr]. *)
Definition settle (w : World) (lr : res unit) (f1 : Frame) : res CompleteResult :=
  let afterPrompt :=
    match promptOutcome w with
    | Some _ =>
        if aborted f1 || (abortDuringPrompt w && linked f1)
        then Ok (resultOf f1)
        else Throw (Error "Prompt failed")
    | None => Ok (resultOf f1)
    end in
  match lr with
  | Ok _ => afterPrompt
  | Throw e => if aborted f1 then afterPrompt else Throw e
  end.

Definition isToolCallEvent (e : StreamEvent) : bool :=
  match e with
  | tool_call_start _ _ | tool_call_delta _ _ | tool_call_end _ _ _ => true
  | _ => false
  end.

Definition isDone (e : StreamEvent) : bool :=
  match e with
  | done _ => true
  | _ => false
  end.

Definition isServerClose (a : Action) : bool :=
  match a with
  | ServerClose => true
  | _ => false
  end.

Definition closes (tr : list Action) : nat :=
  length (filter isServerClose tr).

(** The same world with another [close] behaviour of its server. *)
Definition withClose (w : World) (c : option Exn) : World :=
  {| createOpencode := match createOpencode w with
                       | Ok _ => Ok {| closeThrows := c |}
                       | Throw e => Throw e
                       end;
     sessionCreate := sessionCreate w;
     eventSubscribe := eventSubscribe w;
     abortDuringSetup := abortDuringSetup w;
     promptOutcome := promptOutcome w;
     abortDuringPrompt := abortDuringPrompt w |}.

(** The same world with another event stream. *)
Definition withStream (w : World) (s : EventStream) : World :=
  {| createOpencode := createOpencode w;
     sessionCreate := sessionCreate w;
     eventSubscribe := Ok s;
     abortDuringSetup := abortDuringSetup w;
     promptOutcome := promptOutcome w;
     abortDuringPrompt := abortDuringPrompt w |}.

(** The remote calls of one [complete] call, path by path. *)
Definition expectedTrace (options : CompleteOptions) (w : World) : list Action :=
  if preAborted options then []
  else
    let create := CreateOpencode (match timeout options with
                                  | Some t => t
                                  | None => default_timeout
                                  end) None (opencodeConfig options) in
    match createOpencode w with
    | Throw _ => [create]
    | Ok _ =>
        match sessionCreate w with
        | Ok (Some sessionId) =>
            match eventSubscribe w with
            | Ok _ => [ create; SessionCreate (workspaceDir options); EventSubscribe;
                        SessionPrompt sessionId (buildParts options); ServerClose ]
            | Throw _ => [ create; SessionCreate (workspaceDir options);
                           EventSubscribe; ServerClose ]
            end
        | _ => [ create; SessionCreate (workspaceDir options); ServerClose ]
        end
    end.

(** The contents of the user messages, one entry per user message;
    structured content counts as the empty string, so that it keeps its
    place, and its separator, in the join.  [Worded.userTexts] drops it. *)
Definition userTexts (ms : list Message) : list string :=
  flat_map (fun m => match m with
                     | UserMessage (Plain s) => [s]
                     | UserMessage (Structured _) => [""]
                     | _ => []
                     end) ms.

(** The parts of the request, case by case: the prompt when non-empty,
    else the joined user texts when non-empty; then the system part for
    a non-empty system prompt.  [Worded.parts] has the wording that
    differs. *)
Definition specParts (options : CompleteOptions) : list TextPart :=
  let fromMessages :=
    match messages options with
    | Some ms => Some (String.concat newline (userTexts ms))
    | None => None
    end in
  let body :=
    match prompt options with
    | Some p => if String.eqb p "" then fromMessages else Some p
    | None => fromMessages
    end in
  (match body with
   | Some t => if String.eqb t "" then [] else [ {| part_text := t |} ]
   | None => []
   end)
  ++
  (match systemPrompt options with
   | Some s => if String.eqb s "" then [] else [ {| part_text := "[System]: " ++ s |} ]
   | None => []
   end).

(** The sequence the streaming adapter is specified to yield. *)
Definition specSequence (r : CompleteResult) : list StreamEvent :=
  (if truthy (text r) then [text_ev (text r)] else [])
  ++ concat (map (fun tc => [ tool_call_start (tc_id tc) (tc_name tc);
                              tool_call_delta (tc_id tc) (tc_arguments tc);
                              tool_call_end (tc_id tc) (tc_name tc) (tc_arguments tc) ])
                 (match toolCalls r with
                  | Some tcs => tcs
                  | None => []
                  end))
  ++ [done r].

(** The frame with another close handle stored. *)
Definition setServer (s : option Server) (f : Frame) : Frame :=
  {| trace := trace f; linked := linked f; aborted := aborted f;
     var_serverClose := s;
     var_responseText := var_responseText f;
     var_toolCalls := var_toolCalls f; var_usage := var_usage f;
     var_stopReason := var_stopReason f |}.

End Spec.
Export Spec.

(* ------------------------------------------------------------------ *)
(** ** Sample events and worlds *)

Module Sample.

Definition textEvent (sid body : string) : Event :=
  {| type := "message.part.updated";
     properties := JObj [ ("sessionID", JStr sid);
                          ("part", JObj [("type", JStr "text"); ("text", JStr body)]) ] |}.

Definition idleEvent (sid : string) : Event :=
  {| type := "session.idle"; properties := JObj [("sessionID", JStr sid)] |}.

Definition statusEvent (sid status : string) : Event :=
  {| type := "session.status";
     properties := JObj [ ("sessionID", JStr sid);
                          ("status", JObj [("type", JStr status)]) ] |}.

Definition usageEvent (sid : string) (i o : Z) : Event :=
  {| type := "message.updated";
     properties := JObj [ ("info", JObj [ ("sessionID", JStr sid);
                                          ("role", JStr "assistant");
                                          ("tokens", JObj [("input", JNum i);
                                                           ("output", JNum o)]) ]) ] |}.

Definition options (sig : option bool) : CompleteOptions :=
  {| model := Some "anthropic/claude";
     workspaceDir := "/work";
     messages := None;
     prompt := Some "hello";
     systemPrompt := None;
     timeout := None;
     providerConfig := None;
     abortSignal := sig |}.

Definition world (its : list StreamItem) (fail promptErr : option Exn) : World :=
  {| createOpencode := Ok {| closeThrows := None |};
     sessionCreate := Ok (Some "ses_1");
     eventSubscribe := Ok {| items := its; failure := fail |};
     abortDuringSetup := false;
     promptOutcome := promptErr;
     abortDuringPrompt := false |}.

(** Three growing text parts, then the idle signal, then a late part. *)
Definition abcItems : list StreamItem :=
  [ Deliver (Some (textEvent "ses_1" "a"));
    Deliver (Some (textEvent "ses_1" "ab"));
    Deliver (Some (textEvent "ses_1" "abc"));
    Deliver (Some (idleEvent "ses_1"));
    Deliver (Some (textEvent "ses_1" "late")) ].

(** A text part, then the caller aborts, then more would follow. *)
Definition abortedItems : list StreamItem :=
  [ Deliver (Some (textEvent "ses_1" "a"));
    ExternalAbort;
    Deliver (Some (textEvent "ses_1" "ab"));
    Deliver (Some (idleEvent "ses_1")) ].

Definition manager : SessionManager.t :=
  {| SessionManager.client := true;
     SessionManager.serverClose := Some {| closeThrows := Some (Error "close failed") |};
     SessionManager.sessionId := Some "ses_1";
     SessionManager.config :=
       {| SessionManager.cfg_workspaceDir := "/work";
          SessionManager.cfg_model := None;
          SessionManager.cfg_providerConfig := None;
          SessionManager.cfg_timeout := None;
          SessionManager.cfg_portStart := None |} |}.

End Sample.

(* ------------------------------------------------------------------ *)
(** ** JavaScript strings and maps used by the remaining modules *)

Module JsString.

(** [s.split(sep)] for a one-character separator: never empty. *)
Fixpoint split (sep : ascii) (s : string) : list string :=
  match s with
  | EmptyString => [""]
  | String c rest =>
      if Ascii.eqb c sep then "" :: split sep rest
      else
        match split sep rest with
        | [] => [String c ""]
        | h :: t => String c h :: t
        end
  end.

(** How often [c] occurs in [s]. *)
Fixpoint occurrences (c : ascii) (s : string) : nat :=
  match s with
  | EmptyString => 0
  | String d rest => (if Ascii.eqb d c then 1 else 0) + occurrences c rest
  end.

Definition slash : ascii := ascii_of_nat 47.

End JsString.

(** A [Map<string, V>]: entries in insertion order.  [set] on a key that
    is present replaces the value where it stands; a new key goes last. *)
Module JsMap.

Section WithValue.

Variable V : Type.

Definition t : Type := list (string * V).

Definition empty : t := [].

Fixpoint get (k : string) (m : t) : option V :=
  match m with
  | [] => None
  | (k', v) :: rest => if String.eqb k k' then Some v else get k rest
  end.

Fixpoint set (k : string) (v : V) (m : t) : t :=
  match m with
  | [] => [(k, v)]
  | (k', v') :: rest =>
      if String.eqb k k' then (k, v) :: rest
      else (k', v') :: set k v rest
  end.

Fixpoint delete (k : string) (m : t) : t :=
  match m with
  | [] => []
  | (k', v') :: rest =>
      if String.eqb k k' then rest
      else (k', v') :: delete k rest
  end.

Definition keys (m : t) : list string := map fst m.

Definition values (m : t) : list V := map snd m.

End WithValue.

Arguments empty {V}.
Arguments get {V} k m.
Arguments set {V} k v m.
Arguments delete {V} k m.
Arguments keys {V} m.
Arguments values {V} m.

End JsMap.

(* ------------------------------------------------------------------ *)
(** ** [src/models.ts] *)

Module Models.

Inductive KnownProvider : Type :=
| anthropic | openai | google | openrouter | custom.

Inductive Api : Type :=
| api_anthropic | api_openai | api_openai_responses | api_google | api_custom.

(** The string a provider is at run time. *)
Definition providerName (p : KnownProvider) : string :=
  match p with
  | anthropic => "anthropic"
  | openai => "openai"
  | google => "google"
  | openrouter => "openrouter"
  | custom => "custom"
  end.

(** [Model] of [src/types.ts], without the optional [cost] (fractional
    prices), which nothing in the repository reads. *)
Record Model : Type := {
  id : string;
  name : string;
  provider : KnownProvider;
  api : Api;
  contextWindow : Z;
  maxTokens : Z;
  supportsVision : option bool;
  supportsToolUse : option bool;
  supportsStreaming : option bool
}.

Definition DEFAULT_MODELS : list Model :=
  [ {| id := "claude-3-5-sonnet-20241022"; name := "Claude 3.5 Sonnet";
       provider := anthropic; api := api_anthropic;
       contextWindow := 200000; maxTokens := 8192;
       supportsVision := Some true; supportsToolUse := Some true;
       supportsStreaming := Some true |};
    {| id := "claude-3-opus-20240229"; name := "Claude 3 Opus";
       provider := anthropic; api := api_anthropic;
       contextWindow := 200000; maxTokens := 4096;
       supportsVision := Some true; supportsToolUse := Some true;
       supportsStreaming := Some true |};
    {| id := "gpt-4-turbo"; name := "GPT-4 Turbo";
       provider := openai; api := api_openai;
       contextWindow := 128000; maxTokens := 4096;
       supportsVision := Some true; supportsToolUse := Some true;
       supportsStreaming := Some true |};
    {| id := "gpt-4o"; name := "GPT-4o";
       provider := openai; api := api_openai_responses;
       contextWindow := 128000; maxTokens := 16384;
       supportsVision := Some true; supportsToolUse := Some true;
       supportsStreaming := Some true |};
    {| id := "gemini-1.5-pro"; name := "Gemini 1.5 Pro";
       provider := google; api := api_google;
       contextWindow := 2000000; maxTokens := 8192;
       supportsVision := Some true; supportsToolUse := Some true;
       supportsStreaming := Some true |} ].

(** The registry is the [Map] its closures share. *)
Definition ModelRegistry : Type := JsMap.t Model.

(** [for (const model of ms) models.set(model.id, model)] *)
Definition setAll (ms : list Model) (models : ModelRegistry) : ModelRegistry :=
  fold_left (fun acc m => JsMap.set (id m) m acc) ms models.

Definition createModelRegistry (initialModels : option (list Model)) : ModelRegistry :=
  let models := setAll DEFAULT_MODELS JsMap.empty in
  match initialModels with
  | Some ms => setAll ms models
  | None => models
  end.

Definition get (i : string) (models : ModelRegistry) : option Model :=
  JsMap.get i models.

Definition getByPath (path : string) (models : ModelRegistry) : option Model :=
  match JsString.split JsString.slash path with
  | [prov; modelId] =>
      let scan :=
        match find (fun m => String.eqb (providerName (provider m)) prov
                             && String.eqb (id m) modelId)
                   (JsMap.values models) with
        | Some m => Some m
        | None => JsMap.get path models
        end in
      match JsMap.get modelId models with
      | Some m =>
          if String.eqb (providerName (provider m)) prov then Some m else scan
      | None => scan
      end
  | _ => JsMap.get path models
  end.

Definition list (models : ModelRegistry) : Datatypes.list Model :=
  JsMap.values models.

Definition provider_eqb (p q : KnownProvider) : bool :=
  String.eqb (providerName p) (providerName q).

Definition listByProvider (p : KnownProvider) (models : ModelRegistry)
  : Datatypes.list Model :=
  filter (fun m => provider_eqb (provider m) p) (JsMap.values models).

Definition add (m : Model) (models : ModelRegistry) : ModelRegistry :=
  JsMap.set (id m) m models.

Definition discoverModels : Datatypes.list Model := DEFAULT_MODELS.

Definition getDefaultModel (p : KnownProvider) : option Model :=
  find (fun m => provider_eqb (provider m) p) DEFAULT_MODELS.

Definition parseModelPath (path : string) : option (string * string) :=
  match JsString.split JsString.slash path with
  | [prov; modelId] => Some (prov, modelId)
  | _ => None
  end.

Definition formatModelPath (prov modelId : string) : string :=
  prov ++ "/" ++ modelId.

(** The registries a program can hold: one just created, or one reached
    from such by [add]. *)
Inductive reachable : ModelRegistry -> Prop :=
| reach_create (initialModels : option (Datatypes.list Model)) :
    reachable (createModelRegistry initialModels)
| reach_add (m : Model) (models : ModelRegistry) :
    reachable models -> reachable (add m models).

(** The last model of [ms] whose id is [i]. *)
Definition lastWithId (i : string) (ms : Datatypes.list Model) : option Model :=
  find (fun m => String.eqb (id m) i) (rev ms).

End Models.

(* ------------------------------------------------------------------ *)
(** ** [src/auth.ts] *)

Module Auth.

(** The store of [createMemoryAuthStorage]. *)
Definition Store : Type := JsMap.t string.

Definition createMemoryAuthStorage : Store := JsMap.empty.

Definition get (key : string) (store : Store) : option string :=
  JsMap.get key store.

Definition set (key value : string) (store : Store) : Store :=
  JsMap.set key value store.

Definition delete (key : string) (store : Store) : Store :=
  JsMap.delete key store.

Definition list (store : Store) : Datatypes.list string := JsMap.keys store.

(** The stores a program can hold: the fresh one, or one reached from it
    by [set] and [delete]. *)
Inductive reachable : Store -> Prop :=
| reach_fresh : reachable createMemoryAuthStorage
| reach_set (key value : string) (store : Store) :
    reachable store -> reachable (set key value store)
| reach_delete (key : string) (store : Store) :
    reachable store -> reachable (delete key store).

Section GetApiKey.

(** [String.prototype.toUpperCase], left open. *)
Variable toUpperCase : string -> string.

(** [storage.get] of whatever storage is passed: it may reject. *)
Variable storageGet : string -> res (option string).

Definition patterns (provider : string) : Datatypes.list string :=
  [ (provider ++ "_api_key")%string;
    (toUpperCase provider ++ "_API_KEY")%string;
    (provider ++ "-api-key")%string;
    provider ].

(** [for (const pattern of patterns) { const value = await storage.get(pattern); if (value) return value; }] *)
Fixpoint firstValue (ps : Datatypes.list string) : res (option string) :=
  match ps with
  | [] => Ok None
  | pattern :: rest =>
      let* value := storageGet pattern in
      match value with
      | Some v => if nonEmpty v then Ok (Some v) else firstValue rest
      | None => firstValue rest
      end
  end.

Definition getApiKey (provider : string) : res (option string) :=
  firstValue (patterns provider).

End GetApiKey.

End Auth.

(* ------------------------------------------------------------------ *)
(** ** [src/skills.ts]: formatting *)

Module Skills.

Record Skill : Type := {
  name : string;
  description : string;
  content : string;
  path : string
}.

(** The template of one skill. *)
Definition formatSkill (skill : Skill) : string :=
  "### " ++ name skill ++ newline
  ++ (if nonEmpty (description skill)
      then "*" ++ description skill ++ "*" ++ newline ++ newline
      else "")
  ++ content skill.

Definition separator : string := newline ++ newline ++ "---" ++ newline ++ newline.

Definition header : string := "## Available Skills" ++ newline ++ newline.

Definition formatSkillsForPrompt (skills : list Skill) : string :=
  match skills with
  | [] => ""
  | _ => header ++ String.concat separator (map formatSkill skills)
  end.

End Skills.

(* ------------------------------------------------------------------ *)
(** ** The rest of [src/complete.ts] and [src/session.ts] *)

Module More.



Definition createSessionManager (cfg : SessionManager.SessionConfig)
  : SessionManager.t :=
  SessionManager.new cfg.

Definition getSessionId (this : SessionManager.t) : option string :=
  SessionManager.sessionId this.

(** [getClient()]: whether a client is held. *)
Definition getClient (this : SessionManager.t) : bool :=
  SessionManager.client this.

(** The usage a "message.updated" event of an assistant message with
    token counts carries. *)
Definition usageOf (event : Event) : option Usage :=
  if String.eqb (type event) "message.updated" then
    match properties event with
    | JObj fs =>
        match field "info" fs with
        | JObj gs =>
            if strictEqStr (field "role" gs) "assistant"
               && truthy (field "tokens" gs)
            then
              match getProp (field "tokens" gs) "input",
                    getProp (field "tokens" gs) "output" with
              | Ok input, Ok output =>
                  Some {| inputTokens := orElse input (JNum 0);
                          outputTokens := orElse output (JNum 0);
                          totalTokens := jsAdd (orElse input (JNum 0))
                                               (orElse output (JNum 0)) |}
              | _, _ => None
              end
            else None
        | _ => None
        end
    | _ => None
    end
  else None.

Definition usages (events : list Event) : list Usage :=
  flat_map (fun e => match usageOf e with
                     | Some u => [u]
                     | None => []
                     end) events.

Definition lastUsage (init : Usage) (events : list Event) : Usage :=
  last (usages events) init.

(** The items of a stream that concern the session: events the filter
    accepts, and the moments the caller aborts. *)
Definition concerns (sessionId : string) (it : StreamItem) : bool :=
  match it with
  | Deliver (Some ev) => accepted sessionId ev
  | Deliver None => false
  | ExternalAbort => true
  end.

(** The error setup ends with, if it fails. *)
Definition setupError (w : World) : option Exn :=
  match createOpencode w with
  | Throw e => Some e
  | Ok _ =>
      match sessionCreate w with
      | Throw e => Some e
      | Ok None => Some (Error "Failed to create session")
      | Ok (Some _) =>
          match eventSubscribe w with
          | Throw e => Some e
          | Ok _ => None
          end
      end
  end.

Definition isSessionPrompt (a : Action) : bool :=
  match a with
  | SessionPrompt _ _ => true
  | _ => false
  end.

Definition isEventSubscribe (a : Action) : bool :=
  match a with
  | EventSubscribe => true
  | _ => false
  end.


(** A use of the session manager: an [init] with the outcomes the
    runtime gives it, or a [close]. *)
Inductive Op : Type :=
| OpInit (create : res Server) (session : res (option string))
| OpClose.

(** Whether an [init] on [this] with [create] acquires a server. *)
Definition acquires (this : SessionManager.t) (op : Op) : nat :=
  match op with
  | OpInit (Ok _) _ => if SessionManager.client this then 0 else 1
  | _ => 0
  end.

Definition step (this : SessionManager.t) (op : Op)
  : SessionManager.t * list Action :=
  match op with
  | OpInit create session =>
      let '(_, this', calls) := SessionManager.init this create session in
      (this', calls)
  | OpClose =>
      let '(_, this', calls) := SessionManager.close this in
      (this', calls)
  end.

(** A sequence of uses: the manager it leaves, the remote calls made and
    the number of servers acquired. *)
Fixpoint runOps (this : SessionManager.t) (ops : list Op)
  : SessionManager.t * list Action * nat :=
  match ops with
  | [] => (this, [], 0)
  | op :: rest =>
      let '(this1, calls1) := step this op in
      let '(this2, calls2, n) := runOps this1 rest in
      (this2, calls1 ++ calls2, acquires this op + n)
  end.

Definition holdsServer (this : SessionManager.t) : nat :=
  match SessionManager.serverClose this with
  | Some _ => 1
  | None => 0
  end.

End More.

(* ------------------------------------------------------------------ *)
(** ** More sample data *)

Module Cases.

(** Two usage reports of the session around one of another session. *)
Definition usageItems : list StreamItem :=
  [ Deliver (Some (Sample.usageEvent "ses_1" 3 4));
    Deliver (Some (Sample.usageEvent "other" 100 100));
    Deliver (Some (Sample.usageEvent "ses_1" 10 5));
    Deliver (Some (Sample.idleEvent "ses_1")) ].


(** A world in which the runtime comes up but gives no session data. *)
Definition noSessionWorld : World :=
  {| createOpencode := Ok {| closeThrows := Some (Error "close failed") |};
     sessionCreate := Ok None;
     eventSubscribe := Ok {| items := Sample.abcItems; failure := None |};
     abortDuringSetup := false;
     promptOutcome := None;
     abortDuringPrompt := false |}.

(** A model of one's own under a default model's id. *)
Definition routedModel : Models.Model :=
  {| Models.id := "gpt-4o"; Models.name := "GPT-4o (routed)";
     Models.provider := Models.openrouter; Models.api := Models.api_openai;
     Models.contextWindow := 128000; Models.maxTokens := 4096;
     Models.supportsVision := None; Models.supportsToolUse := Some true;
     Models.supportsStreaming := Some true |}.

Definition commitSkill : Skills.Skill :=
  {| Skills.name := "commit"; Skills.description := "Write a commit message";
     Skills.content := "Use the imperative mood."; Skills.path := "/skills/commit.md" |}.

Definition reviewSkill : Skills.Skill :=
  {| Skills.name := "review"; Skills.description := "";
     Skills.content := "Read the diff first."; Skills.path := "/skills/review.md" |}.

(** A world in which the caller aborts while setup is under way, and
    everything else goes wrong afterwards. *)
Definition abortedSetupWorld : World :=
  {| createOpencode := Ok {| closeThrows := None |};
     sessionCreate := Ok (Some "ses_1");
     eventSubscribe := Ok {| items := Sample.abcItems;
                             failure := Some (Foreign "SocketError" "closed") |};
     abortDuringSetup := true;
     promptOutcome := Some (Error "boom");
     abortDuringPrompt := false |}.

End Cases.

(* ------------------------------------------------------------------ *)
(** ** Calls that may stay pending *)

(** The worlds above give every awaited call an outcome.  After setup,
    two awaits of [complete] may also never settle: the next item of a
    stream that stays open and silent, and the prompt promise.  This
    module runs the same code with both possibilities; the setup calls
    settle as before. *)
Module Live.

(** An awaited computation settles with a completion or stays pending. *)
Inductive Settled (A : Type) : Type :=
| Settles (r : res A)
| Pending.
Arguments Settles {A} r.
Arguments Pending {A}.

Definition L (A : Type) : Type := Frame -> Settled A * Frame.

(** A computation that always settles. *)
Definition liftM {A} (m : M A) : L A :=
  fun f => let (r, f') := m f in (Settles r, f').

(** An await that never settles. *)
Definition pending {A} : L A := fun f => (Pending, f).

(** Nothing after a pending await runs. *)
Definition bindL {A B} (m : L A) (k : A -> L B) : L B :=
  fun f =>
    match m f with
    | (Settles (Ok a), f') => k a f'
    | (Settles (Throw e), f') => (Settles (Throw e), f')
    | (Pending, f') => (Pending, f')
    end.

Definition tryCatchL {A} (m : L A) (h : Exn -> L A) : L A :=
  fun f =>
    match m f with
    | (Settles (Ok a), f') => (Settles (Ok a), f')
    | (Settles (Throw e), f') => h e f'
    | (Pending, f') => (Pending, f')
    end.

(** [finally] runs when its [try] block is left, which a pending block
    never is. *)
Definition tryFinallyL {A} (m : L A) (fin : L unit) : L A :=
  fun f =>
    match m f with
    | (Pending, f') => (Pending, f')
    | (Settles r, f') =>
        match fin f' with
        | (Settles (Ok _), f'') => (Settles r, f'')
        | (Settles (Throw e), f'') => (Settles (Throw e), f'')
        | (Pending, f'') => (Pending, f'')
        end
    end.

(** Whether the stream, once its items are delivered, stays open and
    silent instead of ending as its [failure] says; and whether the
    prompt promise never settles.  A stream that goes silent midway is
    the stream of the items delivered until then, stalling. *)
Record Liveness : Type := {
  streamStalls : bool;
  promptStalls : bool
}.

(** [for await (const event of eventStream) { ... }], as [forAwait], on
    a stream that may stay open. *)
Fixpoint forAwaitL (sessionId : string) (its : list StreamItem)
    (fail : option Exn) (stalls : bool) : L unit :=
  match its with
  | [] =>
      if stalls then pending
      else
        match fail with
        | Some e => liftM (throw e)
        | None => liftM (ret tt)
        end
  | ExternalAbort :: rest =>
      bindL (liftM externalAbort) (fun _ => forAwaitL sessionId rest fail stalls)
  | Deliver event :: rest =>
      bindL (liftM get) (fun f =>
        if aborted f then liftM (ret tt)
        else
          match event with
          | None => forAwaitL sessionId rest fail stalls
          | Some ev =>
              bindL (liftM (loopBody sessionId ev)) (fun c =>
                match c with
                | Break => liftM (ret tt)
                | Next => forAwaitL sessionId rest fail stalls
                end)
          end)
  end.

(** [await promptPromise] *)
Definition awaitPromptL (w : World) (stalls : bool) : L unit :=
  bindL (liftM (if abortDuringPrompt w then externalAbort else ret tt)) (fun _ =>
    if stalls then pending
    else
      match promptOutcome w with
      | Some e => liftM (throw e)
      | None => liftM (ret tt)
      end).

(** The [try] block of [complete], as [tryBlock]. *)
Definition tryBlockL (options : CompleteOptions) (w : World) (lv : Liveness)
  : L CompleteResult :=
  bindL (liftM (emit (CreateOpencode (match timeout options with
                                      | Some t => t
                                      | None => default_timeout
                                      end)
                                     None
                                     (opencodeConfig options)))) (fun _ =>
  bindL (liftM (lift (createOpencode w))) (fun opencode =>
  bindL (liftM (setServerClose opencode)) (fun _ =>
  bindL (liftM (emit (SessionCreate (workspaceDir options)))) (fun _ =>
  bindL (liftM (lift (sessionCreate w))) (fun session =>
    match session with
    | None => liftM (throw (Error "Failed to create session"))
    | Some sessionId =>
        let parts := buildParts options in
        bindL (liftM (emit EventSubscribe)) (fun _ =>
        bindL (liftM (lift (eventSubscribe w))) (fun eventStream =>
        bindL (liftM (emit (SessionPrompt sessionId parts))) (fun _ =>
        bindL (liftM (if abortDuringSetup w then externalAbort else ret tt)) (fun _ =>
        bindL (tryCatchL (forAwaitL sessionId (items eventStream)
                                    (failure eventStream) (streamStalls lv))
                         (fun err => liftM (rethrowUnlessAborted err))) (fun _ =>
        bindL (tryCatchL (awaitPromptL w (promptStalls lv))
                         (fun err => liftM (promptFailedUnlessAborted err))) (fun _ =>
        liftM result))))))
    end))))).

(** [complete] on a stream and a prompt that may stay pending. *)
Definition completeL (options : CompleteOptions) (w : World) (lv : Liveness)
  : L CompleteResult :=
  bindL (liftM (linkSignal options)) (fun _ =>
    tryFinallyL (tryBlockL options w lv) (liftM finallyBlock)).

(** Whether the loop takes every item of the stream and asks for one
    more: it is not left by an abort check, a break or a throw. *)
Fixpoint exhausts (sessionId : string) (its : list StreamItem) (f : Frame) : bool :=
  match its with
  | [] => true
  | ExternalAbort :: rest => exhausts sessionId rest (snd (externalAbort f))
  | Deliver event :: rest =>
      if aborted f then false
      else
        match event with
        | None => exhausts sessionId rest f
        | Some ev =>
            match loopBody sessionId ev f with
            | (Ok Next, f') => exhausts sessionId rest f'
            | _ => false
            end
        end
  end.

Definition isDeliver (it : StreamItem) : bool :=
  match it with
  | Deliver _ => true
  | ExternalAbort => false
  end.

(** Everything settles: the worlds of [complete]. *)
Definition settling : Liveness := {| streamStalls := false; promptStalls := false |}.

(** The stream stays open after its last item; the prompt settles. *)
Definition openStream : Liveness := {| streamStalls := true; promptStalls := false |}.

(** The prompt calls of a call: one, with the parts built, once setup
    has succeeded, and none otherwise. *)
Definition promptCalls (options : CompleteOptions) (w : World) : list Action :=
  if preAborted options then []
  else
    match createOpencode w, sessionCreate w, eventSubscribe w with
    | Ok _, Ok (Some sessionId), Ok _ => [SessionPrompt sessionId (specParts options)]
    | _, _, _ => []
    end.

End Live.

(* ------------------------------------------------------------------ *)
(** ** Two claims as they are worded *)

(** Where the code departs from the wording of a claim, the wording is
    written down here, to be compared with the code. *)
Module Worded.

(** [properties.status], absent also when there is no properties bag. *)
Definition statusOf (event : Event) : JsVal :=
  match properties event with
  | JObj fs => field "status" fs
  | _ => JUndefined
  end.

(** The terminal condition: an idle or status event whose status is
    absent, or is an object of type "idle". *)
Definition terminal (event : Event) : bool :=
  isSessionEnd event &&
  match statusOf event with
  | JUndefined => true
  | JObj ss => strictEqStr (field "type" ss) "idle"
  | _ => false
  end.

(** The contents of the user messages when content that is not a plain
    string contributes nothing. *)
Definition userTexts (ms : list Message) : list string :=
  flat_map (fun m => match m with
                     | UserMessage (Plain s) => [s]
                     | _ => []
                     end) ms.

(** The parts: the prompt when non-empty, else the joined user texts
    when non-empty; then the system part whenever a system prompt is
    provided. *)
Definition parts (options : CompleteOptions) : list TextPart :=
  let fromMessages :=
    match messages options with
    | Some ms => Some (String.concat newline (userTexts ms))
    | None => None
    end in
  let body :=
    match prompt options with
    | Some p => if String.eqb p "" then fromMessages else Some p
    | None => fromMessages
    end in
  (match body with
   | Some t => if String.eqb t "" then [] else [ {| part_text := t |} ]
   | None => []
   end)
  ++
  (match systemPrompt options with
   | Some s => [ {| part_text := "[System]: " ++ s |} ]
   | None => []
   end).

End Worded.

(* ------------------------------------------------------------------ *)
(** ** Inputs at the edges *)

Module Edge.

(** An idle event that carries nothing but its type. *)
Definition bareIdle : Event := {| type := "session.idle"; properties := JUndefined |}.

Definition fromMessages (ms : list Message) : CompleteOptions :=
  {| model := None; workspaceDir := "/work"; messages := Some ms;
     prompt := None; systemPrompt := None; timeout := None;
     providerConfig := None; abortSignal := None |}.

(** User messages "a", structured content, "b". *)
Definition mixedMessages : CompleteOptions :=
  fromMessages [ UserMessage (Plain "a");
                 UserMessage (Structured [TextContent "x"]);
                 UserMessage (Plain "b") ].

(** Two user messages, both with structured content. *)
Definition structuredOnly : CompleteOptions :=
  fromMessages [ UserMessage (Structured [TextContent "x"]);
                 UserMessage (Structured [TextContent "y"]) ].

(** A prompt with a system prompt that is provided but empty. *)
Definition emptySystemPrompt : CompleteOptions :=
  {| model := None; workspaceDir := "/work"; messages := None;
     prompt := Some "hello"; systemPrompt := Some ""; timeout := None;
     providerConfig := None; abortSignal := None |}.

(** A text part of the session and then the caller's abort: nothing is
    delivered afterwards. *)
Definition silentAfterAbort : list StreamItem :=
  [ Deliver (Some (Sample.textEvent "ses_1" "a"));
    ExternalAbort ].

(** The same, followed by an event of another session. *)
Definition foreignAfterAbort : list StreamItem :=
  silentAfterAbort ++ [ Deliver (Some (Sample.textEvent "other" "zz")) ].

(** [Number.MAX_SAFE_INTEGER], 2^53 - 1. *)
Definition MAX_SAFE_INTEGER : Z := 9007199254740991.

(** [Number.isSafeInteger]: the integers a JavaScript number holds
    exactly. *)
Definition isSafeInteger (n : Z) : bool :=
  Z.leb (- MAX_SAFE_INTEGER) n && Z.leb n MAX_SAFE_INTEGER.

End Edge.

(* ------------------------------------------------------------------ *)
(** ** Property reads *)

Ltac break_match :=
  match goal with
  | |- context [match ?x with _ => _ end] => destruct x eqn:?
  end.

Ltac break_hyp :=
  match goal with
  | H : context [match ?x with _ => _ end] |- _ => destruct x eqn:?
  end.

Lemma getProp_truthy (v : JsVal) (k : string) :
  truthy v = true -> exists x, getProp v k = Ok x.
Proof.
  destruct v; simpl; intros H; try discriminate; eauto.
Qed.




(* ------------------------------------------------------------------ *)
(** ** The event filter *)

(** The extraction follows the order of the specification: the string at
    [properties.sessionID], else the string at [properties.info.sessionID],
    else nothing. *)
Lemma extractSessionId_order (event : Event) :
  extractSessionId event = Ok (specSessionId event).
Proof.
  unfold extractSessionId, specSessionId, topLevelSessionID, nestedSessionID.
  destruct (properties event) as [ | | b | n | | s | l | fs ]; simpl;
    try reflexivity.
  - destruct b; reflexivity.
  - destruct (Z.eqb n 0); reflexivity.
  - destruct (String.eqb s ""); reflexivity.
  - destruct (field "sessionID" fs); simpl; try reflexivity;
      destruct (field "info" fs) as [ | | b' | n' | | s' | l' | gs ]; simpl;
      try reflexivity;
      try (destruct b'; reflexivity);
      try (destruct (Z.eqb n' 0); reflexivity);
      try (destruct (String.eqb s' ""); reflexivity);
      destruct (field "sessionID" gs); reflexivity.
Qed.

(** [extractSessionId] is total: no event makes it throw. *)
Lemma extractSessionId_total (event : Event) :
  exists o, extractSessionId event = Ok o.
Proof.
  exists (specSessionId event). apply extractSessionId_order.
Qed.

Lemma accepted_spec (sessionId : string) (event : Event) :
  accepted sessionId event = negb (excluded (specSessionId event) sessionId).
Proof.
  unfold accepted. rewrite extractSessionId_order. reflexivity.
Qed.

Lemma excluded_false_iff (o : option string) (sessionId : string) :
  excluded o sessionId = false <-> o = None \/ o = Some "" \/ o = Some sessionId.
Proof.
  unfold excluded. destruct o as [s|].
  - destruct (String.eqb_spec s "") as [E1|N1];
      destruct (String.eqb_spec s sessionId) as [E2|N2]; simpl; split; intros H;
      subst; auto; try discriminate.
    destruct H as [H | [H | H]]; try discriminate; inversion H; congruence.
  - split; auto.
Qed.

(* ------------------------------------------------------------------ *)
(** ** The loop body *)

Ltac unfold_m :=
  unfold bindM, lift, ret, throw, get, emit, setLinked, externalAbort,
    setServerClose, setResponseText, setUsage, tryCatch, tryFinally in *.

(** The body only ever writes [responseText] and [usage]. *)
Lemma loopBody_frame (sessionId : string) (ev : Event) (f : Frame) :
  let f' := snd (loopBody sessionId ev f) in
  trace f' = trace f /\ linked f' = linked f /\ aborted f' = aborted f /\
  var_serverClose f' = var_serverClose f /\
  var_toolCalls f' = var_toolCalls f /\
  var_stopReason f' = var_stopReason f.
Proof.
  unfold loopBody. unfold_m.
  repeat break_match; simpl; auto 10.
Qed.

(** An event the filter rejects leaves the frame as it was. *)
Lemma loopBody_rejected (sessionId : string) (ev : Event) (f : Frame) :
  accepted sessionId ev = false ->
  loopBody sessionId ev f = (Ok Next, f).
Proof.
  unfold accepted, loopBody. unfold_m.
  rewrite extractSessionId_order.
  intros H. apply negb_false_iff in H. rewrite H. reflexivity.
Qed.

(** An event of a type the loop does not know is ignored. *)
Lemma loopBody_unrecognized (sessionId : string) (ev : Event) (f : Frame) :
  recognized ev = false ->
  loopBody sessionId ev f = (Ok Next, f).
Proof.
  unfold recognized, isSessionEnd, loopBody. unfold_m.
  intros H.
  apply orb_false_iff in H. destruct H as [H H3].
  apply orb_false_iff in H. destruct H as [H1 H2].
  rewrite H1, H2, H3, extractSessionId_order.
  destruct (excluded (specSessionId ev) sessionId); reflexivity.
Qed.

(** What the body does with an accepted event: a recognized event with no
    properties bag makes it throw, a terminal one makes it break, and any
    other one is absorbed, the text being overwritten by a text part. *)
Lemma loopBody_accepted (sessionId : string) (ev : Event) (f : Frame) :
  accepted sessionId ev = true ->
  (malformed ev = true /\ exists e, loopBody sessionId ev f = (Throw e, f))
  \/ (malformed ev = false /\ breaks ev = true /\
      loopBody sessionId ev f = (Ok Break, f))
  \/ (malformed ev = false /\ breaks ev = false /\
      exists f', loopBody sessionId ev f = (Ok Next, f') /\
                 var_responseText f' = match textOf ev with
                                       | Some t => t
                                       | None => var_responseText f
                                       end).
Proof.
  destruct ev as [ty props].
  unfold accepted. rewrite extractSessionId_order.
  intros H. apply negb_true_iff in H.
  unfold loopBody. unfold_m. rewrite extractSessionId_order, H.
  unfold malformed, recognized, breaks, isSessionEnd, textOf. simpl.
  destruct (String.eqb_spec ty "message.part.updated") as [E1|N1].
  { subst ty. simpl.
    destruct props as [ | | b | n | | s | l | fs ]; simpl;
      try (left; split; [reflexivity | eexists; reflexivity]);
      try (right; right; repeat split; eexists; split; reflexivity).
    right; right. split; [reflexivity|]. split; [reflexivity|].
    unfold optProp.
    destruct (field "part" fs) as [ | | b | n | | s | l | ps ]; simpl;
      try (eexists; split; reflexivity).
    destruct (strictEqStr (field "type" ps) "text"); simpl;
      eexists; split; reflexivity. }
  destruct (String.eqb_spec ty "message.updated") as [E2|N2].
  { subst ty. simpl.
    destruct props as [ | | b | n | | s | l | fs ]; simpl;
      try (left; split; [reflexivity | eexists; reflexivity]);
      try (right; right; repeat split; eexists; split; reflexivity).
    right; right. split; [reflexivity|]. split; [reflexivity|].
    unfold optProp.
    destruct (field "info" fs) as [ | | b | n | | s | l | gs ]; simpl;
      try (eexists; split; reflexivity).
    destruct (strictEqStr (field "role" gs) "assistant"); simpl;
      [|eexists; split; reflexivity].
    destruct (truthy (field "tokens" gs)) eqn:T; [|eexists; split; reflexivity].
    destruct (getProp_truthy (field "tokens" gs) "input" T) as [x Hx].
    destruct (getProp_truthy (field "tokens" gs) "output" T) as [y Hy].
    rewrite Hx, Hy. simpl. eexists; split; reflexivity. }
  destruct (String.eqb ty "session.idle" || String.eqb ty "session.status") eqn:E3.
  { simpl.
    destruct props as [ | | b | n | | s | l | fs ]; simpl;
      try (left; split; [reflexivity | eexists; reflexivity]).
    all: try (right; left; repeat split; reflexivity).
    destruct (truthy (field "status" fs)) eqn:T; simpl.
    - destruct (getProp_truthy (field "status" fs) "type" T) as [x Hx].
      rewrite Hx.
      destruct (strictEqStr x "idle"); simpl.
      + right; left. repeat split; reflexivity.
      + right; right. repeat split. eexists; split; reflexivity.
    - right; left. repeat split; reflexivity. }
  simpl. right; right. repeat split. eexists; split; reflexivity.
Qed.

Lemma malformed_not_breaks (ev : Event) :
  malformed ev = true -> breaks ev = false.
Proof.
  unfold malformed, breaks. intros H.
  apply andb_true_iff in H. destruct H as [_ H].
  destruct (properties ev); simpl in *; try discriminate;
    apply andb_false_r.
Qed.

Lemma specTerminal_breaks (ev : Event) :
  specTerminal ev = true -> breaks ev = true.
Proof.
  unfold specTerminal, breaks. intros H.
  apply andb_true_iff in H. destruct H as [H1 H2]. rewrite H1. simpl.
  destruct (properties ev) as [ | | b | n | | s | l | fs ]; try discriminate.
  simpl. destruct (field "status" fs) as [ | | b | n | | s | l | ss ];
    try discriminate; simpl; auto.
Qed.

Lemma loopBody_breaks (sessionId : string) (ev : Event) (f : Frame) :
  accepted sessionId ev = true -> breaks ev = true ->
  loopBody sessionId ev f = (Ok Break, f).
Proof.
  intros Ha Hb.
  destruct (loopBody_accepted sessionId ev f Ha)
    as [[Hm _] | [[_ [_ H]] | [_ [Hn _]]]].
  - apply malformed_not_breaks in Hm. congruence.
  - exact H.
  - congruence.
Qed.

(* ------------------------------------------------------------------ *)
(** ** The [for await] loop *)

(** One unfolding of the loop on a delivered event. *)
Lemma forAwait_deliver (sessionId : string) (ev : Event) (rest : list StreamItem)
    (fail : option Exn) (f : Frame) :
  forAwait sessionId (Deliver (Some ev) :: rest) fail f =
  if aborted f then (Ok tt, f)
  else match loopBody sessionId ev f with
       | (Ok Next, f') => forAwait sessionId rest fail f'
       | (Ok Break, f') => (Ok tt, f')
       | (Throw e, f') => (Throw e, f')
       end.
Proof.
  simpl. unfold_m. destruct (aborted f); [reflexivity|].
  destruct (loopBody sessionId ev f) as [[[|]|e] f']; reflexivity.
Qed.

Lemma forAwait_null (sessionId : string) (rest : list StreamItem)
    (fail : option Exn) (f : Frame) :
  forAwait sessionId (Deliver None :: rest) fail f =
  if aborted f then (Ok tt, f) else forAwait sessionId rest fail f.
Proof.
  simpl. unfold_m. destruct (aborted f); reflexivity.
Qed.

Lemma forAwait_abort (sessionId : string) (rest : list StreamItem)
    (fail : option Exn) (f : Frame) :
  forAwait sessionId (ExternalAbort :: rest) fail f =
  forAwait sessionId rest fail (snd (externalAbort f)).
Proof.
  reflexivity.
Qed.

(** The loop leaves the trace, the signal link, the close handle, the
    tool-call list and the stop reason alone, and never un-aborts. *)
Lemma forAwait_frame (sessionId : string) (its : list StreamItem)
    (fail : option Exn) :
  forall f,
    let f' := snd (forAwait sessionId its fail f) in
    trace f' = trace f /\ linked f' = linked f /\
    (aborted f = true -> aborted f' = true) /\
    var_serverClose f' = var_serverClose f /\
    var_toolCalls f' = var_toolCalls f /\
    var_stopReason f' = var_stopReason f.
Proof.
  induction its as [|[[ev|]|] rest IH]; intros f.
  - simpl. destruct fail; simpl; auto 10.
  - cbv zeta. rewrite forAwait_deliver.
    destruct (aborted f) eqn:A; [simpl; auto 10|].
    pose proof (loopBody_frame sessionId ev f) as B. cbv zeta in B.
    destruct (loopBody sessionId ev f) as [[[|]|e] f1]; simpl in B;
      destruct B as (B1 & B2 & B3 & B4 & B5 & B6).
    + specialize (IH f1). cbv zeta in IH.
      destruct IH as (I1 & I2 & I3 & I4 & I5 & I6).
      repeat split; try congruence.
    + simpl. repeat split; try congruence.
    + simpl. repeat split; try congruence.
  - cbv zeta. rewrite forAwait_null.
    destruct (aborted f) eqn:A; [simpl; auto 10|].
    specialize (IH f). cbv zeta in IH.
    destruct IH as (I1 & I2 & I3 & I4 & I5 & I6).
    repeat split; try congruence.
  - cbv zeta. rewrite forAwait_abort.
    specialize (IH (snd (externalAbort f))). cbv zeta in IH. simpl in IH.
    destruct IH as (I1 & I2 & I3 & I4 & I5 & I6).
    repeat split; auto.
    intros A. apply I3. rewrite A. reflexivity.
Qed.

Lemma last_nonempty_default {A} (l : list A) :
  forall (b d d' : A), last (b :: l) d = last (b :: l) d'.
Proof.
  induction l as [|c l IH]; intros b d d'; [reflexivity|].
  change (last (c :: l) d = last (c :: l) d'). apply IH.
Qed.

Lemma last_cons_default {A} (a d : A) (l : list A) :
  last (a :: l) d = last l a.
Proof.
  destruct l as [|b l]; [reflexivity|].
  change (last (b :: l) d = last (b :: l) a). apply last_nonempty_default.
Qed.

Lemma lastText_cons (init : JsVal) (ev : Event) (evs : list Event) :
  lastText init (ev :: evs) =
  lastText (match textOf ev with
            | Some t => t
            | None => init
            end) evs.
Proof.
  unfold lastText, texts. simpl.
  destruct (textOf ev) as [t|]; [|reflexivity].
  simpl app. apply last_cons_default.
Qed.

(** Last write wins: when the loop is left, [responseText] holds the text
    of the last text event among those processed, or its initial value
    when there was none. *)
Lemma forAwait_text (sessionId : string) (its : list StreamItem)
    (fail : option Exn) :
  forall f,
    var_responseText (snd (forAwait sessionId its fail f)) =
    lastText (var_responseText f)
             (processed sessionId (aborted f) (linked f) its).
Proof.
  induction its as [|[[ev|]|] rest IH]; intros f.
  - simpl. destruct fail; reflexivity.
  - rewrite forAwait_deliver. simpl processed.
    destruct (aborted f) eqn:A; [reflexivity|].
    destruct (accepted sessionId ev) eqn:Acc.
    + pose proof (loopBody_frame sessionId ev f) as B. cbv zeta in B.
      destruct (loopBody_accepted sessionId ev f Acc)
        as [[Hm [e H]] | [[Hm [Hb H]] | [Hm [Hb [f1 [H T]]]]]];
        rewrite H in *; rewrite ?Hm, ?Hb, ?orb_true_r; simpl orb; cbv iota.
      * simpl snd. rewrite lastText_cons.
        unfold malformed in Hm. apply andb_true_iff in Hm.
        destruct Hm as [_ Hn].
        unfold textOf. destruct (String.eqb (type ev) "message.part.updated");
          [|reflexivity].
        destruct (properties ev); try discriminate; reflexivity.
      * simpl snd. rewrite lastText_cons.
        unfold breaks, isSessionEnd in Hb. unfold textOf.
        destruct (String.eqb_spec (type ev) "message.part.updated") as [E|N];
          [|reflexivity].
        rewrite E in Hb. discriminate.
      * rewrite IH. rewrite lastText_cons, T.
        simpl in B. destruct B as (B1 & B2 & B3 & _).
        rewrite B2, B3, A. reflexivity.
    + rewrite (loopBody_rejected _ _ f Acc). rewrite IH, A. reflexivity.
  - rewrite forAwait_null. simpl processed.
    destruct (aborted f) eqn:A; [reflexivity|].
    rewrite IH, A. reflexivity.
  - rewrite forAwait_abort. simpl processed. rewrite IH. reflexivity.
Qed.

(** Nothing delivered after an accepted terminal event is looked at, and
    neither is the way the iteration would have ended. *)
Lemma forAwait_cut (sessionId : string) (ev : Event) (post : list StreamItem)
    (fail : option Exn) :
  accepted sessionId ev = true -> breaks ev = true ->
  forall (pre : list StreamItem) (f : Frame),
    forAwait sessionId (pre ++ Deliver (Some ev) :: post) fail f =
    forAwait sessionId (pre ++ [Deliver (Some ev)]) None f.
Proof.
  intros Ha Hb pre.
  induction pre as [|[[e'|]|] pre IH]; intros f; simpl app.
  - rewrite !forAwait_deliver, (loopBody_breaks _ _ f Ha Hb). reflexivity.
  - rewrite !forAwait_deliver.
    destruct (aborted f); [reflexivity|].
    destruct (loopBody sessionId e' f) as [[[|]|e] f1]; auto.
  - rewrite !forAwait_null. destruct (aborted f); auto.
  - rewrite !forAwait_abort. apply IH.
Qed.

(** Once the caller's signal has fired during the loop, the loop is left
    with the controller aborted. *)
Lemma forAwait_aborted (sessionId : string) (post : list StreamItem)
    (fail : option Exn) :
  forall (pre : list StreamItem) (f : Frame),
    linked f = true ->
    forallb (passes sessionId) pre = true ->
    aborted (snd (forAwait sessionId (pre ++ ExternalAbort :: post) fail f)) = true.
Proof.
  induction pre as [|[[e'|]|] pre IH]; intros f L P; simpl app.
  - rewrite forAwait_abort.
    apply (forAwait_frame sessionId post fail (snd (externalAbort f))).
    simpl. rewrite L. apply orb_true_r.
  - rewrite forAwait_deliver.
    destruct (aborted f) eqn:A; [exact A|].
    simpl in P. apply andb_true_iff in P. destruct P as [P1 P2].
    pose proof (loopBody_frame sessionId e' f) as B. cbv zeta in B.
    destruct (accepted sessionId e') eqn:Acc.
    + simpl in P1. apply negb_true_iff in P1.
      apply orb_false_iff in P1. destruct P1 as [Hb Hm].
      destruct (loopBody_accepted sessionId e' f Acc)
        as [[Hm' _] | [[_ [Hb' _]] | [_ [_ [f1 [H _]]]]]]; try congruence.
      rewrite H in *. simpl in B. destruct B as (_ & B2 & _).
      apply IH; congruence.
    + rewrite (loopBody_rejected _ _ f Acc). apply IH; assumption.
  - rewrite forAwait_null.
    destruct (aborted f) eqn:A; [exact A|].
    simpl in P. apply IH; assumption.
  - simpl in P. discriminate.
Qed.

(** Once the controller is aborted the loop changes no local any more. *)
Lemma forAwait_aborted_result (sessionId : string) (its : list StreamItem)
    (fail : option Exn) :
  forall f,
    aborted f = true ->
    resultOf (snd (forAwait sessionId its fail f)) = resultOf f.
Proof.
  induction its as [|[ev|] rest IH]; intros f A.
  - simpl. destruct fail; reflexivity.
  - destruct ev as [ev|].
    + rewrite forAwait_deliver, A. reflexivity.
    + rewrite forAwait_null, A. reflexivity.
  - rewrite forAwait_abort.
    rewrite (IH (snd (externalAbort f))); [reflexivity|].
    simpl. rewrite A. reflexivity.
Qed.

(** The result built when the loop is left after the signal fired is the
    one accumulated over the items delivered before it fired. *)
Lemma forAwait_abort_result (sessionId : string) (post : list StreamItem)
    (fail : option Exn) :
  forall (pre : list StreamItem) (f : Frame),
    linked f = true ->
    forallb (passes sessionId) pre = true ->
    resultOf (snd (forAwait sessionId (pre ++ ExternalAbort :: post) fail f)) =
    resultOf (snd (forAwait sessionId pre None f)).
Proof.
  induction pre as [|[[e'|]|] pre IH]; intros f L P; simpl app.
  - rewrite forAwait_abort.
    rewrite forAwait_aborted_result; [reflexivity|].
    simpl. rewrite L. apply orb_true_r.
  - rewrite !forAwait_deliver.
    destruct (aborted f) eqn:A; [reflexivity|].
    simpl in P. apply andb_true_iff in P. destruct P as [P1 P2].
    pose proof (loopBody_frame sessionId e' f) as B. cbv zeta in B.
    destruct (accepted sessionId e') eqn:Acc.
    + simpl in P1. apply negb_true_iff in P1.
      apply orb_false_iff in P1. destruct P1 as [Hb Hm].
      destruct (loopBody_accepted sessionId e' f Acc)
        as [[Hm' _] | [[_ [Hb' _]] | [_ [_ [f1 [H _]]]]]]; try congruence.
      rewrite H in *. simpl in B. destruct B as (_ & B2 & _).
      apply IH; congruence.
    + rewrite (loopBody_rejected _ _ f Acc). apply IH; assumption.
  - rewrite !forAwait_null.
    destruct (aborted f) eqn:A; [reflexivity|].
    simpl in P. apply IH; assumption.
  - simpl in P. discriminate.
Qed.

(** Events delivered after the signal fired are not processed. *)
Lemma processed_abort (sessionId : string) (post : list StreamItem) :
  forall (pre : list StreamItem) (ab : bool),
    processed sessionId ab true (pre ++ ExternalAbort :: post) =
    processed sessionId ab true pre.
Proof.
  assert (Z : forall its, processed sessionId true true its = []).
  { induction its as [|[ev|] its IH]; simpl; auto. }
  induction pre as [|[[e'|]|] pre IH]; intros ab; simpl.
  - rewrite orb_true_r. apply Z.
  - destruct ab; [reflexivity|].
    destruct (accepted sessionId e'); [|apply IH].
    destruct (breaks e' || malformed e'); [reflexivity|].
    rewrite IH. reflexivity.
  - destruct ab; [reflexivity|]. apply IH.
  - apply IH.
Qed.

(* ------------------------------------------------------------------ *)
(** ** [complete] as a whole *)

Lemma complete_preAborted (options : CompleteOptions) (w : World) :
  abortSignal options = Some true ->
  run (complete options w) = (Throw (Error "Aborted"), entry).
Proof.
  intros H. unfold run, complete, linkSignal. unfold_m. rewrite H. reflexivity.
Qed.

(** Once setup has succeeded, the call's completion is what [settle]
    makes of the loop's, and the trace is the four setup calls followed
    by the release of the server. *)
Lemma complete_started (options : CompleteOptions) (w : World)
    (server : Server) (sessionId : string) (stream : EventStream) :
  preAborted options = false ->
  createOpencode w = Ok server ->
  sessionCreate w = Ok (Some sessionId) ->
  eventSubscribe w = Ok stream ->
  let loop := forAwait sessionId (items stream) (failure stream)
                       (started options w server sessionId) in
  fst (run (complete options w)) = settle w (fst loop) (snd loop) /\
  trace (snd (run (complete options w))) =
    trace (started options w server sessionId) ++ [ServerClose].
Proof.
  intros Hp Hc Hs He loop.
  pose proof (forAwait_frame sessionId (items stream) (failure stream)
                (started options w server sessionId)) as F.
  cbv zeta in F. fold loop in F.
  destruct F as (F1 & F2 & F3 & F4 & _).
  assert (E : forAwait sessionId (items stream) (failure stream)
                (started options w server sessionId) = loop) by reflexivity.
  unfold run, complete, linkSignal, tryBlock, finallyBlock, preAborted,
    started, hasSignal in *.
  unfold awaitPrompt, closeServer, result, rethrowUnlessAborted,
    promptFailedUnlessAborted, settle, resultOf.
  unfold_m. rewrite Hc, Hs, He.
  destruct (abortSignal options) as [[|]|]; try discriminate; simpl;
    destruct (abortDuringSetup w); simpl; simpl in E; rewrite E;
    destruct loop as [[[]|e] f1]; simpl in *;
    rewrite ?F4; simpl;
    destruct (aborted f1) eqn:A1; simpl; rewrite ?F4; simpl;
    destruct (abortDuringPrompt w); simpl; rewrite ?F4; simpl;
    destruct (promptOutcome w); simpl; rewrite ?A1, ?F2, ?F4; simpl;
    rewrite ?F4;
    repeat match goal with
           | |- context [closeThrows ?s] => destruct (closeThrows s)
           end; simpl;
    split; try reflexivity; rewrite ?F1; reflexivity.
Qed.

(** The release step never throws, whatever [close] does. *)
Lemma finallyBlock_ok (f : Frame) : fst (finallyBlock f) = Ok tt.
Proof.
  unfold finallyBlock, closeServer. unfold_m.
  destruct (var_serverClose f) as [server|]; [|reflexivity].
  destruct (closeThrows server); reflexivity.
Qed.

(** Hence a [finally] made of it keeps the completion of its [try]. *)
Lemma finallyBlock_keeps {A} (m : M A) (f : Frame) :
  fst (tryFinally m finallyBlock f) = fst (m f).
Proof.
  unfold tryFinally. destruct (m f) as [r f1].
  pose proof (finallyBlock_ok f1) as H.
  destruct (finallyBlock f1) as [[u|e] f2]; simpl in *; congruence.
Qed.

Lemma complete_setup_fails (options : CompleteOptions) (w : World) :
  preAborted options = false ->
  (forall stream, eventSubscribe w = Ok stream ->
     forall sessionId, sessionCreate w = Ok (Some sessionId) ->
       forall server, createOpencode w <> Ok server) ->
  (exists e, fst (run (complete options w)) = Throw e) /\
  trace (snd (run (complete options w))) = expectedTrace options w.
Proof.
  intros Hp Hno.
  unfold expectedTrace. rewrite Hp.
  unfold run, complete, linkSignal, tryBlock, finallyBlock, closeServer,
    preAborted in *.
  unfold_m.
  destruct (abortSignal options) as [[|]|]; try discriminate; simpl.
  - destruct (createOpencode w) as [server|e] eqn:Hc; simpl;
      [|(split; [eexists; reflexivity | reflexivity])].
    destruct (sessionCreate w) as [[sid|]|e] eqn:Hs; simpl.
    + destruct (eventSubscribe w) as [stream|e] eqn:He; simpl.
      * exfalso. exact (Hno stream eq_refl sid eq_refl server eq_refl).
      * destruct (closeThrows server); simpl; (split; [eexists; reflexivity | reflexivity]).
    + destruct (closeThrows server); simpl; (split; [eexists; reflexivity | reflexivity]).
    + destruct (closeThrows server); simpl; (split; [eexists; reflexivity | reflexivity]).
  - destruct (createOpencode w) as [server|e] eqn:Hc; simpl;
      [|(split; [eexists; reflexivity | reflexivity])].
    destruct (sessionCreate w) as [[sid|]|e] eqn:Hs; simpl.
    + destruct (eventSubscribe w) as [stream|e] eqn:He; simpl.
      * exfalso. exact (Hno stream eq_refl sid eq_refl server eq_refl).
      * destruct (closeThrows server); simpl; (split; [eexists; reflexivity | reflexivity]).
    + destruct (closeThrows server); simpl; (split; [eexists; reflexivity | reflexivity]).
    + destruct (closeThrows server); simpl; (split; [eexists; reflexivity | reflexivity]).
Qed.

(** The trace of every call. *)
Lemma complete_trace (options : CompleteOptions) (w : World) :
  trace (snd (run (complete options w))) = expectedTrace options w.
Proof.
  destruct (preAborted options) eqn:Hp.
  - unfold expectedTrace. rewrite Hp.
    unfold preAborted in Hp.
    destruct (abortSignal options) as [[|]|] eqn:Ha; try discriminate.
    rewrite (complete_preAborted options w Ha). reflexivity.
  - destruct (createOpencode w) as [server|e] eqn:Hc;
      [destruct (sessionCreate w) as [[sid|]|e] eqn:Hs;
       [destruct (eventSubscribe w) as [stream|e] eqn:He|..]|];
      try (apply complete_setup_fails; [exact Hp | intros; congruence]).
    destruct (complete_started options w Hp Hc Hs He) as [_ T].
    rewrite T. unfold expectedTrace. rewrite Hp, Hc, Hs, He. reflexivity.
Qed.

(** A call that resolves got through setup, and its result is built from
    the frame the loop left. *)
Lemma complete_ok_inv (options : CompleteOptions) (w : World) (r : CompleteResult) :
  fst (run (complete options w)) = Ok r ->
  exists server sessionId stream,
    preAborted options = false /\
    createOpencode w = Ok server /\
    sessionCreate w = Ok (Some sessionId) /\
    eventSubscribe w = Ok stream /\
    r = resultOf (snd (forAwait sessionId (items stream) (failure stream)
                                (started options w server sessionId))).
Proof.
  intros H.
  destruct (preAborted options) eqn:Hp.
  { unfold preAborted in Hp.
    destruct (abortSignal options) as [[|]|] eqn:Ha; try discriminate.
    rewrite (complete_preAborted options w Ha) in H. discriminate. }
  destruct (createOpencode w) as [server|e] eqn:Hc;
    [destruct (sessionCreate w) as [[sid|]|e] eqn:Hs;
     [destruct (eventSubscribe w) as [stream|e] eqn:He|..]|];
    try (destruct (complete_setup_fails options w Hp) as [[x Hx] _];
         [intros; congruence | rewrite Hx in H; discriminate]).
  exists server, sid, stream. repeat split; auto.
  destruct (complete_started options w Hp Hc Hs He) as [S _].
  rewrite S in H. unfold settle in H.
  repeat break_hyp; congruence.
Qed.

(** The loop never reads the stored close handle. *)
Lemma loopBody_setServer (sessionId : string) (ev : Event) (s : option Server)
    (f : Frame) :
  loopBody sessionId ev (setServer s f) =
  (fst (loopBody sessionId ev f), setServer s (snd (loopBody sessionId ev f))).
Proof.
  unfold loopBody, setServer. unfold_m.
  repeat break_match; reflexivity.
Qed.

Lemma forAwait_setServer (sessionId : string) (its : list StreamItem)
    (fail : option Exn) (s : option Server) :
  forall f,
    forAwait sessionId its fail (setServer s f) =
    (fst (forAwait sessionId its fail f),
     setServer s (snd (forAwait sessionId its fail f))).
Proof.
  induction its as [|[[ev|]|] rest IH]; intros f.
  - simpl. destruct fail; reflexivity.
  - rewrite !forAwait_deliver, loopBody_setServer. simpl aborted.
    destruct (aborted f); [reflexivity|].
    destruct (loopBody sessionId ev f) as [[[|]|e] f1]; simpl; auto.
  - rewrite !forAwait_null. simpl aborted.
    destruct (aborted f); [reflexivity|]. apply IH.
  - rewrite !forAwait_abort. apply (IH (snd (externalAbort f))).
Qed.

(** The completion of a call does not depend on what [server.close] does. *)
Lemma complete_withClose (options : CompleteOptions) (w : World) (c : option Exn) :
  fst (run (complete options (withClose w c))) = fst (run (complete options w)).
Proof.
  destruct (preAborted options) eqn:Hp.
  { unfold preAborted in Hp.
    destruct (abortSignal options) as [[|]|] eqn:Ha; try discriminate.
    rewrite !(complete_preAborted options _ Ha). reflexivity. }
  destruct (createOpencode w) as [server|e] eqn:Hc.
  - destruct (sessionCreate w) as [[sid|]|e] eqn:Hs;
      [destruct (eventSubscribe w) as [stream|e] eqn:He|..].
    + assert (Hc' : createOpencode (withClose w c) = Ok {| closeThrows := c |})
        by (simpl; rewrite Hc; reflexivity).
      destruct (@complete_started options (withClose w c) _ sid stream Hp Hc' Hs He)
        as [S' _].
      destruct (@complete_started options w server sid stream Hp Hc Hs He) as [S _].
      rewrite S, S'.
      change (started options (withClose w c) {| closeThrows := c |} sid)
        with (setServer (Some {| closeThrows := c |}) (started options w server sid)).
      rewrite forAwait_setServer. simpl fst. simpl snd.
      unfold settle, resultOf. reflexivity.
    + unfold run, complete, linkSignal, tryBlock, finallyBlock, closeServer,
        preAborted in *.
      unfold_m. simpl. rewrite Hc, Hs, He.
      destruct (abortSignal options) as [[|]|]; try discriminate; simpl;
        destruct c; destruct (closeThrows server); reflexivity.
    + unfold run, complete, linkSignal, tryBlock, finallyBlock, closeServer,
        preAborted in *.
      unfold_m. simpl. rewrite Hc, Hs.
      destruct (abortSignal options) as [[|]|]; try discriminate; simpl;
        destruct c; destruct (closeThrows server); reflexivity.
    + unfold run, complete, linkSignal, tryBlock, finallyBlock, closeServer,
        preAborted in *.
      unfold_m. simpl. rewrite Hc, Hs.
      destruct (abortSignal options) as [[|]|]; try discriminate; simpl;
        destruct c; destruct (closeThrows server); reflexivity.
  - unfold run, complete, linkSignal, tryBlock, finallyBlock, closeServer,
      preAborted in *.
    unfold_m. simpl. rewrite Hc.
    destruct (abortSignal options) as [[|]|]; try discriminate; reflexivity.
Qed.

(* ------------------------------------------------------------------ *)
(** ** The claims of the specification *)

(** C1, as amended.  Extraction takes the string at [properties.sessionID],
    else the string at [properties.info.sessionID], else nothing, and never
    throws; the filter accepts an event exactly when the extracted
    identifier is absent, is the empty string, or equals the target; an
    event it rejects leaves the state of the call untouched. *)
Theorem filter_accepts_iff (sessionId : string) (event : Event) :
  extractSessionId event = Ok (specSessionId event) /\
  (accepted sessionId event = true <->
   specSessionId event = None \/ specSessionId event = Some "" \/
   specSessionId event = Some sessionId) /\
  (accepted sessionId event = false ->
   forall f, loopBody sessionId event f = (Ok Next, f)).
Proof.
  split; [apply extractSessionId_order|]. split.
  - rewrite accepted_spec, negb_true_iff. apply excluded_false_iff.
  - intros H f. apply loopBody_rejected. exact H.
Qed.

(** C1, counterexample.  An event whose [properties.sessionID] is the
    empty string carries an identifier that differs from the target
    "ses_1", yet the filter accepts it and the loop takes its text. *)
Lemma filter_accepts_empty_identifier :
  ~ (accepted "ses_1" (Sample.textEvent "" "leak") = true <->
     specAccepts "ses_1" (Sample.textEvent "" "leak")) /\
  var_responseText (snd (loopBody "ses_1" (Sample.textEvent "" "leak") entry))
  = JStr "leak".
Proof.
  split; [|reflexivity].
  intros [H _]. specialize (H eq_refl).
  destruct H as [H | H]; vm_compute in H; discriminate.
Qed.

(** C2.  A call that resolves returns as text the text of the last text
    part among the accepted events it processed (last write wins), and
    the empty string when it processed none. *)
Theorem last_write_wins (options : CompleteOptions) (w : World)
    (sessionId : string) (stream : EventStream) (r : CompleteResult) :
  sessionCreate w = Ok (Some sessionId) ->
  eventSubscribe w = Ok stream ->
  fst (run (complete options w)) = Ok r ->
  text r = lastText (JStr "")
             (processed sessionId (hasSignal options && abortDuringSetup w)
                        (hasSignal options) (items stream)).
Proof.
  intros Hs He H.
  destruct (complete_ok_inv options w H)
    as (server & sid & st & _ & _ & Hs' & He' & R).
  assert (sid = sessionId) by congruence.
  assert (st = stream) by congruence.
  subst sid st r.
  unfold resultOf. simpl text. rewrite forAwait_text. reflexivity.
Qed.

(** C2, on the parts "a", "ab", "abc": the call resolves with "abc". *)
Lemma last_write_wins_abc :
  exists r,
    fst (run (complete (Sample.options None)
                       (Sample.world Sample.abcItems None None))) = Ok r /\
    text r = JStr "abc".
Proof.
  eexists. split.
  - vm_compute. reflexivity.
  - match goal with
    | |- text ?r = _ =>
        assert (H : fst (run (complete (Sample.options None)
                                (Sample.world Sample.abcItems None None))) = Ok r)
          by (vm_compute; reflexivity);
        rewrite (@last_write_wins (Sample.options None)
                   (Sample.world Sample.abcItems None None) "ses_1"
                   {| items := Sample.abcItems; failure := None |} r
                   eq_refl eq_refl H)
    end.
    vm_compute. reflexivity.
Defined.

(** An accepted "session.idle" or "session.status" event with a
    properties bag, whose [properties.status] is absent or has type
    "idle", makes the loop body break without error and without touching
    the frame; whatever the stream holds after it, and however the
    iteration would have ended, the call runs as if the stream stopped
    there; and an accepted event of an unrecognized type is ignored. *)
Theorem terminal_event_ends_loop (options : CompleteOptions) (w : World)
    (sessionId : string) (pre post : list StreamItem) (ev : Event)
    (fail : option Exn) :
  sessionCreate w = Ok (Some sessionId) ->
  accepted sessionId ev = true ->
  specTerminal ev = true ->
  (forall f, loopBody sessionId ev f = (Ok Break, f)) /\
  run (complete options
         (withStream w {| items := pre ++ Deliver (Some ev) :: post;
                          failure := fail |}))
  = run (complete options
           (withStream w {| items := pre ++ [Deliver (Some ev)];
                            failure := None |})) /\
  (forall other f, recognized other = false ->
                   loopBody sessionId other f = (Ok Next, f)).
Proof.
  intros Hs Ha Ht.
  pose proof (specTerminal_breaks ev Ht) as Hb.
  split; [|split].
  - intros f. apply loopBody_breaks; assumption.
  - unfold run, complete, tryBlock. unfold_m. simpl.
    rewrite Hs.
    destruct (linkSignal options entry) as [[u|e] f0]; [|reflexivity].
    destruct (createOpencode w) as [server|e]; [|reflexivity].
    simpl. destruct (abortDuringSetup w); simpl;
      rewrite (@forAwait_cut sessionId ev post fail Ha Hb); reflexivity.
  - intros other f. apply loopBody_unrecognized.
Qed.

Lemma terminal_event_ends_loop_witness :
  run (complete (Sample.options None)
         (withStream (Sample.world [] None None)
            {| items := [Deliver (Some (Sample.textEvent "ses_1" "a"))]
                        ++ Deliver (Some (Sample.idleEvent "ses_1"))
                           :: [Deliver (Some (Sample.textEvent "ses_1" "late"))];
               failure := Some (Foreign "SocketError" "closed") |}))
  = run (complete (Sample.options None)
           (withStream (Sample.world [] None None)
              {| items := [Deliver (Some (Sample.textEvent "ses_1" "a"))]
                          ++ [Deliver (Some (Sample.idleEvent "ses_1"))];
                 failure := None |})).
Proof.
  apply (@terminal_event_ends_loop (Sample.options None)
           (Sample.world [] None None) "ses_1"
           [Deliver (Some (Sample.textEvent "ses_1" "a"))]
           [Deliver (Some (Sample.textEvent "ses_1" "late"))]
           (Sample.idleEvent "ses_1")
           (Some (Foreign "SocketError" "closed"))
           eq_refl
           ltac:(vm_compute; reflexivity)
           ltac:(vm_compute; reflexivity)).
Defined.

(* ------------------------------------------------------------------ *)
(** ** An idle event without a properties bag *)

(** What the body does with an accepted event that is terminal as the
    claim words it: it breaks when the event has a properties bag, and
    the read of [status] throws when it has none. *)
Lemma loopBody_terminal (sessionId : string) (ev : Event) (f : Frame) :
  accepted sessionId ev = true ->
  Worded.terminal ev = true ->
  loopBody sessionId ev f =
  match getProp (properties ev) "status" with
  | Ok _ => (Ok Break, f)
  | Throw e => (Throw e, f)
  end.
Proof.
  destruct ev as [ty props].
  unfold accepted, Worded.terminal, Worded.statusOf, isSessionEnd.
  simpl type. simpl properties.
  intros Ha Ht.
  apply andb_true_iff in Ht. destruct Ht as [T S].
  destruct (extractSessionId {| type := ty; properties := props |})
    as [o|e] eqn:E; [|discriminate].
  apply negb_true_iff in Ha.
  assert (B : loopBody sessionId {| type := ty; properties := props |} f =
              bindM (lift (getProp props "status"))
                (fun status =>
                   if negb (truthy status) then ret Break
                   else bindM (lift (getProp status "type"))
                          (fun statusType =>
                             if strictEqStr statusType "idle"
                             then ret Break else ret Next)) f).
  { unfold loopBody. unfold bindM at 1. unfold lift at 1.
    rewrite E, Ha. simpl type. simpl properties.
    apply orb_true_iff in T.
    destruct T as [T|T]; apply String.eqb_eq in T; subst ty; reflexivity. }
  rewrite B. unfold_m.
  destruct props as [ | | b | n | | s | l | fs ]; try reflexivity.
  simpl. destruct (field "status" fs) as [ | | b | n | | s | l | ss ];
    try discriminate; [reflexivity|].
  simpl. rewrite S. reflexivity.
Qed.

(** C3, at the failing input.  An idle event that carries nothing but
    its type passes the filter ([extractSessionId] guards the missing
    bag and finds no identifier) and is terminal as the claim words it,
    its status being absent.  The loop body reads [status] from the
    missing bag without that guard: it throws a TypeError instead of
    breaking, and the call, which had collected the text "a", rejects
    with that error instead of resolving.  With a properties bag the same
    kind of event ends the loop by break. *)
Theorem bare_idle_event_throws :
  extractSessionId Edge.bareIdle = Ok None /\
  accepted "ses_1" Edge.bareIdle = true /\
  Worded.terminal Edge.bareIdle = true /\
  (forall f,
     loopBody "ses_1" Edge.bareIdle f =
     (Throw (TypeError "Cannot read properties of undefined (reading 'status')"),
      f)) /\
  fst (run (complete (Sample.options None)
              (Sample.world [ Deliver (Some (Sample.textEvent "ses_1" "a"));
                              Deliver (Some Edge.bareIdle) ] None None)))
  = Throw (TypeError "Cannot read properties of undefined (reading 'status')") /\
  (exists r,
     fst (run (complete (Sample.options None)
                 (Sample.world [ Deliver (Some (Sample.textEvent "ses_1" "a"));
                                 Deliver (Some (Sample.idleEvent "ses_1")) ]
                               None None))) = Ok r /\
     text r = JStr "a") /\
  (forall sessionId ev f,
     accepted sessionId ev = true ->
     Worded.terminal ev = true ->
     loopBody sessionId ev f =
     if nullish (properties ev)
     then (Throw (TypeError
                    ("Cannot read properties of "
                     ++ toString (properties ev) ++ " (reading 'status')")), f)
     else (Ok Break, f)).
Proof.
  split; [reflexivity|]. split; [reflexivity|]. split; [reflexivity|].
  split; [intros f; apply (@loopBody_terminal "ses_1" Edge.bareIdle f);
          reflexivity|].
  split; [vm_compute; reflexivity|].
  split; [eexists; split; vm_compute; reflexivity|].
  intros sessionId ev f Ha Ht.
  rewrite (@loopBody_terminal sessionId ev f Ha Ht).
  destruct (properties ev); reflexivity.
Qed.

(** C4.  The release step never alters the completion of the call: the
    call completes as its [try] block does, whatever [server.close]
    does.  When the runtime was created, [server.close] is called exactly
    once and is the last remote call; when it was not (the signal was
    already aborted, or creation failed) there is nothing to release and
    no call is made.  The release step itself never throws, also when
    repeated, and a second [SessionManager.close] makes no remote call. *)
Theorem release_on_every_path (options : CompleteOptions) (w : World)
    (this : SessionManager.t) :
  fst (run (complete options w)) =
    (if preAborted options then Throw (Error "Aborted")
     else fst (tryBlock options w (snd (linkSignal options entry))))
  /\ (forall c, fst (run (complete options (withClose w c)))
                = fst (run (complete options w)))
  /\ (if negb (preAborted options) && isOk (createOpencode w)
      then exists tr, trace (snd (run (complete options w))) = tr ++ [ServerClose]
                      /\ closes tr = 0
      else closes (trace (snd (run (complete options w)))) = 0)
  /\ (forall f, fst (finallyBlock f) = Ok tt /\
                fst (finallyBlock (snd (finallyBlock f))) = Ok tt)
  /\ (let '(r1, this1, calls1) := SessionManager.close this in
      let '(r2, this2, calls2) := SessionManager.close this1 in
      r1 = Ok tt /\ r2 = Ok tt /\ calls2 = [] /\ closes (calls1 ++ calls2) <= 1).
Proof.
  split; [|split; [|split; [|split]]].
  - unfold run, complete, linkSignal, preAborted. unfold bindM at 1.
    destruct (abortSignal options) as [[|]|]; simpl; try reflexivity;
      apply finallyBlock_keeps.
  - intros c. apply complete_withClose.
  - rewrite complete_trace. unfold expectedTrace.
    destruct (preAborted options); simpl; [reflexivity|].
    destruct (createOpencode w) as [server|e]; simpl; [|reflexivity].
    destruct (sessionCreate w) as [[sid|]|e];
      [destruct (eventSubscribe w) as [stream|e]|..].
    + exists [ CreateOpencode (match timeout options with
                               | Some t => t
                               | None => default_timeout
                               end) None (opencodeConfig options);
               SessionCreate (workspaceDir options); EventSubscribe;
               SessionPrompt sid (buildParts options) ].
      split; reflexivity.
    + exists [ CreateOpencode (match timeout options with
                               | Some t => t
                               | None => default_timeout
                               end) None (opencodeConfig options);
               SessionCreate (workspaceDir options); EventSubscribe ].
      split; reflexivity.
    + exists [ CreateOpencode (match timeout options with
                               | Some t => t
                               | None => default_timeout
                               end) None (opencodeConfig options);
               SessionCreate (workspaceDir options) ].
      split; reflexivity.
    + exists [ CreateOpencode (match timeout options with
                               | Some t => t
                               | None => default_timeout
                               end) None (opencodeConfig options);
               SessionCreate (workspaceDir options) ].
      split; reflexivity.
  - intros f. split; apply finallyBlock_ok.
  - unfold SessionManager.close. simpl.
    destruct (SessionManager.serverClose this) as [server|]; simpl.
    + destruct (closeThrows server); repeat split; try reflexivity;
        unfold closes; simpl; lia.
    + repeat split; try reflexivity. unfold closes. simpl. lia.
Qed.

(** C5.  A call whose signal is already aborted throws "Aborted" at once:
    the frame is untouched, so neither the runtime nor a session was
    asked for. *)
Theorem preaborted_fast_path (options : CompleteOptions) (w : World) :
  abortSignal options = Some true ->
  run (complete options w) = (Throw (Error "Aborted"), entry) /\
  trace (snd (run (complete options w))) = [].
Proof.
  intros H. rewrite (complete_preAborted options w H). split; reflexivity.
Qed.

Lemma preaborted_fast_path_witness :
  run (complete (Sample.options (Some true))
                (Sample.world Sample.abcItems None None))
  = (Throw (Error "Aborted"), entry) /\
  trace (snd (run (complete (Sample.options (Some true))
                            (Sample.world Sample.abcItems None None)))) = [].
Proof.
  apply (@preaborted_fast_path (Sample.options (Some true))
           (Sample.world Sample.abcItems None None) eq_refl).
Defined.

(** C6.  After setup, an error that ends the loop is rethrown unchanged
    exactly when the controller is not aborted at that moment; otherwise
    it is dropped and the call goes on to await the prompt.  A rejected
    prompt makes the call throw the fixed error "Prompt failed", whatever
    the rejection was, exactly when the controller is not aborted by
    then; otherwise the rejection is dropped and the result returned. *)
Theorem errors_suppressed_iff_aborted (options : CompleteOptions) (w : World)
    (server : Server) (sessionId : string) (stream : EventStream) :
  preAborted options = false ->
  createOpencode w = Ok server ->
  sessionCreate w = Ok (Some sessionId) ->
  eventSubscribe w = Ok stream ->
  let loop := forAwait sessionId (items stream) (failure stream)
                       (started options w server sessionId) in
  fst (run (complete options w)) =
    match fst loop, aborted (snd loop) with
    | Throw e, false => Throw e
    | _, abortedAtExit =>
        match promptOutcome w with
        | Some _ =>
            if abortedAtExit || (abortDuringPrompt w && hasSignal options)
            then Ok (resultOf (snd loop))
            else Throw (Error "Prompt failed")
        | None => Ok (resultOf (snd loop))
        end
    end.
Proof.
  intros Hp Hc Hs He loop.
  destruct (complete_started options w Hp Hc Hs He) as [S _].
  fold loop in S. rewrite S. unfold settle.
  pose proof (forAwait_frame sessionId (items stream) (failure stream)
                (started options w server sessionId)) as F.
  cbv zeta in F. fold loop in F. destruct F as (_ & F2 & _).
  rewrite F2. simpl linked.
  destruct (fst loop) as [u|e]; destruct (aborted (snd loop)); reflexivity.
Qed.

(** C6, at a stream that breaks without cancellation: the stream's own
    error is what the call throws. *)
Lemma errors_suppressed_iff_aborted_witness :
  fst (run (complete (Sample.options (Some false))
              (Sample.world [Deliver (Some (Sample.textEvent "ses_1" "a"))]
                 (Some (Foreign "SocketError" "closed"))
                 (Some (Error "boom")))))
  = Throw (Foreign "SocketError" "closed").
Proof.
  rewrite (@errors_suppressed_iff_aborted (Sample.options (Some false))
             (Sample.world [Deliver (Some (Sample.textEvent "ses_1" "a"))]
                (Some (Foreign "SocketError" "closed"))
                (Some (Error "boom")))
             {| closeThrows := None |} "ses_1"
             {| items := [Deliver (Some (Sample.textEvent "ses_1" "a"))];
                failure := Some (Foreign "SocketError" "closed") |}
             eq_refl eq_refl eq_refl eq_refl).
  vm_compute. reflexivity.
Defined.

(** C7, counterexample.  The signal fires after the first text part; the
    stream then fails and the prompt is rejected.  The call does not
    reject with "Aborted": it resolves with the partial text "a". *)
Lemma abort_mid_loop_is_not_an_error :
  fst (run (complete (Sample.options (Some false))
              (Sample.world Sample.abortedItems
                 (Some (Foreign "AbortError" "aborted"))
                 (Some (Error "boom")))))
  <> Throw (Error "Aborted")
  /\ exists r,
       fst (run (complete (Sample.options (Some false))
                   (Sample.world Sample.abortedItems
                      (Some (Foreign "AbortError" "aborted"))
                      (Some (Error "boom"))))) = Ok r
       /\ text r = JStr "a".
Proof.
  split.
  - vm_compute. discriminate.
  - eexists. split; vm_compute; reflexivity.
Qed.

Lemma userTexts_filter (ms : list Message) :
  map contentText (filter isUser ms) = userTexts ms.
Proof.
  induction ms as [|m ms IH]; [reflexivity|].
  unfold userTexts in *. simpl flat_map. rewrite <- IH.
  destruct m as [[s|ps]|c tcs|id c]; reflexivity.
Qed.


Lemma buildParts_spec (options : CompleteOptions) :
  buildParts options = specParts options.
Proof.
  unfold buildParts, specParts, contentParts, messageParts, systemParts, nonEmpty.
  f_equal.
  - assert (M : match messages options with
                 | Some ms =>
                     if negb (String.eqb
                                (String.concat newline
                                   (map contentText (filter isUser ms))) "")
                     then [ {| part_text :=
                                 String.concat newline
                                   (map contentText (filter isUser ms)) |} ]
                     else []
                 | None => []
                 end =
                 match match messages options with
                       | Some ms => Some (String.concat newline (userTexts ms))
                       | None => None
                       end with
                 | Some t => if String.eqb t "" then [] else [ {| part_text := t |} ]
                 | None => []
                 end).
    { destruct (messages options) as [ms|]; [|reflexivity].
      rewrite userTexts_filter.
      destruct (String.eqb (String.concat newline (userTexts ms)) ""); reflexivity. }
    destruct (prompt options) as [p|]; [|exact M].
    destruct (String.eqb p "") eqn:E; simpl; [exact M|].
    rewrite E. reflexivity.
  - destruct (systemPrompt options) as [s|]; [|reflexivity].
    destruct (String.eqb s ""); reflexivity.
Qed.

Lemma yields_spec (r : CompleteResult) : yields r = specSequence r.
Proof.
  unfold yields, specSequence. rewrite flat_map_concat_map. reflexivity.
Qed.

Lemma toolCallEvents_not_done (tcs : list ToolCallResult) :
  filter isDone (flat_map toolCallEvents tcs) = [].
Proof.
  induction tcs as [|tc tcs IH]; [reflexivity|]. simpl. exact IH.
Qed.

Lemma toolCallEvents_length (tcs : list ToolCallResult) :
  length (flat_map toolCallEvents tcs) = 3 * length tcs.
Proof.
  induction tcs as [|tc tcs IH]; [reflexivity|]. simpl length. lia.
Qed.

(** C9.  Once [complete] has resolved with [r], the generator yields the
    text event when and only when the text is non-empty, then a
    start/delta/end triple per tool call in list order, then one "done"
    event carrying [r], which is the last and the only one; if
    [complete] throws, nothing is yielded and the error propagates. *)
Theorem streamComplete_sequence (options : CompleteOptions) (w : World)
    (r : CompleteResult) :
  run (streamComplete options w) =
    (match run (complete options w) with
     | (Ok r', f) => (Ok (specSequence r'), f)
     | (Throw e, f) => (Throw e, f)
     end) /\
  yields r = specSequence r /\
  last (yields r) (text_ev JUndefined) = done r /\
  filter isDone (yields r) = [done r] /\
  length (yields r) =
    (if truthy (text r) then 1 else 0)
    + 3 * length (match toolCalls r with
                  | Some tcs => tcs
                  | None => []
                  end)
    + 1 /\
  (forall s, truthy (JStr s) = true <-> s <> "").
Proof.
  split; [|split; [|split; [|split; [|split]]]].
  - unfold run, streamComplete. unfold_m.
    destruct (complete options w entry) as [[r'|e] f]; [|reflexivity].
    rewrite yields_spec. reflexivity.
  - apply yields_spec.
  - unfold yields. rewrite app_assoc. apply last_last.
  - unfold yields. rewrite !filter_app, toolCallEvents_not_done.
    destruct (truthy (text r)); reflexivity.
  - unfold yields. rewrite !length_app, toolCallEvents_length.
    destruct (truthy (text r)); simpl length; lia.
  - intros s. simpl. rewrite negb_true_iff.
    destruct (String.eqb_spec s ""); split; congruence.
Qed.

(** C10.  No iteration of the loop touches the tool-call list; a call
    that resolves therefore returns [toolCalls] absent, and the generator
    then yields no tool-call event. *)
Theorem toolCalls_never_present (options : CompleteOptions) (w : World)
    (r : CompleteResult) :
  fst (run (complete options w)) = Ok r ->
  (forall sessionId its fail f,
     var_toolCalls (snd (forAwait sessionId its fail f)) = var_toolCalls f) /\
  toolCalls r = None /\
  fst (run (streamComplete options w)) = Ok (yields r) /\
  forallb (fun e => negb (isToolCallEvent e)) (yields r) = true.
Proof.
  intros H.
  assert (L : forall sessionId its fail f,
             var_toolCalls (snd (forAwait sessionId its fail f)) = var_toolCalls f).
  { intros sid its fail f. apply (forAwait_frame sid its fail f). }
  assert (N : toolCalls r = None).
  { destruct (complete_ok_inv options w H) as (server & sid & st & _ & _ & _ & _ & R).
    subst r. unfold resultOf. simpl toolCalls. rewrite L. reflexivity. }
  split; [exact L|]. split; [exact N|]. split.
  - unfold run, streamComplete in *. unfold_m.
    destruct (complete options w entry) as [[r'|e] f]; simpl in *; congruence.
  - unfold yields. rewrite N. simpl flat_map.
    destruct (truthy (text r)); reflexivity.
Qed.

Lemma toolCalls_never_present_witness :
  exists r,
    fst (run (complete (Sample.options None)
                (Sample.world [Deliver (Some (Sample.usageEvent "ses_1" 3 4));
                               Deliver (Some (Sample.textEvent "ses_1" "done"))]
                              None None))) = Ok r /\
    toolCalls r = None.
Proof.
  eexists. split.
  - vm_compute. reflexivity.
  - match goal with
    | |- toolCalls ?r = _ =>
        assert (H : fst (run (complete (Sample.options None)
                    (Sample.world [Deliver (Some (Sample.usageEvent "ses_1" 3 4));
                                   Deliver (Some (Sample.textEvent "ses_1" "done"))]
                                  None None))) = Ok r)
          by (vm_compute; reflexivity);
        exact (proj1 (proj2 (@toolCalls_never_present _ _ r H)))
    end.
Defined.

(* ------------------------------------------------------------------ *)
(** ** Behaviour outside the claims *)

(** The loop body reads [event.properties] without the guard that
    [extractSessionId] has: an idle event with no properties bag is
    accepted by the filter and then makes the read of [status] throw. *)
Lemma idle_without_properties_throws :
  accepted "ses_1" {| type := "session.idle"; properties := JUndefined |} = true /\
  fst (run (complete (Sample.options None)
              (Sample.world
                 [Deliver (Some {| type := "session.idle"; properties := JUndefined |})]
                 None None)))
  = Throw (TypeError "Cannot read properties of undefined (reading 'status')").
Proof.
  split; vm_compute; reflexivity.
Qed.

(** A status that is present but falsy ends the loop like an absent one. *)
Lemma null_status_breaks :
  breaks {| type := "session.status";
            properties := JObj [("status", JNull)] |} = true /\
  specTerminal {| type := "session.status";
                  properties := JObj [("status", JNull)] |} = false.
Proof.
  split; vm_compute; reflexivity.
Qed.

(** Two user messages with structured content still produce a part: the
    join of two empty strings is a newline. *)
Lemma structured_messages_join :
  buildParts {| model := None; workspaceDir := "/work";
                messages := Some [ UserMessage (Structured [TextContent "x"]);
                                   UserMessage (Structured [TextContent "y"]) ];
                prompt := None; systemPrompt := None; timeout := None;
                providerConfig := None; abortSignal := None |}
  = [ {| part_text := newline |} ].
Proof.
  vm_compute. reflexivity.
Qed.

(** A status event that reports anything but "idle" keeps the loop going;
    one that reports "idle" ends it. *)
Lemma busy_status_continues :
  breaks (Sample.statusEvent "ses_1" "busy") = false /\
  breaks (Sample.statusEvent "ses_1" "idle") = true /\
  specTerminal (Sample.statusEvent "ses_1" "idle") = true.
Proof.
  repeat split; vm_compute; reflexivity.
Qed.

(** The life of a session manager: [init] makes the two setup calls, the
    first [close] releases the server although its [close] throws, and
    the second [close] finds nothing left to release. *)
Lemma manager_lifecycle :
  let cfg := SessionManager.config Sample.manager in
  let '(r0, m0, calls0) :=
    SessionManager.init (SessionManager.new cfg)
      (Ok {| closeThrows := Some (Error "close failed") |}) (Ok (Some "ses_1")) in
  let '(r1, m1, calls1) := SessionManager.close m0 in
  let '(r2, m2, calls2) := SessionManager.close m1 in
  r0 = Ok "ses_1" /\ m0 = Sample.manager /\
  calls0 = [ CreateOpencode 120000 (Some 4100%Z) []; SessionCreate "/work" ] /\
  r1 = Ok tt /\ calls1 = [ServerClose] /\
  r2 = Ok tt /\ calls2 = [] /\ m2 = SessionManager.new cfg.
Proof.
  vm_compute. repeat split; reflexivity.
Qed.

(** A failed session creation still leaves a manager that [close]
    releases: [init] stores the handle before it asks for the session. *)
Lemma manager_failed_init_releases :
  let '(r0, m0, calls0) :=
    SessionManager.init (SessionManager.new (SessionManager.config Sample.manager))
      (Ok {| closeThrows := None |}) (Ok None) in
  let '(r1, m1, calls1) := SessionManager.close m0 in
  r0 = Throw (Error "Failed to create session") /\
  r1 = Ok tt /\ calls1 = [ServerClose].
Proof.
  vm_compute. repeat split; reflexivity.
Qed.

(* ------------------------------------------------------------------ *)
(** ** More of the loop: usage, isolation, cancellation *)

Lemma lastUsage_cons (init : Usage) (ev : Event) (evs : list Event) :
  More.lastUsage init (ev :: evs) =
  More.lastUsage (match More.usageOf ev with
                  | Some u => u
                  | None => init
                  end) evs.
Proof.
  unfold More.lastUsage, More.usages. simpl.
  destruct (More.usageOf ev) as [u|]; [|reflexivity].
  simpl app. apply last_cons_default.
Qed.

(** What the body does to [usage] on an accepted event. *)
Lemma loopBody_usage (sessionId : string) (ev : Event) (f : Frame) :
  accepted sessionId ev = true ->
  var_usage (snd (loopBody sessionId ev f)) =
  match More.usageOf ev with
  | Some u => u
  | None => var_usage f
  end.
Proof.
  destruct ev as [ty props].
  unfold accepted. rewrite extractSessionId_order.
  intros H. apply negb_true_iff in H.
  unfold loopBody. unfold_m. rewrite extractSessionId_order, H.
  unfold More.usageOf. simpl.
  destruct (String.eqb_spec ty "message.part.updated") as [E1|N1].
  { subst ty. simpl.
    destruct props as [ | | b | n | | s | l | fs ]; simpl; try reflexivity.
    unfold optProp.
    destruct (field "part" fs) as [ | | b | n | | s | l | ps ]; simpl;
      try reflexivity.
    destruct (strictEqStr (field "type" ps) "text"); reflexivity. }
  destruct (String.eqb_spec ty "message.updated") as [E2|N2].
  { subst ty. simpl.
    destruct props as [ | | b | n | | s | l | fs ]; simpl; try reflexivity.
    unfold optProp.
    destruct (field "info" fs) as [ | | b | n | | s | l | gs ]; simpl;
      try reflexivity.
    destruct (strictEqStr (field "role" gs) "assistant"); simpl;
      [|reflexivity].
    destruct (truthy (field "tokens" gs)) eqn:T; [|reflexivity].
    destruct (getProp_truthy (field "tokens" gs) "input" T) as [x Hx].
    destruct (getProp_truthy (field "tokens" gs) "output" T) as [y Hy].
    rewrite Hx, Hy. reflexivity. }
  destruct (String.eqb ty "session.idle" || String.eqb ty "session.status").
  { destruct props as [ | | b | n | | s | l | fs ]; simpl; try reflexivity.
    destruct (truthy (field "status" fs)) eqn:T; simpl; [|reflexivity].
    destruct (getProp_truthy (field "status" fs) "type" T) as [x Hx].
    rewrite Hx. destruct (strictEqStr x "idle"); reflexivity. }
  reflexivity.
Qed.

(** Last write wins for [usage] too. *)
Lemma forAwait_usage (sessionId : string) (its : list StreamItem)
    (fail : option Exn) :
  forall f,
    var_usage (snd (forAwait sessionId its fail f)) =
    More.lastUsage (var_usage f)
                   (processed sessionId (aborted f) (linked f) its).
Proof.
  induction its as [|[[ev|]|] rest IH]; intros f.
  - simpl. destruct fail; reflexivity.
  - rewrite forAwait_deliver. simpl processed.
    destruct (aborted f) eqn:A; [reflexivity|].
    destruct (accepted sessionId ev) eqn:Acc.
    + pose proof (loopBody_frame sessionId ev f) as B. cbv zeta in B.
      pose proof (loopBody_usage sessionId ev f Acc) as U.
      destruct (loopBody_accepted sessionId ev f Acc)
        as [[Hm [e H]] | [[Hm [Hb H]] | [Hm [Hb [f1 [H _]]]]]];
        rewrite H in *; rewrite ?Hm, ?Hb, ?orb_true_r; simpl orb; cbv iota;
        simpl snd in *.
      * rewrite lastUsage_cons, <- U. reflexivity.
      * rewrite lastUsage_cons, <- U. reflexivity.
      * rewrite IH, lastUsage_cons, <- U.
        destruct B as (_ & B2 & B3 & _). rewrite B2, B3, A. reflexivity.
    + rewrite (loopBody_rejected _ _ f Acc). rewrite IH, A. reflexivity.
  - rewrite forAwait_null. simpl processed.
    destruct (aborted f) eqn:A; [reflexivity|].
    rewrite IH, A. reflexivity.
  - rewrite forAwait_abort. simpl processed. rewrite IH. reflexivity.
Qed.

(** X1.  A call that resolves reports the usage of the last accepted
    "message.updated" event of an assistant message that carried token
    counts, among the events it processed, and zero usage when there was
    none.  For counts that are safe integers with a safe sum the total
    is their sum, and a missing count is taken as zero. *)
Theorem usage_last_write_wins (options : CompleteOptions) (w : World)
    (sessionId : string) (stream : EventStream) (r : CompleteResult) :
  sessionCreate w = Ok (Some sessionId) ->
  eventSubscribe w = Ok stream ->
  fst (run (complete options w)) = Ok r ->
  usage r = More.lastUsage
              {| inputTokens := JNum 0; outputTokens := JNum 0;
                 totalTokens := JNum 0 |}
              (processed sessionId (hasSignal options && abortDuringSetup w)
                         (hasSignal options) (items stream))
  /\ (forall sid i o,
        Edge.isSafeInteger i = true ->
        Edge.isSafeInteger o = true ->
        Edge.isSafeInteger (i + o) = true ->
        More.usageOf (Sample.usageEvent sid i o) =
        Some {| inputTokens := JNum i; outputTokens := JNum o;
                totalTokens := JNum (i + o) |})
  /\ (forall sid i,
        Edge.isSafeInteger i = true ->
        More.usageOf
          {| type := "message.updated";
             properties :=
               JObj [("info", JObj [ ("sessionID", JStr sid);
                                     ("role", JStr "assistant");
                                     ("tokens", JObj [("input", JNum i)]) ])] |} =
        Some {| inputTokens := JNum i; outputTokens := JNum 0;
                totalTokens := JNum i |}).
Proof.
  intros Hs He H.
  split; [|split].
  - destruct (complete_ok_inv options w H)
      as (server & sid & st & _ & _ & Hs' & He' & R).
    assert (sid = sessionId) by congruence.
    assert (st = stream) by congruence.
    subst sid st r.
    unfold resultOf. simpl usage. rewrite forAwait_usage. reflexivity.
  - intros; reflexivity.
  - intros sid i _. unfold More.usageOf. simpl.
    unfold jsAdd. simpl. rewrite Z.add_0_r. reflexivity.
Qed.

Lemma usage_last_write_wins_witness :
  exists r,
    fst (run (complete (Sample.options None)
                (Sample.world Cases.usageItems None None))) = Ok r /\
    usage r = {| inputTokens := JNum 10; outputTokens := JNum 5;
                 totalTokens := JNum 15 |}.
Proof.
  eexists. split.
  - vm_compute. reflexivity.
  - match goal with
    | |- usage ?r = _ =>
        assert (H : fst (run (complete (Sample.options None)
                    (Sample.world Cases.usageItems None None))) = Ok r)
          by (vm_compute; reflexivity);
        rewrite (proj1 (@usage_last_write_wins (Sample.options None)
                          (Sample.world Cases.usageItems None None) "ses_1"
                          {| items := Cases.usageItems; failure := None |} r
                          eq_refl eq_refl H))
    end.
    vm_compute. reflexivity.
Defined.

(** X2.  Whatever the stream delivers, a call that resolves reports the
    stop reason "end_turn": nothing in the loop ever assigns another. *)
Theorem stopReason_always_end_turn (options : CompleteOptions) (w : World)
    (r : CompleteResult) :
  fst (run (complete options w)) = Ok r ->
  stopReason r = end_turn.
Proof.
  intros H.
  destruct (complete_ok_inv options w H) as (server & sid & st & _ & _ & _ & _ & R).
  subst r. unfold resultOf. simpl stopReason.
  destruct (forAwait_frame sid (items st) (failure st) (started options w server sid))
    as (_ & _ & _ & _ & _ & S).
  rewrite S. reflexivity.
Qed.

Lemma stopReason_always_end_turn_witness :
  exists r,
    fst (run (complete (Sample.options None)
                (Sample.world Sample.abcItems None None))) = Ok r /\
    stopReason r = end_turn.
Proof.
  eexists. split.
  - vm_compute. reflexivity.
  - match goal with
    | |- stopReason ?r = _ =>
        assert (H : fst (run (complete (Sample.options None)
                    (Sample.world Sample.abcItems None None))) = Ok r)
          by (vm_compute; reflexivity);
        exact (@stopReason_always_end_turn _ _ r H)
    end.
Defined.

(** The loop on a stream and on the same stream without the items that do
    not concern the session: same result, same abort state, and the same
    completion unless the controller is aborted. *)
Lemma forAwait_concerns (sessionId : string) (fail : option Exn) :
  forall (its : list StreamItem) (f : Frame),
    resultOf (snd (forAwait sessionId its fail f)) =
      resultOf (snd (forAwait sessionId (filter (More.concerns sessionId) its) fail f))
    /\ aborted (snd (forAwait sessionId its fail f)) =
       aborted (snd (forAwait sessionId (filter (More.concerns sessionId) its) fail f))
    /\ (fst (forAwait sessionId its fail f) =
          fst (forAwait sessionId (filter (More.concerns sessionId) its) fail f)
        \/ aborted (snd (forAwait sessionId its fail f)) = true).
Proof.
  assert (Skip : forall its f,
             aborted f = true ->
             resultOf f = resultOf (snd (forAwait sessionId its fail f)) /\
             aborted f = aborted (snd (forAwait sessionId its fail f)) /\
             (Ok tt = fst (forAwait sessionId its fail f) \/ aborted f = true)).
  { intros its f A. split; [|split].
    - symmetry. apply forAwait_aborted_result. exact A.
    - rewrite A. symmetry. apply (forAwait_frame sessionId its fail f). exact A.
    - right. exact A. }
  induction its as [|[[ev|]|] rest IH]; intros f.
  - simpl. auto.
  - simpl filter. destruct (accepted sessionId ev) eqn:Acc.
    + rewrite !forAwait_deliver.
      destruct (aborted f) eqn:A; [auto|].
      destruct (loopBody sessionId ev f) as [[[|]|e] f1]; auto.
    + rewrite forAwait_deliver.
      destruct (aborted f) eqn:A.
      * simpl fst. simpl snd. apply Skip. exact A.
      * rewrite (loopBody_rejected _ _ f Acc). apply IH.
  - simpl filter. rewrite forAwait_null.
    destruct (aborted f) eqn:A.
    + simpl fst. simpl snd. apply Skip. exact A.
    + apply IH.
  - simpl filter. rewrite !forAwait_abort. apply IH.
Qed.

(** The completion of a call whose setup fails. *)
Lemma complete_setup_error (options : CompleteOptions) (w : World) (e : Exn) :
  preAborted options = false ->
  More.setupError w = Some e ->
  fst (run (complete options w)) = Throw e.
Proof.
  intros Hp He.
  unfold More.setupError in He.
  unfold run, complete, linkSignal, tryBlock, finallyBlock, closeServer,
    preAborted in *.
  unfold_m.
  destruct (abortSignal options) as [[|]|]; try discriminate; simpl.
  - destruct (createOpencode w) as [server|e1]; simpl; [|congruence].
    destruct (sessionCreate w) as [[sid|]|e2]; simpl.
    + destruct (eventSubscribe w) as [stream|e3]; simpl; [discriminate|].
      destruct (closeThrows server); simpl; congruence.
    + destruct (closeThrows server); simpl; congruence.
    + destruct (closeThrows server); simpl; congruence.
  - destruct (createOpencode w) as [server|e1]; simpl; [|congruence].
    destruct (sessionCreate w) as [[sid|]|e2]; simpl.
    + destruct (eventSubscribe w) as [stream|e3]; simpl; [discriminate|].
      destruct (closeThrows server); simpl; congruence.
    + destruct (closeThrows server); simpl; congruence.
    + destruct (closeThrows server); simpl; congruence.
Qed.




(** X5.  When setup fails (the runtime cannot be created, the session
    call throws or returns no data, or the subscription throws) the call
    throws that very error ("Failed to create session" for missing
    data); no prompt is ever submitted; the server is released exactly
    when it had been created; and no subscription is attempted unless
    the session exists. *)
Theorem setup_failure_propagates (options : CompleteOptions) (w : World) (e : Exn) :
  preAborted options = false ->
  More.setupError w = Some e ->
  fst (run (complete options w)) = Throw e /\
  filter More.isSessionPrompt (trace (snd (run (complete options w)))) = [] /\
  closes (trace (snd (run (complete options w)))) =
    (if isOk (createOpencode w) then 1 else 0) /\
  match sessionCreate w with
  | Ok (Some _) => True
  | _ => filter More.isEventSubscribe (trace (snd (run (complete options w)))) = []
  end.
Proof.
  intros Hp He.
  split; [apply complete_setup_error; assumption|].
  rewrite complete_trace. unfold expectedTrace. rewrite Hp.
  unfold More.setupError in He.
  destruct (createOpencode w) as [server|e1]; simpl.
  - destruct (sessionCreate w) as [[sid|]|e2]; simpl.
    + destruct (eventSubscribe w) as [stream|e3]; [discriminate|].
      repeat split; reflexivity.
    + repeat split; reflexivity.
    + repeat split; reflexivity.
  - destruct (sessionCreate w) as [[sid|]|e2]; repeat split; reflexivity.
Qed.

Lemma setup_failure_propagates_witness :
  fst (run (complete (Sample.options None) Cases.noSessionWorld))
  = Throw (Error "Failed to create session") /\
  closes (trace (snd (run (complete (Sample.options None) Cases.noSessionWorld)))) = 1.
Proof.
  destruct (@setup_failure_propagates (Sample.options None) Cases.noSessionWorld
              (Error "Failed to create session") eq_refl eq_refl)
    as (H1 & _ & H3 & _).
  split; [exact H1 | exact H3].
Defined.






(* ------------------------------------------------------------------ *)
(** ** The session manager's life cycle *)

(** X8.  When [init] gets the runtime but no session, it throws "Failed
    to create session" and yet keeps the client and the close handle: the
    manager has no session id, a further [init] is refused as "already
    initialized" without any remote call, and only [close], which
    releases the server once, makes the manager usable again. *)
Theorem session_init_failure_sticks (this : SessionManager.t) (server : Server)
    (create' : res Server) (session' : res (option string)) :
  SessionManager.client this = false ->
  let '(r1, this1, calls1) := SessionManager.init this (Ok server) (Ok None) in
  let '(r2, this2, calls2) := SessionManager.close this1 in
  r1 = Throw (Error "Failed to create session") /\
  More.getSessionId this1 = SessionManager.sessionId this /\
  More.getClient this1 = true /\
  SessionManager.init this1 create' session' =
    (Throw (Error "SessionManager already initialized"), this1, []) /\
  r2 = Ok tt /\ calls2 = [ServerClose] /\
  this2 = SessionManager.new (SessionManager.config this) /\
  SessionManager.init this2 create' session' =
    SessionManager.init (More.createSessionManager (SessionManager.config this))
                        create' session'.
Proof.
  intros H. unfold SessionManager.init, SessionManager.close. rewrite H. simpl.
  destruct (closeThrows server); repeat split; reflexivity.
Qed.

Lemma session_init_failure_sticks_witness :
  SessionManager.init
    (snd (fst (SessionManager.init
                 (SessionManager.new (SessionManager.config Sample.manager))
                 (Ok {| closeThrows := None |}) (Ok None))))
    (Ok {| closeThrows := None |}) (Ok (Some "ses_2"))
  = (Throw (Error "SessionManager already initialized"),
     snd (fst (SessionManager.init
                 (SessionManager.new (SessionManager.config Sample.manager))
                 (Ok {| closeThrows := None |}) (Ok None))),
     []).
Proof.
  exact (proj1 (proj2 (proj2 (proj2
           (@session_init_failure_sticks
              (SessionManager.new (SessionManager.config Sample.manager))
              {| closeThrows := None |}
              (Ok {| closeThrows := None |}) (Ok (Some "ses_2")) eq_refl))))).
Defined.

Lemma closes_app (a b : list Action) : closes (a ++ b) = closes a + closes b.
Proof.
  unfold closes. rewrite filter_app, length_app. reflexivity.
Qed.

(** One use keeps the balance of servers acquired, released and held. *)
Lemma step_balance (this : SessionManager.t) (op : More.Op) :
  (SessionManager.client this = true <-> More.holdsServer this = 1) ->
  let '(this', calls) := More.step this op in
  (SessionManager.client this' = true <-> More.holdsServer this' = 1) /\
  More.holdsServer this + More.acquires this op =
  closes calls + More.holdsServer this'.
Proof.
  intros I. unfold More.step, More.acquires, More.holdsServer in *.
  destruct op as [create session|].
  - unfold SessionManager.init.
    destruct (SessionManager.client this) eqn:C.
    + simpl. split; [rewrite C; exact I|].
      destruct create; lia.
    + destruct (SessionManager.serverClose this) as [s|] eqn:S.
      { destruct I as [_ I]. specialize (I eq_refl). discriminate. }
      destruct create as [server|e]; simpl.
      * destruct session as [[sid|]|e']; simpl; split;
          try (split; reflexivity); reflexivity.
      * rewrite C, S. split; [split; intros; discriminate | reflexivity].
  - unfold SessionManager.close. simpl.
    split; [split; intros; discriminate|].
    destruct (SessionManager.serverClose this); reflexivity.
Qed.

(** X9.  Over any sequence of [init] and [close] calls, each awaited, on
    a new manager, with any outcomes of the runtime, every server acquired is either
    released by exactly one [server.close] call or still held: none is
    released twice, none is lost, and at most one is held at a time. *)
Theorem session_manager_no_leak (cfg : SessionManager.SessionConfig)
    (ops : list More.Op) :
  let '(this, calls, acquired) := More.runOps (More.createSessionManager cfg) ops in
  acquired = closes calls + More.holdsServer this /\
  More.holdsServer this <= 1 /\
  (More.getClient this = true <-> More.holdsServer this = 1).
Proof.
  assert (G : forall ops this,
             (SessionManager.client this = true <-> More.holdsServer this = 1) ->
             let '(this', calls, n) := More.runOps this ops in
             More.holdsServer this + n = closes calls + More.holdsServer this' /\
             (SessionManager.client this' = true <-> More.holdsServer this' = 1)).
  { clear ops. induction ops as [|op rest IH]; intros this I.
    - simpl. split; [unfold closes; simpl; lia | exact I].
    - simpl. pose proof (step_balance this op I) as B.
      destruct (More.step this op) as [this1 calls1].
      destruct B as [I1 B].
      specialize (IH this1 I1).
      destruct (More.runOps this1 rest) as [[this2 calls2] n].
      destruct IH as [E I2]. split; [|exact I2].
      rewrite closes_app. lia. }
  specialize (G ops (More.createSessionManager cfg)).
  destruct (More.runOps (More.createSessionManager cfg) ops) as [[this calls] n].
  destruct G as [E I].
  { unfold More.createSessionManager, SessionManager.new, More.holdsServer. simpl.
    split; intros; discriminate. }
  change (More.holdsServer (More.createSessionManager cfg)) with 0 in E.
  simpl in E.
  split; [exact E|]. split; [|exact I].
  unfold More.holdsServer. destruct (SessionManager.serverClose this); lia.
Qed.

(* ------------------------------------------------------------------ *)
(** ** Splitting strings *)

Lemma split_nonempty (c : ascii) (s : string) : JsString.split c s <> [].
Proof.
  destruct s as [|d rest]; simpl; [discriminate|].
  destruct (Ascii.eqb d c); [discriminate|].
  destruct (JsString.split c rest); discriminate.
Qed.

Lemma split_length (c : ascii) (s : string) :
  length (JsString.split c s) = S (JsString.occurrences c s).
Proof.
  induction s as [|d rest IH]; [reflexivity|].
  simpl. destruct (Ascii.eqb d c); simpl.
  - rewrite IH. reflexivity.
  - destruct (JsString.split c rest) as [|h t] eqn:E; simpl in *;
      [discriminate | exact IH].
Qed.

(** Joining the pieces with the separator gives the string back. *)
Lemma split_join (c : ascii) (s : string) :
  String.concat (String c "") (JsString.split c s) = s.
Proof.
  induction s as [|d rest IH]; [reflexivity|].
  simpl JsString.split. destruct (Ascii.eqb_spec d c) as [E|N].
  - subst d.
    pose proof (split_nonempty c rest) as NE.
    destruct (JsString.split c rest) as [|h t] eqn:S; [contradiction|].
    change (String.concat (String c "") ("" :: h :: t))
      with (String c (String.concat (String c "") (h :: t))).
    rewrite IH. reflexivity.
  - pose proof (split_nonempty c rest) as NE.
    destruct (JsString.split c rest) as [|h t] eqn:S; [contradiction|].
    destruct t as [|h' t']; simpl in *; rewrite <- IH; reflexivity.
Qed.

Lemma split_none (c : ascii) (s : string) :
  JsString.occurrences c s = 0 -> JsString.split c s = [s].
Proof.
  induction s as [|d rest IH]; [reflexivity|].
  simpl. destruct (Ascii.eqb d c); [discriminate|].
  simpl. intros H. rewrite (IH H). reflexivity.
Qed.

Lemma split_app_sep (c : ascii) (p rest : string) :
  JsString.occurrences c p = 0 ->
  JsString.split c (p ++ String c rest) = p :: JsString.split c rest.
Proof.
  induction p as [|d p IH]; intros H.
  - simpl. rewrite Ascii.eqb_refl. reflexivity.
  - simpl in *. destruct (Ascii.eqb d c); [discriminate|].
    rewrite (IH H). reflexivity.
Qed.

Lemma occurrences_app (c : ascii) (a b : string) :
  JsString.occurrences c (a ++ b) =
  JsString.occurrences c a + JsString.occurrences c b.
Proof.
  induction a as [|d a IH]; [reflexivity|].
  simpl. rewrite IH. lia.
Qed.

Lemma parseModelPath_some (path prov modelId : string) :
  Models.parseModelPath path = Some (prov, modelId) ->
  JsString.split JsString.slash path = [prov; modelId].
Proof.
  unfold Models.parseModelPath.
  destruct (JsString.split JsString.slash path) as [|a [|b [|c t]]];
    intros H; try discriminate.
  inversion H. reflexivity.
Qed.

(* ------------------------------------------------------------------ *)
(** ** Model paths *)

(** X10.  Formatting a provider and a model id and parsing the result
    gives the two back exactly when neither contains a slash. *)
Theorem parse_format_roundtrip (prov modelId : string) :
  Models.parseModelPath (Models.formatModelPath prov modelId) = Some (prov, modelId)
  <-> JsString.occurrences JsString.slash prov = 0 /\
      JsString.occurrences JsString.slash modelId = 0.
Proof.
  unfold Models.formatModelPath.
  change ("/" ++ modelId)%string with (String JsString.slash modelId).
  split.
  - intros H. apply parseModelPath_some in H.
    pose proof (split_length JsString.slash (prov ++ String JsString.slash modelId)) as L.
    rewrite H, occurrences_app in L. simpl in L.
    rewrite ?Ascii.eqb_refl in L. lia.
  - intros [Hp Hm]. unfold Models.parseModelPath.
    rewrite (@split_app_sep _ _ modelId Hp), (@split_none _ _ Hm). reflexivity.
Qed.

(** X11.  [parseModelPath] succeeds exactly on the paths with one slash,
    and then formatting the two parts gives the path back; neither part
    contains a slash. *)
Theorem format_parse_roundtrip (path : string) :
  (Models.parseModelPath path = None <->
   JsString.occurrences JsString.slash path <> 1) /\
  forall prov modelId,
    Models.parseModelPath path = Some (prov, modelId) ->
    Models.formatModelPath prov modelId = path /\
    JsString.occurrences JsString.slash prov = 0 /\
    JsString.occurrences JsString.slash modelId = 0.
Proof.
  split.
  - unfold Models.parseModelPath.
    pose proof (split_length JsString.slash path) as L.
    destruct (JsString.split JsString.slash path) as [|a [|b [|c t]]];
      simpl in L; split; intros H; try discriminate; try reflexivity; try lia.
  - intros prov modelId H. apply parseModelPath_some in H.
    pose proof (split_join JsString.slash path) as J.
    pose proof (split_length JsString.slash path) as L.
    rewrite H in J, L. simpl in J, L.
    assert (E : Models.formatModelPath prov modelId = path) by exact J.
    split; [exact E|].
    rewrite <- E in L. unfold Models.formatModelPath in L.
    rewrite occurrences_app in L.
    change ("/" ++ modelId)%string with (String JsString.slash modelId) in L.
    simpl in L. rewrite ?Ascii.eqb_refl in L. lia.
Qed.

(* ------------------------------------------------------------------ *)
(** ** Insertion-ordered maps *)

Lemma get_set_same {V} (k : string) (v : V) (m : JsMap.t V) :
  JsMap.get k (JsMap.set k v m) = Some v.
Proof.
  induction m as [|[k' v'] m IH]; simpl.
  - rewrite String.eqb_refl. reflexivity.
  - destruct (String.eqb k k') eqn:E; simpl; rewrite ?String.eqb_refl, ?E; auto.
Qed.

Lemma get_set_other {V} (k k' : string) (v : V) (m : JsMap.t V) :
  k <> k' -> JsMap.get k' (JsMap.set k v m) = JsMap.get k' m.
Proof.
  intros N. induction m as [|[k0 v0] m IH]; simpl.
  - destruct (String.eqb_spec k' k); [congruence | reflexivity].
  - destruct (String.eqb_spec k k0) as [E|E]; simpl.
    + subst k0. destruct (String.eqb_spec k' k); [congruence | reflexivity].
    + destruct (String.eqb k' k0); auto.
Qed.

Lemma get_none_keys {V} (k : string) (m : JsMap.t V) :
  JsMap.get k m = None <-> ~ In k (JsMap.keys m).
Proof.
  induction m as [|[k' v'] m IH]; simpl.
  - split; auto.
  - destruct (String.eqb_spec k k') as [E|E].
    + split; [discriminate | intros H; exfalso; apply H; left; congruence].
    + rewrite IH. split.
      * intros H [H'|H']; [congruence | contradiction].
      * intros H H'. apply H. right. exact H'.
Qed.

(** [set] leaves the order alone for a key that is present and puts a
    new key last. *)
Lemma keys_set {V} (k : string) (v : V) (m : JsMap.t V) :
  JsMap.keys (JsMap.set k v m) =
  match JsMap.get k m with
  | Some _ => JsMap.keys m
  | None => JsMap.keys m ++ [k]
  end.
Proof.
  induction m as [|[k' v'] m IH]; simpl; [reflexivity|].
  destruct (String.eqb_spec k k') as [E|E]; simpl.
  - subst. reflexivity.
  - unfold JsMap.keys in *. rewrite IH.
    destruct (JsMap.get k m); reflexivity.
Qed.

Lemma NoDup_app_one {A} (l : list A) (a : A) :
  NoDup l -> ~ In a l -> NoDup (l ++ [a]).
Proof.
  induction l as [|b l IH]; intros N H; simpl.
  - constructor; [intros [] | constructor].
  - inversion N as [|? ? Nb Nl]; subst. constructor.
    + rewrite in_app_iff. intros [H'|[H'|[]]]; [contradiction|].
      subst. apply H. left. reflexivity.
    + apply IH; [exact Nl|]. intros H'. apply H. right. exact H'.
Qed.

Lemma keys_set_NoDup {V} (k : string) (v : V) (m : JsMap.t V) :
  NoDup (JsMap.keys m) -> NoDup (JsMap.keys (JsMap.set k v m)).
Proof.
  intros N. rewrite keys_set.
  destruct (JsMap.get k m) eqn:G; [exact N|].
  apply NoDup_app_one; [exact N|]. apply get_none_keys. exact G.
Qed.

Lemma keys_delete_subset {V} (k k' : string) (m : JsMap.t V) :
  In k' (JsMap.keys (JsMap.delete k m)) -> In k' (JsMap.keys m).
Proof.
  induction m as [|[k0 v0] m IH]; simpl; [auto|].
  destruct (String.eqb k k0); simpl.
  - intros H. right. exact H.
  - intros [H|H]; [left; exact H | right; apply IH; exact H].
Qed.

Lemma keys_delete_NoDup {V} (k : string) (m : JsMap.t V) :
  NoDup (JsMap.keys m) -> NoDup (JsMap.keys (JsMap.delete k m)).
Proof.
  induction m as [|[k0 v0] m IH]; simpl; intros N; [exact N|].
  inversion N as [|? ? N0 Nm]; subst.
  destruct (String.eqb k k0); simpl; [exact Nm|].
  constructor; [|apply IH; exact Nm].
  intros H. apply N0. apply (keys_delete_subset k k0 m H).
Qed.

Lemma get_delete_same {V} (k : string) (m : JsMap.t V) :
  NoDup (JsMap.keys m) -> JsMap.get k (JsMap.delete k m) = None.
Proof.
  induction m as [|[k0 v0] m IH]; simpl; intros N; [reflexivity|].
  inversion N as [|? ? N0 Nm]; subst.
  destruct (String.eqb_spec k k0) as [E|E]; simpl.
  - subst. apply get_none_keys. exact N0.
  - destruct (String.eqb_spec k k0); [contradiction|]. apply IH. exact Nm.
Qed.

Lemma get_delete_other {V} (k k' : string) (m : JsMap.t V) :
  k <> k' -> JsMap.get k' (JsMap.delete k m) = JsMap.get k' m.
Proof.
  intros N. induction m as [|[k0 v0] m IH]; simpl; [reflexivity|].
  destruct (String.eqb_spec k k0) as [E|E]; simpl.
  - subst k0. destruct (String.eqb_spec k' k); [congruence | reflexivity].
  - destruct (String.eqb k' k0); auto.
Qed.

Lemma get_in {V} (k : string) (v : V) (m : JsMap.t V) :
  JsMap.get k m = Some v -> In (k, v) m.
Proof.
  induction m as [|[k0 v0] m IH]; simpl; [discriminate|].
  destruct (String.eqb_spec k k0) as [E|E].
  - intros H. inversion H. subst. left. reflexivity.
  - intros H. right. apply IH. exact H.
Qed.

Lemma in_get {V} (k : string) (v : V) (m : JsMap.t V) :
  NoDup (JsMap.keys m) -> In (k, v) m -> JsMap.get k m = Some v.
Proof.
  induction m as [|[k0 v0] m IH]; simpl; intros N H; [contradiction|].
  inversion N as [|? ? N0 Nm]; subst.
  destruct H as [H|H].
  - inversion H. subst. rewrite String.eqb_refl. reflexivity.
  - destruct (String.eqb_spec k k0) as [E|E].
    + subst. exfalso. apply N0. apply (in_map fst) in H. exact H.
    + apply IH; assumption.
Qed.

(* ------------------------------------------------------------------ *)
(** ** The model registry *)

Lemma values_set {V} (k : string) (v : V) (m : JsMap.t V) :
  JsMap.get k m = None -> JsMap.values (JsMap.set k v m) = JsMap.values m ++ [v].
Proof.
  induction m as [|[k' v'] m IH]; simpl; [reflexivity|].
  destruct (String.eqb k k'); [discriminate|].
  intros H. simpl. unfold JsMap.values in *. rewrite (IH H). reflexivity.
Qed.

Lemma length_set {V} (k : string) (v : V) (m : JsMap.t V) :
  length (JsMap.set k v m) =
  match JsMap.get k m with
  | Some _ => length m
  | None => S (length m)
  end.
Proof.
  induction m as [|[k' v'] m IH]; simpl; [reflexivity|].
  destruct (String.eqb k k'); simpl; [reflexivity|].
  rewrite IH. destruct (JsMap.get k m); reflexivity.
Qed.

Lemma Forall_set {V} (P : string * V -> Prop) (k : string) (v : V) (m : JsMap.t V) :
  Forall P m -> P (k, v) -> Forall P (JsMap.set k v m).
Proof.
  induction m as [|[k' v'] m IH]; simpl; intros F H.
  - constructor; [exact H | constructor].
  - inversion F as [|? ? F0 Fm]; subst.
    destruct (String.eqb k k'); constructor; auto.
Qed.

(** Every entry is filed under its model's id, and no id is filed twice. *)
Lemma setAll_inv (ms : list Models.Model) :
  forall m,
    NoDup (JsMap.keys m) /\ Forall (fun kv => fst kv = Models.id (snd kv)) m ->
    NoDup (JsMap.keys (Models.setAll ms m)) /\
    Forall (fun kv => fst kv = Models.id (snd kv)) (Models.setAll ms m).
Proof.
  induction ms as [|x ms IH]; intros m [N F]; [split; assumption|].
  unfold Models.setAll in *. simpl. apply IH. split.
  - apply keys_set_NoDup. exact N.
  - apply Forall_set; [exact F | reflexivity].
Qed.

Lemma reachable_inv (m : Models.ModelRegistry) :
  Models.reachable m ->
  NoDup (JsMap.keys m) /\ Forall (fun kv => fst kv = Models.id (snd kv)) m.
Proof.
  induction 1 as [initialModels | x m R [N F]].
  - unfold Models.createModelRegistry.
    assert (D : NoDup (JsMap.keys (Models.setAll Models.DEFAULT_MODELS JsMap.empty)) /\
                Forall (fun kv => fst kv = Models.id (snd kv))
                       (Models.setAll Models.DEFAULT_MODELS JsMap.empty)).
    { apply setAll_inv. split; constructor. }
    destruct initialModels as [ms|]; [apply setAll_inv|]; exact D.
  - unfold Models.add. split.
    + apply keys_set_NoDup. exact N.
    + apply Forall_set; [exact F | reflexivity].
Qed.

Lemma find_app {A} (f : A -> bool) (l1 l2 : list A) :
  find f (l1 ++ l2) = match find f l1 with
                      | Some a => Some a
                      | None => find f l2
                      end.
Proof.
  induction l1 as [|a l1 IH]; simpl; [reflexivity|].
  destruct (f a); [reflexivity | exact IH].
Qed.

Lemma get_setAll (i : string) (ms : list Models.Model) :
  forall m,
    JsMap.get i (Models.setAll ms m) =
    match Models.lastWithId i ms with
    | Some x => Some x
    | None => JsMap.get i m
    end.
Proof.
  induction ms as [|x ms IH]; intros m; [reflexivity|].
  unfold Models.setAll in *. simpl fold_left. rewrite IH.
  unfold Models.lastWithId. simpl rev. rewrite find_app.
  destruct (find (fun m0 => String.eqb (Models.id m0) i) (rev ms)); [reflexivity|].
  simpl. destruct (String.eqb_spec (Models.id x) i) as [E|E].
  - subst i. apply get_set_same.
  - apply get_set_other. exact E.
Qed.

(** X12.  Models passed to [createModelRegistry] override the defaults:
    a lookup gives the last initial model with that id, and falls back
    to the default catalog only when no initial model has it. *)
Theorem registry_initial_overrides (ms : list Models.Model) (i : string) :
  Models.get i (Models.createModelRegistry (Some ms)) =
  match Models.lastWithId i ms with
  | Some x => Some x
  | None => Models.get i (Models.createModelRegistry None)
  end.
Proof.
  unfold Models.get, Models.createModelRegistry. apply get_setAll.
Qed.

(** X13.  [add] then [get]: the model added is what its id finds, other
    ids find what they found before, a model with a new id goes to the
    end of the list, and one with a known id takes the place of the old
    one without lengthening the list. *)
Theorem registry_add_get (x : Models.Model) (m : Models.ModelRegistry) (i : string) :
  Models.get (Models.id x) (Models.add x m) = Some x /\
  (i <> Models.id x -> Models.get i (Models.add x m) = Models.get i m) /\
  (Models.get (Models.id x) m = None ->
   Models.list (Models.add x m) = Models.list m ++ [x]) /\
  length (Models.list (Models.add x m)) =
    match Models.get (Models.id x) m with
    | Some _ => length (Models.list m)
    | None => S (length (Models.list m))
    end.
Proof.
  unfold Models.get, Models.add, Models.list.
  split; [apply get_set_same|]. split; [|split].
  - intros N. apply get_set_other. congruence.
  - apply values_set.
  - unfold JsMap.values. rewrite !length_map. apply length_set.
Qed.

Lemma provider_eqb_eq (p q : Models.KnownProvider) :
  Models.provider_eqb p q = true <-> p = q.
Proof.
  destruct p, q; simpl; split; intros H; try reflexivity; try discriminate.
Qed.

Lemma keys_are_ids (m : Models.ModelRegistry) :
  Forall (fun kv => fst kv = Models.id (snd kv)) m ->
  map Models.id (JsMap.values m) = JsMap.keys m.
Proof.
  induction 1 as [|[k v] m H F IH]; [reflexivity|].
  simpl in *. rewrite IH, H. reflexivity.
Qed.

(** X14.  In every registry a program can hold, no two listed models
    share an id; [get] finds exactly the listed model with that id; and
    [listByProvider] gives exactly the listed models of that provider. *)
Theorem registry_ids_unique (m : Models.ModelRegistry) (i : string)
    (x : Models.Model) (p : Models.KnownProvider) :
  Models.reachable m ->
  NoDup (map Models.id (Models.list m)) /\
  (Models.get i m = Some x <-> In x (Models.list m) /\ Models.id x = i) /\
  (In x (Models.listByProvider p m) <->
   In x (Models.list m) /\ Models.provider x = p).
Proof.
  intros R. destruct (reachable_inv R) as [N F].
  unfold Models.list, Models.get, Models.listByProvider.
  split; [rewrite (keys_are_ids F); exact N|]. split.
  - split.
    + intros G. apply get_in in G.
      split.
      * apply (in_map snd) in G. exact G.
      * rewrite Forall_forall in F. symmetry. apply (F _ G).
    + intros [I E]. unfold JsMap.values in I. apply in_map_iff in I.
      destruct I as [[k v] [Ev Ikv]]. simpl in Ev. subst v.
      assert (k = i).
      { rewrite Forall_forall in F. rewrite <- E. apply (F _ Ikv). }
      subst k. apply in_get; assumption.
  - rewrite filter_In, provider_eqb_eq. reflexivity.
Qed.

Lemma registry_ids_unique_witness :
  NoDup (map Models.id (Models.list (Models.createModelRegistry None))).
Proof.
  exact (proj1 (@registry_ids_unique (Models.createModelRegistry None) ""
                  Cases.routedModel Models.anthropic
                  (Models.reach_create None))).
Defined.

(** What the scan over all models can find is already found under the
    model id. *)
Lemma scan_finds_known (m : Models.ModelRegistry) (prov modelId : string)
    (y : Models.Model) :
  NoDup (JsMap.keys m) ->
  Forall (fun kv => fst kv = Models.id (snd kv)) m ->
  find (fun x => String.eqb (Models.providerName (Models.provider x)) prov
                 && String.eqb (Models.id x) modelId) (JsMap.values m) = Some y ->
  JsMap.get modelId m = Some y /\
  String.eqb (Models.providerName (Models.provider y)) prov = true.
Proof.
  intros N F H. apply find_some in H. destruct H as [I E].
  apply andb_true_iff in E. destruct E as [E1 E2].
  apply String.eqb_eq in E2.
  unfold JsMap.values in I. apply in_map_iff in I.
  destruct I as [[k v] [Ev Ikv]]. simpl in Ev. subst v.
  assert (k = modelId).
  { rewrite Forall_forall in F. rewrite <- E2. apply (F _ Ikv). }
  subst k. split; [apply in_get; assumption | exact E1].
Qed.

Lemma get_id (m : Models.ModelRegistry) (i : string) (x : Models.Model) :
  Forall (fun kv => fst kv = Models.id (snd kv)) m ->
  JsMap.get i m = Some x -> Models.id x = i.
Proof.
  intros F G. apply get_in in G. rewrite Forall_forall in F.
  symmetry. apply (F _ G).
Qed.

(** X15.  In every registry a program can hold, [getByPath] on a path of
    the form provider/id gives the model filed under that id when its
    provider is the one named, and otherwise looks the whole path up as
    an id, as it does for every other path: the scan over all models
    never finds anything more.  So a model it returns has the path as
    its id or as its provider/id form. *)
Theorem getByPath_spec (m : Models.ModelRegistry) (path : string) :
  Models.reachable m ->
  Models.getByPath path m =
    match Models.parseModelPath path with
    | Some (prov, modelId) =>
        match Models.get modelId m with
        | Some x =>
            if String.eqb (Models.providerName (Models.provider x)) prov
            then Some x
            else Models.get path m
        | None => Models.get path m
        end
    | None => Models.get path m
    end /\
  forall x,
    Models.getByPath path m = Some x ->
    Models.id x = path \/
    Models.formatModelPath (Models.providerName (Models.provider x)) (Models.id x)
    = path.
Proof.
  intros R. destruct (reachable_inv R) as [N F].
  assert (S : Models.getByPath path m =
              match Models.parseModelPath path with
              | Some (prov, modelId) =>
                  match Models.get modelId m with
                  | Some x =>
                      if String.eqb (Models.providerName (Models.provider x)) prov
                      then Some x
                      else Models.get path m
                  | None => Models.get path m
                  end
              | None => Models.get path m
              end).
  { unfold Models.getByPath, Models.parseModelPath, Models.get.
    destruct (JsString.split JsString.slash path) as [|a [|b [|c t]]];
      try reflexivity.
    destruct (find (fun x => String.eqb (Models.providerName (Models.provider x)) a
                             && String.eqb (Models.id x) b) (JsMap.values m))
      as [y|] eqn:Fd.
    - destruct (@scan_finds_known m a b y N F Fd) as [G E].
      rewrite G, E. reflexivity.
    - reflexivity. }
  split; [exact S|].
  intros x H. rewrite S in H.
  destruct (Models.parseModelPath path) as [[prov modelId]|] eqn:P.
  - unfold Models.get in H.
    destruct (JsMap.get modelId m) as [y|] eqn:G.
    + destruct (String.eqb_spec (Models.providerName (Models.provider y)) prov) as [E|E].
      * inversion H. subst y. right.
        rewrite (@get_id m modelId x F G), E.
        apply parseModelPath_some in P.
        pose proof (split_join JsString.slash path) as J.
        rewrite P in J. exact J.
      * left. apply (@get_id m path x F H).
    + left. apply (@get_id m path x F H).
  - left. apply (@get_id m path x F H).
Qed.

Lemma getByPath_spec_witness :
  Models.getByPath "openai/gpt-4o" (Models.createModelRegistry None) =
  Models.get "gpt-4o" (Models.createModelRegistry None)
  /\ Models.getByPath "openai/gpt-4o"
       (Models.add Cases.routedModel (Models.createModelRegistry None)) = None.
Proof.
  split.
  - rewrite (proj1 (@getByPath_spec (Models.createModelRegistry None) "openai/gpt-4o"
                      (Models.reach_create None))).
    vm_compute. reflexivity.
  - vm_compute. reflexivity.
Defined.

(** X16.  For every provider, [getDefaultModel] gives the first model of
    that provider that a registry of the defaults lists, a model of that
    provider which the registry finds under its id and under its
    provider/id path; it gives nothing exactly for the providers the
    registry lists no model of. *)
Theorem default_model_is_registered (p : Models.KnownProvider) :
  Models.getDefaultModel p =
    hd_error (Models.listByProvider p (Models.createModelRegistry None)) /\
  match Models.getDefaultModel p with
  | Some x =>
      Models.provider x = p /\
      Models.get (Models.id x) (Models.createModelRegistry None) = Some x /\
      Models.getByPath
        (Models.formatModelPath (Models.providerName p) (Models.id x))
        (Models.createModelRegistry None) = Some x
  | None => Models.listByProvider p (Models.createModelRegistry None) = []
  end.
Proof.
  destruct p; vm_compute; repeat split; reflexivity.
Qed.

(* ------------------------------------------------------------------ *)
(** ** The in-memory credential store *)

Lemma store_NoDup (store : Auth.Store) :
  Auth.reachable store -> NoDup (JsMap.keys store).
Proof.
  induction 1 as [|k v s R IH|k s R IH].
  - constructor.
  - apply keys_set_NoDup. exact IH.
  - apply keys_delete_NoDup. exact IH.
Qed.

(** X17.  The in-memory store reads back what was written: after [set]
    the key holds the value, after [delete] it holds nothing, and either
    leaves every other key as it was. *)
Theorem memory_store_laws (store : Auth.Store) (k k' v : string) :
  Auth.reachable store ->
  Auth.get k (Auth.set k v store) = Some v /\
  Auth.get k (Auth.delete k store) = None /\
  (k <> k' ->
   Auth.get k' (Auth.set k v store) = Auth.get k' store /\
   Auth.get k' (Auth.delete k store) = Auth.get k' store).
Proof.
  intros R. unfold Auth.get, Auth.set, Auth.delete.
  split; [apply get_set_same|]. split.
  - apply get_delete_same. apply store_NoDup. exact R.
  - intros N. split; [apply get_set_other | apply get_delete_other]; exact N.
Qed.

Lemma memory_store_laws_witness :
  Auth.get "openai_api_key"
    (Auth.delete "openai_api_key"
       (Auth.set "openai_api_key" "sk-2"
          (Auth.set "openai_api_key" "sk-1" Auth.createMemoryAuthStorage))) = None.
Proof.
  exact (proj1 (proj2
           (@memory_store_laws
              (Auth.set "openai_api_key" "sk-2"
                 (Auth.set "openai_api_key" "sk-1" Auth.createMemoryAuthStorage))
              "openai_api_key" "other" "unused"
              (Auth.reach_set _ _ (Auth.reach_set _ _ Auth.reach_fresh))))).
Defined.

(** [delete] takes the key out and leaves the others in their order. *)
Lemma keys_delete {V} (k : string) (m : JsMap.t V) :
  NoDup (JsMap.keys m) ->
  JsMap.keys (JsMap.delete k m) =
  filter (fun k' => negb (String.eqb k k')) (JsMap.keys m).
Proof.
  induction m as [|[k0 v0] m IH]; simpl; intros N; [reflexivity|].
  inversion N as [|? ? N0 Nm]; subst.
  destruct (String.eqb_spec k k0) as [E|E]; simpl.
  - subst k0. clear IH N.
    induction m as [|[k1 v1] m IH]; simpl; [reflexivity|].
    simpl in N0.
    destruct (String.eqb_spec k k1) as [E1|E1].
    + exfalso. apply N0. left. symmetry. exact E1.
    + simpl. f_equal. apply IH.
      * intros H. apply N0. right. exact H.
      * inversion Nm; assumption.
  - f_equal. apply IH. exact Nm.
Qed.

(** X18.  [list] of the in-memory store names each key once, exactly the
    keys that hold a value, in the order they were first set: writing a
    key again leaves the list as it is, a new key goes last, and
    deleting a key takes it out and leaves the others in their order. *)
Theorem memory_store_list (store : Auth.Store) (k v : string) :
  Auth.reachable store ->
  NoDup (Auth.list store) /\
  (In k (Auth.list store) <-> Auth.get k store <> None) /\
  Auth.list (Auth.set k v store) =
    (match Auth.get k store with
     | Some _ => Auth.list store
     | None => Auth.list store ++ [k]
     end) /\
  ~ In k (Auth.list (Auth.delete k store)) /\
  Auth.list (Auth.delete k store) =
    filter (fun k' => negb (String.eqb k k')) (Auth.list store).
Proof.
  intros R. pose proof (store_NoDup R) as N.
  unfold Auth.list, Auth.get, Auth.set, Auth.delete.
  split; [exact N|]. split; [|split; [|split]].
  - split.
    + intros I G. apply get_none_keys in G. contradiction.
    + intros G. destruct (in_dec string_dec k (JsMap.keys store)) as [I|I];
        [exact I|]. exfalso. apply G. apply get_none_keys. exact I.
  - apply keys_set.
  - apply get_none_keys. apply get_delete_same. exact N.
  - apply keys_delete. exact N.
Qed.

Lemma memory_store_list_witness :
  Auth.list (Auth.delete "b"
               (Auth.set "c" "3" (Auth.set "b" "2" (Auth.set "a" "1"
                  Auth.createMemoryAuthStorage)))) = ["a"; "c"].
Proof.
  rewrite (proj2 (proj2 (proj2 (proj2
             (@memory_store_list
                (Auth.set "c" "3" (Auth.set "b" "2" (Auth.set "a" "1"
                   Auth.createMemoryAuthStorage)))
                "b" "unused"
                (Auth.reach_set _ _ (Auth.reach_set _ _
                   (Auth.reach_set _ _ Auth.reach_fresh)))))))).
  vm_compute. reflexivity.
Defined.

(* ------------------------------------------------------------------ *)
(** ** [getApiKey] *)

Lemma firstValue_total (g : string -> option string) (ps : list string) :
  (forall v, Auth.firstValue (fun k => Ok (g k)) ps = Ok (Some v) ->
             v <> "" /\ exists k, In k ps /\ g k = Some v) /\
  (Auth.firstValue (fun k => Ok (g k)) ps = Ok None <->
   forall k, In k ps -> g k = None \/ g k = Some "") /\
  (exists r, Auth.firstValue (fun k => Ok (g k)) ps = Ok r).
Proof.
  induction ps as [|p ps (IH1 & IH2 & IH3)]; simpl.
  - split; [intros v H; discriminate|]. split; [|eexists; reflexivity].
    split; [intros _ k [] | reflexivity].
  - unfold nonEmpty.
    destruct (g p) as [v0|] eqn:G.
    + destruct (String.eqb_spec v0 "") as [E|E]; simpl.
      * subst v0. split; [|split; [|exact IH3]].
        { intros v H. destruct (IH1 v H) as [N [k [I Gk]]].
          split; [exact N|]. exists k. split; [right; exact I | exact Gk]. }
        { rewrite IH2. split.
          - intros H k [K|K]; [subst k; right; exact G | apply H; exact K].
          - intros H k K. apply H. right. exact K. }
      * split; [|split; [|eexists; reflexivity]].
        { intros v H. inversion H. subst v0. split; [exact E|].
          exists p. split; [left; reflexivity | exact G]. }
        { split; [discriminate|].
          intros H. destruct (H p (or_introl eq_refl)) as [K|K]; congruence. }
    + split; [|split; [|exact IH3]].
      * intros v H. destruct (IH1 v H) as [N [k [I Gk]]].
        split; [exact N|]. exists k. split; [right; exact I | exact Gk].
      * rewrite IH2. split.
        { intros H k [K|K]; [subst k; left; exact G | apply H; exact K]. }
        { intros H k K. apply H. right. exact K. }
Qed.

(** X19.  On a storage whose reads do not fail, [getApiKey] never fails
    and never returns an empty string: a key it returns is the non-empty
    value of one of the four names it tries, and it returns nothing
    exactly when each of the four is absent or empty. *)
Theorem getApiKey_sound (toUpperCase : string -> string)
    (g : string -> option string) (provider : string) :
  (forall v,
     Auth.getApiKey toUpperCase (fun k => Ok (g k)) provider = Ok (Some v) ->
     v <> "" /\
     exists k, In k (Auth.patterns toUpperCase provider) /\ g k = Some v) /\
  (Auth.getApiKey toUpperCase (fun k => Ok (g k)) provider = Ok None <->
   forall k, In k (Auth.patterns toUpperCase provider) ->
             g k = None \/ g k = Some "") /\
  (exists r, Auth.getApiKey toUpperCase (fun k => Ok (g k)) provider = Ok r).
Proof.
  unfold Auth.getApiKey. apply firstValue_total.
Qed.

(** X20.  The name provider_api_key comes first: once a non-empty key is
    stored under it in the in-memory store, [getApiKey] returns that key
    whatever else the store holds; and if the read of that first name
    fails, [getApiKey] fails with the same error without trying the
    other names. *)
Theorem getApiKey_first_name_wins (toUpperCase : string -> string)
    (store : Auth.Store) (provider v : string)
    (failing : string -> res (option string)) (e : Exn) :
  v <> "" ->
  failing (provider ++ "_api_key")%string = Throw e ->
  Auth.getApiKey toUpperCase
    (fun k => Ok (Auth.get k (Auth.set (provider ++ "_api_key")%string v store)))
    provider = Ok (Some v) /\
  Auth.getApiKey toUpperCase failing provider = Throw e.
Proof.
  intros N F. unfold Auth.getApiKey, Auth.patterns. simpl.
  unfold Auth.get, Auth.set. rewrite get_set_same, F.
  unfold nonEmpty. destruct (String.eqb_spec v ""); [contradiction|].
  split; reflexivity.
Qed.

Lemma getApiKey_first_name_wins_witness :
  Auth.getApiKey (fun s => s)
    (fun k => Ok (Auth.get k (Auth.set "openai_api_key" "sk-1"
                                (Auth.set "openai" "sk-0"
                                   Auth.createMemoryAuthStorage))))
    "openai" = Ok (Some "sk-1").
Proof.
  exact (proj1 (@getApiKey_first_name_wins (fun s => s)
                  (Auth.set "openai" "sk-0" Auth.createMemoryAuthStorage)
                  "openai" "sk-1"
                  (fun _ => Throw (Error "unreadable")) (Error "unreadable")
                  ltac:(discriminate) eq_refl)).
Defined.

(* ------------------------------------------------------------------ *)
(** ** Formatting skills *)

Lemma append_assoc (a b c : string) : ((a ++ b) ++ c = a ++ (b ++ c))%string.
Proof.
  induction a as [|x a IH]; simpl; [reflexivity|]. rewrite IH. reflexivity.
Qed.

Lemma concat_app (sep : string) (l1 l2 : list string) :
  l1 <> [] -> l2 <> [] ->
  String.concat sep (l1 ++ l2) =
  (String.concat sep l1 ++ sep ++ String.concat sep l2)%string.
Proof.
  intros N1 N2. induction l1 as [|a l1 IH]; [contradiction|].
  destruct l1 as [|b l1].
  - simpl app. destruct l2 as [|c l2]; [contradiction|]. reflexivity.
  - change (String.concat sep ((a :: b :: l1) ++ l2))
      with (a ++ sep ++ String.concat sep ((b :: l1) ++ l2))%string.
    rewrite IH by discriminate.
    change (String.concat sep (a :: b :: l1))
      with (a ++ sep ++ String.concat sep (b :: l1))%string.
    rewrite !append_assoc. reflexivity.
Qed.

(** X21.  [formatSkillsForPrompt] gives the empty string exactly for no
    skills; and the text for two non-empty lists of skills put together
    is the text for the first, the separator, and the sections of the
    second: one header, whatever the number of skills. *)
Theorem formatSkills_compose (a b : list Skills.Skill) :
  a <> [] -> b <> [] ->
  Skills.formatSkillsForPrompt (a ++ b) =
    (Skills.formatSkillsForPrompt a ++ Skills.separator
     ++ String.concat Skills.separator (map Skills.formatSkill b))%string /\
  Skills.formatSkillsForPrompt b =
    (Skills.header ++ String.concat Skills.separator (map Skills.formatSkill b))%string /\
  (forall l, Skills.formatSkillsForPrompt l = "" <-> l = []).
Proof.
  intros Na Nb. split; [|split].
  - unfold Skills.formatSkillsForPrompt.
    destruct a as [|x a]; [contradiction|]. simpl app.
    change (x :: a ++ b) with ((x :: a) ++ b).
    rewrite map_app, concat_app; [| discriminate | destruct b; [contradiction | discriminate]].
    rewrite append_assoc. reflexivity.
  - unfold Skills.formatSkillsForPrompt. destruct b; [contradiction | reflexivity].
  - intros l. unfold Skills.formatSkillsForPrompt, Skills.header.
    destruct l; split; intros H; try reflexivity; discriminate.
Qed.

Lemma formatSkills_compose_witness :
  Skills.formatSkillsForPrompt ([Cases.commitSkill] ++ [Cases.reviewSkill]) =
  (Skills.formatSkillsForPrompt [Cases.commitSkill] ++ Skills.separator
   ++ String.concat Skills.separator (map Skills.formatSkill [Cases.reviewSkill]))%string.
Proof.
  exact (proj1 (@formatSkills_compose [Cases.commitSkill] [Cases.reviewSkill]
                  ltac:(discriminate) ltac:(discriminate))).
Defined.

(* ------------------------------------------------------------------ *)
(** ** What the stream cannot change *)


(* ------------------------------------------------------------------ *)
(** ** Calls on streams and prompts that may stay pending *)

Ltac unfold_l :=
  unfold Live.bindL, Live.liftM, Live.pending, Live.tryCatchL,
    Live.tryFinallyL in *.

(** The loop on a stream that may stay open: it is pending exactly when
    the stream stalls and the loop asks for more than the stream holds,
    and otherwise it completes, and leaves the frame, as [forAwait] does. *)
Lemma forAwaitL_spec (sessionId : string) (fail : option Exn) (stalls : bool) :
  forall (its : list StreamItem) (f : Frame),
    Live.forAwaitL sessionId its fail stalls f =
    (if stalls && Live.exhausts sessionId its f
     then Live.Pending
     else Live.Settles (fst (forAwait sessionId its fail f)),
     snd (forAwait sessionId its fail f)).
Proof.
  induction its as [|[[ev|]|] rest IH]; intros f.
  - simpl. destruct stalls; destruct fail; reflexivity.
  - rewrite forAwait_deliver. simpl Live.forAwaitL. simpl Live.exhausts.
    unfold_l. unfold get at 1.
    destruct (aborted f); [rewrite andb_false_r; reflexivity|].
    destruct (loopBody sessionId ev f) as [[[|]|e] f1]; simpl;
      rewrite ?andb_false_r; try reflexivity.
    apply IH.
  - rewrite forAwait_null. simpl Live.forAwaitL. simpl Live.exhausts.
    unfold_l. unfold get at 1.
    destruct (aborted f); [rewrite andb_false_r; reflexivity|].
    apply IH.
  - rewrite forAwait_abort. simpl Live.forAwaitL. simpl Live.exhausts.
    unfold_l. simpl. apply IH.
Qed.

(** Once the controller is aborted, the loop asks for another item only
    as long as none is delivered. *)
Lemma exhausts_aborted (sessionId : string) :
  forall (its : list StreamItem) (f : Frame),
    aborted f = true ->
    Live.exhausts sessionId its f = negb (existsb Live.isDeliver its).
Proof.
  induction its as [|[ev|] rest IH]; intros f A; simpl.
  - reflexivity.
  - rewrite A. reflexivity.
  - apply IH. simpl. rewrite A. reflexivity.
Qed.

(** A loop that passed over every item before the caller's abort waits
    for the stream again exactly when nothing is delivered after it. *)
Lemma exhausts_abort (sessionId : string) (post : list StreamItem) :
  forall (pre : list StreamItem) (f : Frame),
    linked f = true -> aborted f = false ->
    forallb (passes sessionId) pre = true ->
    Live.exhausts sessionId (pre ++ ExternalAbort :: post) f =
    negb (existsb Live.isDeliver post).
Proof.
  induction pre as [|[[ev|]|] pre IH]; intros f L A P; simpl app.
  - simpl. apply exhausts_aborted. simpl. rewrite L. apply orb_true_r.
  - simpl in P. apply andb_true_iff in P. destruct P as [P1 P2].
    simpl Live.exhausts. rewrite A.
    pose proof (loopBody_frame sessionId ev f) as B. cbv zeta in B.
    destruct (accepted sessionId ev) eqn:Acc.
    + simpl in P1. apply negb_true_iff in P1.
      apply orb_false_iff in P1. destruct P1 as [Pb Pm].
      destruct (loopBody_accepted sessionId ev f Acc)
        as [[Hm _] | [[_ [Hb _]] | [_ [_ [f1 [H _]]]]]]; try congruence.
      rewrite H in *. simpl in B. destruct B as (_ & B2 & B3 & _).
      apply IH; congruence.
    + rewrite (loopBody_rejected _ _ f Acc). apply IH; assumption.
  - simpl in P. simpl Live.exhausts. rewrite A. apply IH; assumption.
  - simpl in P. discriminate.
Qed.

(** Without a link to a caller's signal, items that do not concern the
    session never decide whether the loop waits for the stream again. *)
Lemma exhausts_concerns (sessionId : string) :
  forall (its : list StreamItem) (f : Frame),
    linked f = false -> aborted f = false ->
    Live.exhausts sessionId its f =
    Live.exhausts sessionId (filter (More.concerns sessionId) its) f.
Proof.
  induction its as [|[[ev|]|] rest IH]; intros f L A; simpl filter.
  - reflexivity.
  - pose proof (loopBody_frame sessionId ev f) as B. cbv zeta in B.
    destruct (accepted sessionId ev) eqn:Acc.
    + simpl Live.exhausts. rewrite A.
      destruct (loopBody sessionId ev f) as [[[|]|e] f1]; try reflexivity.
      simpl in B. destruct B as (_ & B2 & B3 & _). apply IH; congruence.
    + simpl Live.exhausts. rewrite A, (loopBody_rejected _ _ f Acc).
      apply IH; assumption.
  - simpl Live.exhausts. rewrite A. apply IH; assumption.
  - simpl Live.exhausts. apply IH; simpl; rewrite ?L, ?A; reflexivity.
Qed.

(** What a call makes of its loop once setup has succeeded, on a stream
    and a prompt that may stay pending: it is pending when the loop is,
    or when the loop was left without a rethrown error and the prompt
    never settles; otherwise it settles as [settle] says.  The server is
    released exactly when the call settles. *)
Lemma completeL_started (options : CompleteOptions) (w : World)
    (lv : Live.Liveness) (server : Server) (sessionId : string)
    (stream : EventStream) :
  preAborted options = false ->
  createOpencode w = Ok server ->
  sessionCreate w = Ok (Some sessionId) ->
  eventSubscribe w = Ok stream ->
  let f0 := started options w server sessionId in
  let loop := forAwait sessionId (items stream) (failure stream) f0 in
  let stuck := Live.streamStalls lv
               && Live.exhausts sessionId (items stream) f0 in
  let out :=
    if stuck then Live.Pending
    else match fst loop, aborted (snd loop) with
         | Throw e, false => Live.Settles (Throw e)
         | _, _ => if Live.promptStalls lv then Live.Pending
                   else Live.Settles (settle w (fst loop) (snd loop))
         end in
  fst (Live.completeL options w lv entry) = out /\
  trace (snd (Live.completeL options w lv entry)) =
    trace f0 ++ match out with
                | Live.Pending => []
                | Live.Settles _ => [ServerClose]
                end.
Proof.
  intros Hp Hc Hs He f0 loop stuck out.
  pose proof (forAwait_frame sessionId (items stream) (failure stream) f0) as F.
  cbv zeta in F. fold loop in F. destruct F as (F1 & F2 & _ & F4 & _).
  subst out.
  assert (E0 :
    Live.bindL (Live.liftM (linkSignal options))
      (fun _ => Live.tryFinallyL (Live.tryBlockL options w lv)
                                 (Live.liftM finallyBlock)) entry
    = Live.tryFinallyL
        (fun _ =>
           Live.bindL
             (Live.tryCatchL
                (Live.forAwaitL sessionId (items stream) (failure stream)
                                (Live.streamStalls lv))
                (fun err => Live.liftM (rethrowUnlessAborted err)))
             (fun _ =>
                Live.bindL
                  (Live.tryCatchL (Live.awaitPromptL w (Live.promptStalls lv))
                     (fun err => Live.liftM (promptFailedUnlessAborted err)))
                  (fun _ => Live.liftM result)) f0)
        (Live.liftM finallyBlock) entry).
  { unfold Live.tryBlockL, linkSignal, preAborted, hasSignal in *.
    subst f0. unfold started, hasSignal.
    unfold_l. unfold_m. rewrite Hc, Hs, He.
    destruct (abortSignal options) as [[|]|]; try discriminate; simpl;
      destruct (abortDuringSetup w); reflexivity. }
  unfold Live.completeL. rewrite E0. clear E0.
  assert (S0 : var_serverClose f0 = Some server) by reflexivity.
  rewrite S0 in F4. clearbody f0.
  unfold Live.tryFinallyL.
  set (rest := Live.bindL
                 (Live.tryCatchL (Live.awaitPromptL w (Live.promptStalls lv))
                    (fun err => Live.liftM (promptFailedUnlessAborted err)))
                 (fun _ => Live.liftM result)).
  match goal with
  | |- context [Live.bindL ?a ?b f0] => set (body := Live.bindL a b f0)
  end.
  assert (B : body =
              if stuck then (Live.Pending, snd loop)
              else match fst loop, aborted (snd loop) with
                   | Throw e, false => (Live.Settles (Throw e), snd loop)
                   | _, _ => rest (snd loop)
                   end).
  { subst body. unfold Live.bindL at 1, Live.tryCatchL at 1.
    rewrite forAwaitL_spec. fold loop. fold stuck.
    destruct stuck; [reflexivity|].
    destruct (fst loop) as [u|e]; [destruct (aborted (snd loop)); reflexivity|].
    unfold Live.liftM, rethrowUnlessAborted. unfold_m.
    destruct (aborted (snd loop)); reflexivity. }
  rewrite B. clear B body.
  clearbody stuck. clearbody loop.
  destruct stuck.
  { simpl. split; [reflexivity|]. rewrite F1, app_nil_r. reflexivity. }
  assert (S1 : var_serverClose (snd loop) = Some server) by exact F4.
  destruct loop as [lr f1]. simpl fst in *. simpl snd in *.
  assert (Fin : forall (r : res CompleteResult),
             let fin := (let (s0, f'') := Live.liftM finallyBlock f1 in
                         match s0 with
                         | Live.Settles (Ok _) => (Live.Settles r, f'')
                         | Live.Settles (Throw e) => (Live.Settles (Throw e), f'')
                         | Live.Pending => (Live.Pending, f'')
                         end) in
             fst fin = Live.Settles r /\
             trace (snd fin) = trace f0 ++ [ServerClose]).
  { intros r. unfold Live.liftM, finallyBlock, closeServer. unfold_m.
    rewrite S1. simpl. destruct (closeThrows server); simpl; rewrite F1; auto. }
  assert (Tail :
    forall lr',
    (match lr' with Ok _ => True | Throw _ => aborted f1 = true end) ->
    let fin := (let (s, f') := rest f1 in
                match s with
                | Live.Settles r =>
                    let (s0, f'') := Live.liftM finallyBlock f' in
                    match s0 with
                    | Live.Settles (Ok _) => (Live.Settles r, f'')
                    | Live.Settles (Throw e) => (Live.Settles (Throw e), f'')
                    | Live.Pending => (Live.Pending, f'')
                    end
                | Live.Pending => (Live.Pending, f')
                end) in
    fst fin = (if Live.promptStalls lv then Live.Pending
               else Live.Settles (settle w lr' f1)) /\
    trace (snd fin) =
      trace f0 ++ match (if Live.promptStalls lv then Live.Pending
                         else Live.Settles (settle w lr' f1)) with
                  | Live.Pending => []
                  | Live.Settles _ => [ServerClose]
                  end).
  { intros lr' Hlr. cbv zeta. subst rest.
    unfold Live.awaitPromptL, promptFailedUnlessAborted, result, settle,
      finallyBlock, closeServer, resultOf.
    unfold_l. unfold_m.
    destruct (Live.promptStalls lv).
    - destruct (abortDuringPrompt w); simpl; rewrite F1, app_nil_r; auto.
    - destruct (abortDuringPrompt w); simpl;
        destruct (promptOutcome w); simpl;
        destruct (aborted f1) eqn:A; simpl; rewrite ?S1; simpl;
        destruct (linked f1) eqn:L1; simpl; rewrite ?S1; simpl;
        destruct (closeThrows server); simpl; rewrite ?F1;
        destruct lr'; simpl; auto; try discriminate. }
  destruct lr as [u|e].
  - exact (Tail (Ok u) I).
  - destruct (aborted f1) eqn:A.
    + exact (Tail (Throw e) eq_refl).
    + apply Fin.
Qed.

(** When the stream ends or fails and the prompt settles, the call is
    the one of [complete]. *)
Lemma completeL_settling (options : CompleteOptions) (w : World) :
  Live.completeL options w Live.settling entry =
  (Live.Settles (fst (run (complete options w))),
   snd (run (complete options w))).
Proof.
  assert (Loop : forall sid its fail f,
             Live.forAwaitL sid its fail false f =
             Live.liftM (forAwait sid its fail) f).
  { intros. rewrite forAwaitL_spec. unfold Live.liftM.
    destruct (forAwait sid its fail f). reflexivity. }
  unfold run, Live.completeL, complete, Live.tryBlockL, tryBlock,
    Live.awaitPromptL, awaitPrompt, linkSignal.
  unfold Live.settling. simpl Live.streamStalls. simpl Live.promptStalls.
  unfold Live.bindL, Live.tryCatchL, Live.tryFinallyL.
  unfold bindM, tryCatch, tryFinally.
  destruct (abortSignal options) as [[|]|]; simpl; try reflexivity.
  all: destruct (createOpencode w) as [server|e]; simpl;
    [|unfold Live.liftM, finallyBlock, closeServer; unfold_m; reflexivity].
  all: destruct (sessionCreate w) as [[sid|]|e]; simpl;
    try (unfold Live.liftM, finallyBlock, closeServer; unfold_m; simpl;
         destruct (closeThrows server); reflexivity).
  all: destruct (eventSubscribe w) as [stream|e]; simpl;
    try (unfold Live.liftM, finallyBlock, closeServer; unfold_m; simpl;
         destruct (closeThrows server); reflexivity).
  all: destruct (abortDuringSetup w); simpl; rewrite Loop;
    unfold Live.liftM;
    match goal with
    | |- context [forAwait ?s ?i ?fl ?f] =>
        pose proof (forAwait_frame s i fl f) as F; cbv zeta in F;
        destruct F as (_ & _ & _ & F4 & _);
        destruct (forAwait s i fl f) as [[u|e] f1]
    end; simpl in F4;
    destruct f1 as [tr lk ab sc rt tc us sr]; simpl in F4; subst sc;
    unfold rethrowUnlessAborted, promptFailedUnlessAborted, result,
      finallyBlock, closeServer; unfold_m; simpl;
    destruct ab; simpl;
    destruct (abortDuringPrompt w); simpl;
    destruct (promptOutcome w); simpl;
    destruct lk; simpl;
    destruct (closeThrows server); reflexivity.
Qed.

(** A call that never reaches the loop has no await that can stay
    pending: it is the call of [complete]. *)
Lemma completeL_no_loop (options : CompleteOptions) (w : World)
    (lv : Live.Liveness) :
  preAborted options = true \/ More.setupError w <> None ->
  Live.completeL options w lv entry =
  (Live.Settles (fst (run (complete options w))), snd (run (complete options w))).
Proof.
  intros H.
  unfold run, Live.completeL, complete, Live.tryBlockL, tryBlock, linkSignal,
    preAborted, More.setupError in *.
  unfold Live.bindL, Live.tryCatchL, Live.tryFinallyL.
  unfold bindM, tryCatch, tryFinally.
  destruct (abortSignal options) as [[|]|]; simpl; try reflexivity.
  all: destruct (createOpencode w) as [server|e]; simpl;
    [|unfold Live.liftM, finallyBlock, closeServer; unfold_m; reflexivity].
  all: destruct (sessionCreate w) as [[sid|]|e]; simpl;
    try (unfold Live.liftM, finallyBlock, closeServer; unfold_m; simpl;
         destruct (closeThrows server); reflexivity).
  all: destruct (eventSubscribe w) as [stream|e]; simpl;
    try (unfold Live.liftM, finallyBlock, closeServer; unfold_m; simpl;
         destruct (closeThrows server); reflexivity).
  all: exfalso; destruct H as [H|H]; [discriminate | apply H; reflexivity].
Qed.

(** The prompt is submitted, with the parts built, exactly when setup
    has succeeded, also by a call that then stays pending. *)
Lemma completeL_promptCalls (options : CompleteOptions) (w : World)
    (lv : Live.Liveness) :
  filter More.isSessionPrompt (trace (snd (Live.completeL options w lv entry)))
  = Live.promptCalls options w.
Proof.
  unfold Live.promptCalls. rewrite <- buildParts_spec.
  destruct (preAborted options) eqn:Hp.
  { rewrite completeL_no_loop by (left; exact Hp). simpl snd.
    rewrite complete_trace. unfold expectedTrace. rewrite Hp. reflexivity. }
  destruct (createOpencode w) as [server|e] eqn:Hc;
    [destruct (sessionCreate w) as [[sid|]|e] eqn:Hs;
     [destruct (eventSubscribe w) as [stream|e] eqn:He|..]|].
  2-5: rewrite completeL_no_loop
    by (right; unfold More.setupError; rewrite Hc, ?Hs, ?He; discriminate);
    simpl snd; rewrite complete_trace; unfold expectedTrace;
    rewrite Hp, Hc, ?Hs, ?He; reflexivity.
  destruct (@completeL_started options w lv server sid stream Hp Hc Hs He)
    as [_ T].
  rewrite T. simpl trace. rewrite filter_app. simpl.
  match goal with |- context [match ?o with Live.Settles _ => _ | Live.Pending => _ end] =>
    destruct o end; reflexivity.
Qed.

(* ------------------------------------------------------------------ *)
(** ** Cancellation while the loop is running *)

(** The call after a mid-loop abort, on a stream and a prompt that may
    stay pending. *)
Lemma completeL_abort_mid_loop (options : CompleteOptions) (w : World)
    (lv : Live.Liveness) (server : Server) (sessionId : string)
    (pre post : list StreamItem) (fail : option Exn) :
  abortSignal options = Some false ->
  abortDuringSetup w = false ->
  createOpencode w = Ok server ->
  sessionCreate w = Ok (Some sessionId) ->
  eventSubscribe w = Ok {| items := pre ++ ExternalAbort :: post; failure := fail |} ->
  forallb (passes sessionId) pre = true ->
  let out :=
    if (Live.streamStalls lv && negb (existsb Live.isDeliver post))
       || Live.promptStalls lv
    then Live.Pending
    else Live.Settles
           (Ok (resultOf (snd (forAwait sessionId pre None
                                        (started options w server sessionId))))) in
  fst (Live.completeL options w lv entry) = out /\
  trace (snd (Live.completeL options w lv entry)) =
    trace (started options w server sessionId)
    ++ match out with
       | Live.Pending => []
       | Live.Settles _ => [ServerClose]
       end.
Proof.
  intros Ha Hab Hc Hs He Hpre.
  assert (Hp : preAborted options = false) by (unfold preAborted; rewrite Ha; reflexivity).
  assert (Hl : hasSignal options = true) by (unfold hasSignal; rewrite Ha; reflexivity).
  pose proof (completeL_started options w lv Hp Hc Hs He) as S.
  cbv zeta in S. simpl items in S. simpl failure in S.
  set (f0 := started options w server sessionId) in *.
  assert (L : linked f0 = true) by exact Hl.
  assert (A0 : aborted f0 = false).
  { subst f0. simpl. rewrite Hab. apply andb_false_r. }
  rewrite (exhausts_abort sessionId post pre f0 L A0 Hpre) in S.
  pose proof (forAwait_aborted sessionId post fail pre f0 L Hpre) as A.
  pose proof (forAwait_abort_result sessionId post fail pre f0 L Hpre) as R.
  destruct (forAwait sessionId (pre ++ ExternalAbort :: post) fail f0) as [lr f1].
  simpl in A, R. simpl fst in S. simpl snd in S.
  rewrite A in S. cbv zeta. rewrite <- R.
  assert (E : settle w lr f1 = Ok (resultOf f1)).
  { unfold settle. rewrite A. simpl.
    destruct lr; destruct (promptOutcome w); reflexivity. }
  rewrite E in S.
  destruct (Live.streamStalls lv && negb (existsb Live.isDeliver post));
    simpl orb; cbv iota; [exact S|].
  destruct lr; exact S.
Qed.

(** C7, as amended.  The caller's signal fires while the loop is
    running, after the items [pre] went by.  If the stream then delivers
    another item, ends or fails, and the prompt settles, the call
    resolves normally: no Aborted error is raised, no stream or prompt
    error surfaces, the server is released, and the result is the one
    accumulated over [pre], its text being the last text among the
    events processed until then.  If instead the stream stays open and
    silent, or the prompt never settles, the call stays pending and the
    server is not released.  On the streams of [complete], which end or
    fail, the call therefore always resolves with that result. *)
Theorem abort_mid_loop_resolves (options : CompleteOptions) (w : World)
    (lv : Live.Liveness) (server : Server) (sessionId : string)
    (pre post : list StreamItem) (fail : option Exn) :
  abortSignal options = Some false ->
  abortDuringSetup w = false ->
  createOpencode w = Ok server ->
  sessionCreate w = Ok (Some sessionId) ->
  eventSubscribe w = Ok {| items := pre ++ ExternalAbort :: post; failure := fail |} ->
  forallb (passes sessionId) pre = true ->
  let r := resultOf (snd (forAwait sessionId pre None
                                   (started options w server sessionId))) in
  let waits := (Live.streamStalls lv && negb (existsb Live.isDeliver post))
               || Live.promptStalls lv in
  fst (Live.completeL options w lv entry) =
    (if waits then Live.Pending else Live.Settles (Ok r)) /\
  closes (trace (snd (Live.completeL options w lv entry))) =
    (if waits then 0 else 1) /\
  fst (run (complete options w)) = Ok r /\
  text r = lastText (JStr "") (processed sessionId false true pre).
Proof.
  intros Ha Hab Hc Hs He Hpre r waits.
  destruct (@completeL_abort_mid_loop options w lv server sessionId pre post fail
              Ha Hab Hc Hs He Hpre)
    as [O T].
  destruct (@completeL_abort_mid_loop options w Live.settling server sessionId
              pre post fail Ha Hab Hc Hs He Hpre) as [O' _].
  rewrite completeL_settling in O'. simpl in O'.
  fold r in O, T, O'. fold waits in O, T.
  split; [exact O|]. split; [|split].
  - rewrite T. unfold closes. rewrite filter_app. simpl.
    destruct waits; reflexivity.
  - congruence.
  - subst r. unfold resultOf. simpl text. rewrite forAwait_text.
    simpl. unfold hasSignal. rewrite Ha, Hab. reflexivity.
Qed.

(** C7: the signal fires after the first text part.  On a stream that
    stays open but delivers again, the call resolves with the text "a";
    on one that stays silent after the signal, the call stays pending. *)
Lemma abort_mid_loop_resolves_witness :
  fst (Live.completeL (Sample.options (Some false))
         (Sample.world Sample.abortedItems
            (Some (Foreign "AbortError" "aborted")) (Some (Error "boom")))
         Live.openStream entry)
  = Live.Settles
      (Ok {| text := JStr "a"; toolCalls := None; stopReason := end_turn;
             usage := {| inputTokens := JNum 0; outputTokens := JNum 0;
                         totalTokens := JNum 0 |} |})
  /\
  fst (Live.completeL (Sample.options (Some false))
         (Sample.world Edge.silentAfterAbort None None)
         Live.openStream entry)
  = Live.Pending.
Proof.
  split.
  - exact (proj1 (@abort_mid_loop_resolves (Sample.options (Some false))
             (Sample.world Sample.abortedItems
                (Some (Foreign "AbortError" "aborted")) (Some (Error "boom")))
             Live.openStream
             {| closeThrows := None |} "ses_1"
             [Deliver (Some (Sample.textEvent "ses_1" "a"))]
             [Deliver (Some (Sample.textEvent "ses_1" "ab"));
              Deliver (Some (Sample.idleEvent "ses_1"))]
             (Some (Foreign "AbortError" "aborted"))
             eq_refl eq_refl eq_refl eq_refl eq_refl
             ltac:(vm_compute; reflexivity))).
  - exact (proj1 (@abort_mid_loop_resolves (Sample.options (Some false))
             (Sample.world Edge.silentAfterAbort None None)
             Live.openStream
             {| closeThrows := None |} "ses_1"
             [Deliver (Some (Sample.textEvent "ses_1" "a"))]
             []
             None
             eq_refl eq_refl eq_refl eq_refl eq_refl
             ltac:(vm_compute; reflexivity))).
Defined.

(* ------------------------------------------------------------------ *)
(** ** Cancellation during setup *)

(** X23.  When the caller's signal fires while setup is still under way,
    the call goes on to create the session, subscribe and submit the
    prompt, and processes no event at all.  It resolves with the empty
    result, whether or not the stream or the prompt fails, as soon as
    the stream delivers its first item, ends or fails, and the prompt
    settles; on a stream that stays open without delivering anything, or
    with a prompt that never settles, it stays pending and the server is
    not released. *)
Theorem abort_during_setup_resolves_empty (options : CompleteOptions) (w : World)
    (lv : Live.Liveness) (server : Server) (sessionId : string)
    (stream : EventStream) :
  abortSignal options = Some false ->
  abortDuringSetup w = true ->
  createOpencode w = Ok server ->
  sessionCreate w = Ok (Some sessionId) ->
  eventSubscribe w = Ok stream ->
  let waits := (Live.streamStalls lv
                && negb (existsb Live.isDeliver (items stream)))
               || Live.promptStalls lv in
  fst (Live.completeL options w lv entry) =
    (if waits then Live.Pending
     else Live.Settles
            (Ok {| text := JStr ""; toolCalls := None; stopReason := end_turn;
                   usage := {| inputTokens := JNum 0; outputTokens := JNum 0;
                               totalTokens := JNum 0 |} |})) /\
  In (SessionPrompt sessionId (buildParts options))
     (trace (snd (Live.completeL options w lv entry))) /\
  closes (trace (snd (Live.completeL options w lv entry))) =
    (if waits then 0 else 1).
Proof.
  intros Ha Hab Hc Hs He waits.
  assert (Hp : preAborted options = false) by (unfold preAborted; rewrite Ha; reflexivity).
  assert (Hl : hasSignal options = true) by (unfold hasSignal; rewrite Ha; reflexivity).
  pose proof (completeL_started options w lv Hp Hc Hs He) as S.
  cbv zeta in S.
  set (f0 := started options w server sessionId) in *.
  assert (A0 : aborted f0 = true).
  { subst f0. simpl. rewrite Hl, Hab. reflexivity. }
  rewrite (exhausts_aborted sessionId (items stream) f0 A0) in S.
  pose proof (forAwait_aborted_result sessionId (items stream) (failure stream)
                f0 A0) as R.
  pose proof (forAwait_frame sessionId (items stream) (failure stream) f0) as F.
  cbv zeta in F. destruct F as (_ & _ & A1 & _). specialize (A1 A0).
  destruct (forAwait sessionId (items stream) (failure stream) f0) as [lr f1].
  simpl fst in *. simpl snd in *.
  assert (E : settle w lr f1 =
              Ok {| text := JStr ""; toolCalls := None; stopReason := end_turn;
                    usage := {| inputTokens := JNum 0; outputTokens := JNum 0;
                                totalTokens := JNum 0 |} |}).
  { unfold settle. rewrite A1, R. simpl.
    destruct lr; destruct (promptOutcome w); reflexivity. }
  rewrite A1, E in S.
  assert (O : fst (Live.completeL options w lv entry) =
              (if waits then Live.Pending
               else Live.Settles
                      (Ok {| text := JStr ""; toolCalls := None;
                             stopReason := end_turn;
                             usage := {| inputTokens := JNum 0;
                                         outputTokens := JNum 0;
                                         totalTokens := JNum 0 |} |}))).
  { subst waits.
    destruct (Live.streamStalls lv
              && negb (existsb Live.isDeliver (items stream)));
      simpl orb; cbv iota; [exact (proj1 S)|].
    destruct lr; exact (proj1 S). }
  destruct S as [S T]. rewrite S in O.
  split; [rewrite S; exact O|]. split.
  - rewrite T. apply in_or_app. left. subst f0. simpl. auto.
  - rewrite T, O. unfold closes. rewrite filter_app.
    subst f0. simpl. destruct waits; reflexivity.
Qed.

Lemma abort_during_setup_resolves_empty_witness :
  fst (Live.completeL (Sample.options (Some false)) Cases.abortedSetupWorld
         Live.openStream entry) =
  Live.Settles
    (Ok {| text := JStr ""; toolCalls := None; stopReason := end_turn;
           usage := {| inputTokens := JNum 0; outputTokens := JNum 0;
                       totalTokens := JNum 0 |} |}).
Proof.
  exact (proj1 (@abort_during_setup_resolves_empty (Sample.options (Some false))
                  Cases.abortedSetupWorld Live.openStream
                  {| closeThrows := None |} "ses_1"
                  {| items := Sample.abcItems;
                     failure := Some (Foreign "SocketError" "closed") |}
                  eq_refl eq_refl eq_refl eq_refl eq_refl)).
Defined.

(* ------------------------------------------------------------------ *)
(** ** Items that do not concern the session *)

(** X3.  Events of other sessions and null events do not influence a
    call whose stream ends or fails after its last item, or which has no
    abort signal: it completes, or stays pending, exactly as on the
    stream without them.  (On a stream that stays open after an abort,
    such an item is what lets the loop see the abort:
    [foreign_event_after_abort_unblocks].) *)
Theorem other_sessions_do_not_interfere (options : CompleteOptions) (w : World)
    (lv : Live.Liveness) (sessionId : string) (its : list StreamItem)
    (fail : option Exn) :
  sessionCreate w = Ok (Some sessionId) ->
  Live.streamStalls lv && hasSignal options = false ->
  fst (Live.completeL options
         (withStream w {| items := its; failure := fail |}) lv entry)
  = fst (Live.completeL options
           (withStream w {| items := filter (More.concerns sessionId) its;
                            failure := fail |}) lv entry).
Proof.
  intros Hs Hq.
  destruct (preAborted options) eqn:Hp.
  { rewrite !completeL_no_loop by (left; exact Hp). simpl fst.
    unfold preAborted in Hp.
    destruct (abortSignal options) as [[|]|] eqn:Ha; try discriminate.
    rewrite !(complete_preAborted options _ Ha). reflexivity. }
  destruct (createOpencode w) as [server|e] eqn:Hc.
  - destruct (@completeL_started options
                (withStream w {| items := its; failure := fail |}) lv
                server sessionId {| items := its; failure := fail |}
                Hp Hc Hs eq_refl) as [S1 _].
    destruct (@completeL_started options
                (withStream w {| items := filter (More.concerns sessionId) its;
                                 failure := fail |}) lv
                server sessionId
                {| items := filter (More.concerns sessionId) its; failure := fail |}
                Hp Hc Hs eq_refl) as [S2 _].
    rewrite S1, S2. clear S1 S2. simpl items. simpl failure.
    change (started options (withStream w {| items := its; failure := fail |})
              server sessionId)
      with (started options w server sessionId).
    change (started options
              (withStream w {| items := filter (More.concerns sessionId) its;
                               failure := fail |}) server sessionId)
      with (started options w server sessionId).
    set (f0 := started options w server sessionId).
    destruct (forAwait_concerns sessionId fail its f0) as (R & A & E).
    pose proof (forAwait_frame sessionId its fail f0) as F1.
    pose proof (forAwait_frame sessionId (filter (More.concerns sessionId) its)
                  fail f0) as F2.
    cbv zeta in F1, F2.
    destruct F1 as (_ & L1 & _). destruct F2 as (_ & L2 & _).
    assert (X : Live.streamStalls lv && Live.exhausts sessionId its f0 =
                Live.streamStalls lv
                && Live.exhausts sessionId
                     (filter (More.concerns sessionId) its) f0).
    { destruct (Live.streamStalls lv); [|reflexivity].
      simpl in Hq. simpl.
      apply exhausts_concerns; subst f0; simpl; rewrite Hq; reflexivity. }
    rewrite <- X. clear X.
    destruct (Live.streamStalls lv && Live.exhausts sessionId its f0);
      [reflexivity|].
    assert (St : forall lr,
               settle (withStream w {| items := its; failure := fail |}) lr
                 (snd (forAwait sessionId its fail f0)) =
               settle (withStream w
                         {| items := filter (More.concerns sessionId) its;
                            failure := fail |}) lr
                 (snd (forAwait sessionId
                         (filter (More.concerns sessionId) its) fail f0))).
    { intros lr. unfold settle. simpl promptOutcome. simpl abortDuringPrompt.
      rewrite <- A, <- R, L1, L2. reflexivity. }
    rewrite <- A.
    destruct (forAwait sessionId its fail f0) as [lr1 f1].
    destruct (forAwait sessionId (filter (More.concerns sessionId) its) fail f0)
      as [lr2 f2].
    simpl fst in *. simpl snd in *.
    destruct E as [E | E].
    + subst lr2. destruct lr1; destruct (aborted f1); rewrite ?St; reflexivity.
    + rewrite E.
      assert (Y : forall lr lr', settle (withStream w {| items := its; failure := fail |}) lr f1
                               = settle (withStream w {| items := its; failure := fail |}) lr' f1).
      { intros lr lr'. unfold settle. rewrite E. destruct lr, lr'; reflexivity. }
      destruct lr1, lr2; rewrite <- ?St;
        destruct (Live.promptStalls lv); try reflexivity;
        f_equal; apply Y.
  - rewrite !completeL_no_loop
      by (right; unfold More.setupError; simpl; rewrite Hc; discriminate).
    simpl fst.
    rewrite !(@complete_setup_error options _ e Hp); try reflexivity;
      unfold More.setupError; simpl; rewrite Hc; reflexivity.
Qed.

Lemma other_sessions_do_not_interfere_witness :
  fst (Live.completeL (Sample.options None)
         (withStream (Sample.world [] None None)
            {| items := Cases.usageItems ++ [Deliver None]; failure := None |})
         Live.openStream entry)
  = fst (Live.completeL (Sample.options None)
           (withStream (Sample.world [] None None)
              {| items := filter (More.concerns "ses_1")
                                 (Cases.usageItems ++ [Deliver None]);
                 failure := None |})
           Live.openStream entry).
Proof.
  apply (@other_sessions_do_not_interfere (Sample.options None)
           (Sample.world [] None None) Live.openStream "ses_1"
           (Cases.usageItems ++ [Deliver None]) None eq_refl eq_refl).
Defined.

(** The abort flag is read only when an item arrives.  On a stream that
    stays open, an event of another session that arrives after the
    caller's abort lets the call resolve; without it the call stays
    pending. *)
Lemma foreign_event_after_abort_unblocks :
  fst (Live.completeL (Sample.options (Some false))
         (Sample.world Edge.foreignAfterAbort None None) Live.openStream entry)
  = Live.Settles
      (Ok {| text := JStr "a"; toolCalls := None; stopReason := end_turn;
             usage := {| inputTokens := JNum 0; outputTokens := JNum 0;
                         totalTokens := JNum 0 |} |})
  /\ filter (More.concerns "ses_1") Edge.foreignAfterAbort = Edge.silentAfterAbort
  /\ fst (Live.completeL (Sample.options (Some false))
            (Sample.world Edge.silentAfterAbort None None) Live.openStream entry)
     = Live.Pending.
Proof.
  repeat split; vm_compute; reflexivity.
Qed.

(* ------------------------------------------------------------------ *)
(** ** The parts submitted *)

(** C8, counterexample.  The parts the code builds are not the parts as
    the claim words them.  Structured content does not contribute
    nothing: it enters the join as an empty string and its separator
    stays, so "a", structured, "b" give a part with two newlines between
    "a" and "b", and two structured messages give a part holding a
    newline where the claim sends none.  And a system prompt that is
    provided but empty adds no part. *)
Lemma structured_content_leaves_separator :
  (buildParts Edge.mixedMessages =
     [ {| part_text := "a" ++ newline ++ newline ++ "b" |} ] /\
   Worded.parts Edge.mixedMessages =
     [ {| part_text := "a" ++ newline ++ "b" |} ] /\
   buildParts Edge.mixedMessages <> Worded.parts Edge.mixedMessages) /\
  (buildParts Edge.structuredOnly = [ {| part_text := newline |} ] /\
   Worded.parts Edge.structuredOnly = []) /\
  (buildParts Edge.emptySystemPrompt = [ {| part_text := "hello" |} ] /\
   Worded.parts Edge.emptySystemPrompt =
     [ {| part_text := "hello" |}; {| part_text := "[System]: " |} ]).
Proof.
  repeat split; try (vm_compute; reflexivity).
  vm_compute. discriminate.
Qed.

(** C8, as amended.  The parts submitted are: the prompt alone when it
    is a non-empty string; otherwise the user messages' contents joined
    by newlines, structured content entering the join as the empty
    string, unless there are no messages or the joined text is empty, in
    which case no content part; followed by a "[System]: " part when a
    non-empty system prompt is given.  There is at most one content
    part.  The prompt is submitted exactly once, with these parts, when
    setup has succeeded, and not at all otherwise, whether the call then
    settles or stays pending. *)
Theorem submitted_parts (options : CompleteOptions) (w : World) :
  buildParts options = specParts options /\
  length (contentParts options) <= 1 /\
  filter More.isSessionPrompt (trace (snd (run (complete options w))))
  = Live.promptCalls options w /\
  (forall lv,
     filter More.isSessionPrompt
            (trace (snd (Live.completeL options w lv entry)))
     = Live.promptCalls options w).
Proof.
  split; [apply buildParts_spec|]. split; [|split].
  - unfold contentParts, messageParts.
    repeat break_match; simpl; lia.
  - pose proof (completeL_promptCalls options w Live.settling) as H.
    rewrite completeL_settling in H. exact H.
  - intros lv. apply completeL_promptCalls.
Qed.
